(** * Toolbox cache generator: a shallow embedding of [main.py]

    The script scans the configuration folders of four JetBrains-family IDEs,
    collects their recent projects and writes them to the cache file of the
    Toolbox launcher.  Everything the script touches is modelled explicitly:
    the process environment, a tree-shaped file system, the memoised channel
    identifiers of the [Ide] members and standard output.  Python exceptions
    are the error side of a small state-and-exception monad. *)

From Stdlib Require Import ZArith Ascii String.
From stdpp Require Import base option list strings gmap.

Open Scope string_scope.
#[local] Set Warnings "-register-all".

(** ** Python strings *)

Module Str.

(** [s.startswith(p)] *)
Definition startswith (s p : string) : bool := String.prefix p s.

(** [s.endswith("/")] *)
Fixpoint endswith_sep (s : string) : bool :=
match s with
| EmptyString => false
| String c EmptyString => Ascii.eqb c "/"
| String _ rest => endswith_sep rest
end.

(** [s.split(c)]: always at least one field. *)
Fixpoint split (c : ascii) (s : string) : list string :=
match s with
| EmptyString => [EmptyString]
| String a rest =>
    if Ascii.eqb a c then EmptyString :: split c rest
    else match split c rest with
         | [] => [String a EmptyString]
         | field :: fields => String a field :: fields
         end
end.

(** ["/".join(l)] *)
Fixpoint join_sep (l : list string) : string :=
match l with
| [] => ""
| [x] => x
| x :: rest => x ++ "/" ++ join_sep rest
end.

(** [s.replace(old, new)] for a non-empty [old]: occurrences are replaced
  from left to right without overlap.  [skip] counts the characters of a
  match that are still to be dropped. *)
Fixpoint replace_from (old new : string) (skip : nat) (s : string) : string :=
match s with
| EmptyString => EmptyString
| String c rest =>
    match skip with
    | S k => replace_from old new k rest
    | O =>
        if String.prefix old s
        then new ++ replace_from old new (String.length old - 1) rest
        else String c (replace_from old new 0 rest)
    end
end.

Definition replace (s old new : string) : string := replace_from old new 0 s.

End Str.

(** ** Python values read from and written as JSON

    [JNull] is Python's [None].  Numbers are restricted to integers; the
    script never computes with them. *)

Inductive json : Type :=
  | JNull
  | JBool (b : bool)
  | JNum (n : Z)
  | JStr (s : string)
  | JArr (items : list json)
  | JObj (fields : list (string * json)).

(** Lookup in an insertion-ordered association list. *)
Fixpoint assoc {A} (k : string) (l : list (string * A)) : option A :=
  match l with
  | [] => None
  | (k', v) :: rest => if String.eqb k k' then Some v else assoc k rest
  end.

(** ** XML elements (tag, attributes, child elements) *)

Inductive element : Type :=
  | Element (tag : string) (attrib : list (string * string)) (children : list element).

Definition tag_of (e : element) : string := let 'Element t _ _ := e in t.
Definition attrib_of (e : element) : list (string * string) := let 'Element _ a _ := e in a.
Definition children_of (e : element) : list element := let 'Element _ _ c := e in c.

(** [entry.get(key)] *)
Definition element_get (e : element) (k : string) : option string := assoc k (attrib_of e).

(** One location step [tag] of an ElementPath expression: the children with
    that tag of every element selected so far, in document order. *)
Definition select_child (tag : string) (selected : list element) : list element :=
  flat_map (fun e => List.filter (fun c => String.eqb (tag_of c) tag) (children_of e)) selected.

(** The predicate [[@k="v"]]; ElementPath ignores the slash written before it. *)
Definition select_attr (k v : string) (selected : list element) : list element :=
  List.filter (fun e => match element_get e k with
                        | Some v' => String.eqb v' v
                        | None => false
                        end) selected.

(** [root.findall('./component/[@name="RecentProjectsManager"]/option/[@name="additionalInfo"]/map/entry')] *)
Definition findall_entries (root : element) : list element :=
  select_child "entry"
    (select_child "map"
      (select_attr "name" "additionalInfo"
        (select_child "option"
          (select_attr "name" "RecentProjectsManager"
            (select_child "component" [root]))))).

(** ** pathlib, POSIX flavour

    A path object is its root (the empty string, one slash or two slashes)
    and its normalised components. *)

Record PurePath : Type := MkPath { root : string; parts : list string }.

(** One round of the loop of [posixpath.join]. *)
Definition join_step (path b : string) : string :=
  if Str.startswith b "/" then b
  else if (String.eqb path "" || Str.endswith_sep path)%bool then path ++ b
  else path ++ "/" ++ b.

(** [posixpath.join(a, *more)] *)
Definition posixpath_join (a : string) (more : list string) : string :=
  fold_left join_step more a.

(** [s[:1] == "/"] and [s[1:]] *)
Definition starts_sep (s : string) : bool :=
  match s with String c _ => Ascii.eqb c "/" | EmptyString => false end.

Definition behead (s : string) : string :=
  match s with String _ rest => rest | EmptyString => EmptyString end.

(** [posixpath.splitroot]: exactly two leading slashes are kept as a root of
    their own. *)
Definition splitroot (p : string) : string * string :=
  if negb (starts_sep p) then ("", p)
  else if (negb (starts_sep (behead p)) || starts_sep (behead (behead p)))%bool
       then ("/", behead p)
       else ("//", behead (behead p)).

Definition keep_part (x : string) : bool :=
  negb (String.eqb x "" || String.eqb x ".").

(** [PurePath(s)] *)
Definition parse_path (s : string) : PurePath :=
  let '(r, rel) := splitroot s in
  MkPath r (List.filter keep_part (Str.split "/" rel)).

(** [str(path)] *)
Definition path_str (p : PurePath) : string :=
  if String.eqb (root p) ""
  then match parts p with [] => "." | _ => Str.join_sep (parts p) end
  else root p ++ Str.join_sep (parts p).

(** [PurePath(a, *more)] with string arguments. *)
Definition path_of (a : string) (more : list string) : PurePath :=
  parse_path (posixpath_join a more).

(** [Path(base, *more)] where [base] is already a path object. *)
Definition path_under (base : PurePath) (more : list string) : PurePath :=
  path_of (path_str base) more.

(** [path.name] *)
Definition path_name (p : PurePath) : string := List.last (parts p) "".

(** The child [name] of a directory, as [glob] builds it. *)
Definition make_child (p : PurePath) (name : string) : PurePath :=
  MkPath (root p) (parts p ++ [name]).

(** ** The file system

    A directory lists its entries in the order in which the operating system
    enumerates them.  A file is kept in the form its reader obtains: the
    launcher state and the cache as JSON values, a recent-projects record as
    its XML root element, everything else as text.  The three kinds of files
    the script reads have different names, so each file has one reader. *)

Inductive content : Type :=
  | Text (s : string)
  | Json (j : json)
  | Xml (e : element).

Inductive node : Type :=
  | File (c : content)
  | Dir (entries : list (string * node)).

(** The node reached from [n] along canonical components. *)
Fixpoint get_node (n : node) (segs : list string) : option node :=
  match segs with
  | [] => Some n
  | s :: rest =>
      match n with
      | Dir entries =>
          match assoc s entries with
          | Some child => get_node child rest
          | None => None
          end
      | File _ => None
      end
  end.

(** Resolution of [..]: every prefix that is stepped through must be a
    directory; [acc] is the canonical location reached so far. *)
Fixpoint canon (fs : node) (acc segs : list string) : option (list string) :=
  match segs with
  | [] => Some acc
  | s :: rest =>
      match get_node fs acc with
      | Some (Dir _) =>
          if String.eqb s ".." then canon fs (removelast acc) rest
          else canon fs (acc ++ [s]) rest
      | _ => None
      end
  end.

(** Replace or append an entry of a directory. *)
Fixpoint set_entry {A} (k : string) (v : A) (l : list (string * A)) : list (string * A) :=
  match l with
  | [] => [(k, v)]
  | (k', v') :: rest =>
      if String.eqb k k' then (k, v) :: rest else (k', v') :: set_entry k v rest
  end.

(** Store a file at a canonical location; fails when the parent is not a
    directory or the location is a directory. *)
Fixpoint put_file (n : node) (segs : list string) (c : content) : option node :=
  match segs with
  | [] => None
  | s :: rest =>
      match n with
      | File _ => None
      | Dir entries =>
          match rest with
          | [] =>
              match assoc s entries with
              | Some (Dir _) => None
              | _ => Some (Dir (set_entry s (File c) entries))
              end
          | _ :: _ =>
              match assoc s entries with
              | Some child =>
                  match put_file child rest c with
                  | Some child' => Some (Dir (set_entry s child' entries))
                  | None => None
                  end
              | None => None
              end
          end
      end
  end.

(** ** The world of one run *)

(** What the process is started with and never changes. *)
Record world : Type := World {
  environ : gmap string string;   (* os.environ *)
  home : PurePath;                (* pathlib.Path.home() *)
  cwd : list string               (* canonical working directory *)
}.

(** Canonical components looked up for a path object. *)
Definition locate (w : world) (p : PurePath) : list string :=
  if String.eqb (root p) "" then cwd w ++ parts p else parts p.

Definition lookup_path (w : world) (fs : node) (p : PurePath) : option node :=
  match canon fs [] (locate w p) with
  | Some segs => get_node fs segs
  | None => None
  end.

Definition exists_ (w : world) (fs : node) (p : PurePath) : bool :=
  match lookup_path w fs p with Some _ => true | None => false end.

Definition is_file (w : world) (fs : node) (p : PurePath) : bool :=
  match lookup_path w fs p with Some (File _) => true | _ => false end.

Definition is_dir (w : world) (fs : node) (p : PurePath) : bool :=
  match lookup_path w fs p with Some (Dir _) => true | _ => false end.

(** [folder.glob(prefix + "*/", case_sensitive=True)]: the sub-directories
    whose name starts with [prefix], in enumeration order; nothing when
    [folder] cannot be listed. *)
Definition glob_prefix_dirs (w : world) (fs : node) (folder : PurePath) (prefix : string)
  : list PurePath :=
  match lookup_path w fs folder with
  | Some (Dir entries) =>
      omap (fun '(name, child) =>
              match child with
              | Dir _ => if Str.startswith name prefix then Some (make_child folder name) else None
              | File _ => None
              end) entries
  | _ => []
  end.

(** ** The IDE registry *)

Module IdeInfo.
Record t : Type := init { tool_id : string; folder_prefix : string }.
End IdeInfo.

Inductive Ide : Type := PHPSTORM | RIDER | INTELLIJ_IDEA | ANDROID_STUDIO.

#[global] Instance Ide_eq_dec : EqDecision Ide.
Proof. solve_decision. Defined.

Definition value (ide : Ide) : IdeInfo.t :=
  match ide with
  | PHPSTORM => IdeInfo.init "PhpStorm" "PhpStorm"
  | RIDER => IdeInfo.init "Rider" "Rider"
  | INTELLIJ_IDEA => IdeInfo.init "IDEA-U" "IntelliJIdea"
  | ANDROID_STUDIO => IdeInfo.init "AndroidStudio" "AndroidStudio"
  end.

(** [for ide in Ide]: definition order. *)
Definition all_ides : list Ide := [PHPSTORM; RIDER; INTELLIJ_IDEA; ANDROID_STUDIO].

(** ** Exceptions and the monad of the script *)

Inductive exn : Type :=
  | EnvironmentError (msg : string)
  | FileNotFoundError (msg : string)
  | RuntimeError (msg : string)
  | TypeError
  | AttributeError
  | IndexError
  | JSONDecodeError
  | ParseError
  | OSError.

(** Lines printed by the script. *)
Inductive output : Type :=
  | PrintCount (n : nat)
  | PrintSuccess (cache_path : PurePath).

Record state : Type := State {
  fs : node;                    (* the root directory *)
  memo : Ide -> json;           (* IdeInfo._channel_id of each member *)
  reads : list PurePath;        (* files opened for reading, oldest first *)
  stdout : list output
}.

(** Pure code that may raise. *)
Inductive result (A : Type) : Type :=
  | Ok (a : A)
  | Err (e : exn).
Arguments Ok {A} a.
Arguments Err {A} e.

Inductive outcome (A : Type) : Type :=
  | Returns (a : A) (s : state)
  | Raises (e : exn) (s : state).
Arguments Returns {A} a s.
Arguments Raises {A} e s.

Definition M (A : Type) : Type := state -> outcome A.

#[global] Instance result_ret : MRet result := fun A a => Ok a.
#[global] Instance result_bind : MBind result := fun A B f m =>
  match m with Ok a => f a | Err e => Err e end.

#[global] Instance M_ret : MRet M := fun A a s => Returns a s.
#[global] Instance M_bind : MBind M := fun A B f m s =>
  match m s with Returns a s' => f a s' | Raises e s' => Raises e s' end.

Definition raise {A} (e : exn) : M A := fun s => Raises e s.

Definition lift {A} (r : result A) : M A :=
  match r with Ok a => mret a | Err e => raise e end.

Definition gets {A} (f : state -> A) : M A := fun s => Returns (f s) s.

Definition modify (f : state -> state) : M unit := fun s => Returns tt (f s).

Fixpoint foldM {A B} (body : B -> A -> M B) (l : list A) (b : B) : M B :=
  match l with
  | [] => mret b
  | x :: rest => b' ← body b x; foldM body rest b'
  end.

Definition print (o : output) : M unit :=
  modify (fun s => State (fs s) (memo s) (reads s) (stdout s ++ [o])).

(** ** File operations *)

(** Open a file for reading and hand over its content. *)
Definition open_file (w : world) (p : PurePath) : M content := fun s =>
  match lookup_path w (fs s) p with
  | Some (File c) => Returns c (State (fs s) (memo s) (reads s ++ [p]) (stdout s))
  | _ => Raises OSError s
  end.

(** [path.read_text()] *)
Definition read_text (w : world) (p : PurePath) : M string :=
  c ← open_file w p;
  match c with Text t => mret t | _ => raise OSError end.

(** [json.loads(path.read_text())] *)
Definition json_load (w : world) (p : PurePath) : M json :=
  c ← open_file w p;
  match c with Json j => mret j | _ => raise JSONDecodeError end.

(** [ET.parse(path).getroot()] *)
Definition xml_parse (w : world) (p : PurePath) : M element :=
  c ← open_file w p;
  match c with Xml e => mret e | _ => raise ParseError end.

(** [path.write_text(...)]: creates or overwrites the file, nothing else. *)
Definition write_file (w : world) (p : PurePath) (c : content) : M unit := fun s =>
  match canon (fs s) [] (locate w p) with
  | Some segs =>
      match put_file (fs s) segs c with
      | Some fs' => Returns tt (State fs' (memo s) (reads s) (stdout s))
      | None => Raises OSError s
      end
  | None => Raises OSError s
  end.

(** ** The launcher records *)

Module NewOpenItem.
Record t : Type := init { tool_id : string; channel_id : json }.

Definition to_json (self : t) : json :=
  JObj [("toolId", JStr (tool_id self)); ("channelId", channel_id self)].
End NewOpenItem.

Module Project.
Record t : Type := Make {
  name : string;
  path : string;
  default_new_open_item : json;
  new_open_items : list NewOpenItem.t
}.

(** [Project.__init__]: [new_open_items[0]] raises on an empty list. *)
Definition init (name path : string) (new_open_items : list NewOpenItem.t) : result t :=
  match new_open_items with
  | [] => Err IndexError
  | first :: _ => Ok (Make name path (NewOpenItem.channel_id first) new_open_items)
  end.

Definition to_json (self : t) : json :=
  JObj [("name", JStr (name self));
        ("path", JStr (path self));
        ("defaultNewOpenItem", default_new_open_item self);
        ("newOpenItems", JArr (map NewOpenItem.to_json (new_open_items self)))].
End Project.

(** ** Python operations on loaded JSON values *)

(** [obj.get(k)]: only dictionaries have the method; a missing key is [None]. *)
Definition py_get (obj : json) (k : string) : result json :=
  match obj with
  | JObj fields => Ok (default JNull (assoc k fields))
  | _ => Err AttributeError
  end.

(** The items a [for] loop over the value visits. *)
Definition py_iter (v : json) : result (list json) :=
  match v with
  | JArr items => Ok items
  | JObj fields => Ok (map (fun kv => JStr (fst kv)) fields)
  | JStr s => Ok (map (fun c => JStr (String c EmptyString)) (list_ascii_of_string s))
  | _ => Err TypeError
  end.

(** [v == s] for a string [s]. *)
Definition py_eq_str (v : json) (s : string) : bool :=
  match v with JStr s' => String.eqb s' s | _ => false end.

(** [x is None] *)
Definition is_None (v : json) : bool :=
  match v with JNull => true | _ => false end.

(** ** The script *)

(** [os.getenv(key, default)] *)
Definition os_getenv (w : world) (key : string) (default : option string) : option string :=
  match environ w !! key with
  | Some v => Some v
  | None => default
  end.

Definition getenv (w : world) (key : string) (default : option string) : result string :=
  match os_getenv w key default with
  | None => Err (EnvironmentError ("Could not get environment " ++ key))
  | Some value => Ok value
  end.

Definition toolbox_data_path (w : world) (path : option string) : result PurePath :=
  base ← getenv w "LOCALAPPDATA" None;
  match path with
  | None => Err TypeError
  | Some p => Ok (path_of base ["JetBrains"; "Toolbox"; p])
  end.

(** The argument of [toolbox_state]: [None], a tool key or an [Ide] member. *)
Inductive ide_arg : Type :=
  | NoIde
  | ByKey (key : string)
  | ByMember (ide : Ide).

(** The loop over [state.get('tools')]; falls through to [None]. *)
Fixpoint find_tool (ide : ide_arg) (tools : list json) : result json :=
  match tools with
  | [] => Ok JNull
  | tool :: rest =>
      match ide with
      | ByKey key =>
          id ← py_get tool "toolId";
          if py_eq_str id key then Ok tool else find_tool ide rest
      | ByMember m =>
          id ← py_get tool "toolId";
          if py_eq_str id (IdeInfo.tool_id (value m)) then Ok tool else find_tool ide rest
      | NoIde => find_tool ide rest
      end
  end.

Definition toolbox_state (w : world) (ide : ide_arg) : M json :=
  toolbox_state_path ← lift (toolbox_data_path w (Some "state.json"));
  present ← gets (fun s => exists_ w (fs s) toolbox_state_path);
  if negb present then raise (FileNotFoundError "Toolbox state file not found")
  else
    state ← json_load w toolbox_state_path;
    match ide with
    | NoIde => mret state
    | _ =>
        tools ← lift (py_get state "tools");
        items ← lift (py_iter tools);
        lift (find_tool ide items)
    end.

Definition set_memo (self : Ide) (v : json) : M unit :=
  modify (fun s => State (fs s)
                         (fun i => if decide (i = self) then v else memo s i)
                         (reads s) (stdout s)).

(** [IdeInfo.channel_id], for the descriptor of member [self]. *)
Definition channel_id (w : world) (self : Ide) : M json :=
  cached ← gets (fun s => memo s self);
  (if is_None cached then
     tool ← toolbox_state w (ByKey (IdeInfo.tool_id (value self)));
     if is_None tool then
       raise (RuntimeError ("Could not get " ++ IdeInfo.tool_id (value self)
                            ++ " channel ID, IDE not found"))
     else
       c ← lift (py_get tool "channelId");
       set_memo self c
   else mret tt);;
  gets (fun s => memo s self).

(** The configuration root of a kind under [APPDATA]; both branches of the
    source read the same variable. *)
Definition ide_folder (appdata : string) (ide : Ide) : PurePath :=
  if decide (ide = ANDROID_STUDIO) then path_of appdata ["Google"]
  else path_of appdata ["JetBrains"].

Definition ide_data_paths (w : world) (ide : Ide) : M (list PurePath) :=
  appdata ← lift (getenv w "APPDATA" None);
  let folder := ide_folder appdata ide in
  present ← gets (fun s => exists_ w (fs s) folder);
  if negb present then mret []
  else gets (fun s => glob_prefix_dirs w (fs s) folder (IdeInfo.folder_prefix (value ide))).

(** [pathlib.Path(key.replace('$USER_HOME$', str(pathlib.Path.home())))] *)
Definition entry_path (w : world) (key : string) : PurePath :=
  parse_path (Str.replace key "$USER_HOME$" (path_str (home w))).

(** One round of the loop over the entries of a recent-projects record. *)
Definition scan_entry (w : world) (ide : Ide) (recent_projects : list Project.t)
  (entry : element) : M (list Project.t) :=
  key ← match element_get entry "key" with
        | Some k => mret k
        | None => raise AttributeError
        end;
  let path := entry_path w key in
  found ← gets (fun s => is_dir w (fs s) path);
  if negb found then mret recent_projects
  else
    let name_path := path_under path [".idea"; ".name"] in
    named ← gets (fun s => is_file w (fs s) name_path);
    name ← (if named : bool then read_text w name_path else mret (path_name path));
    channel ← channel_id w ide;
    project ← lift (Project.init name (path_str path)
                      [NewOpenItem.init (IdeInfo.tool_id (value ide)) channel]);
    mret (recent_projects ++ [project])%list.

Definition get_recent_projects (w : world) (ide : Ide) (path : PurePath) : M (list Project.t) :=
  let recent_projects_path := path_under path ["options"; "recentProjects.xml"] in
  present ← gets (fun s => is_file w (fs s) recent_projects_path);
  if negb present then mret []
  else
    tree ← xml_parse w recent_projects_path;
    recent_projects ← foldM (scan_entry w ide) (findall_entries tree) [];
    (if decide (ide = RIDER) then print (PrintCount (length recent_projects)) else mret tt);;
    mret recent_projects.

(** [unique_project[project.path] = project] for every project of a folder;
    a dictionary keeps the position of a key that is assigned again. *)
Definition record_projects (unique_project : list (string * Project.t))
  (projects : list Project.t) : list (string * Project.t) :=
  fold_left (fun d project => set_entry (Project.path project) project d)
            projects unique_project.

(** The body of the loop over [Ide]: the projects of one kind. *)
Definition scan_ide (w : world) (ide : Ide) : M (list Project.t) :=
  folders ← ide_data_paths w ide;
  unique_project ← foldM (fun d folder =>
                            found ← get_recent_projects w ide folder;
                            mret (record_projects d found)) folders [];
  mret (map snd unique_project).

Definition collect (w : world) : M (list Project.t) :=
  foldM (fun projects ide =>
           found ← scan_ide w ide;
           mret (projects ++ found)%list) all_ides [].

Definition main (w : world) : M unit :=
  projects ← collect w;
  cache_path ← lift (toolbox_data_path w (Some "cache/intellij_projects.json"));
  write_file w cache_path (Json (JArr (map Project.to_json projects)));;
  print (PrintSuccess cache_path).

(** The state a process starts in: nothing memoised, read or printed. *)
Definition initial (fs0 : node) : state := State fs0 (fun _ => JNull) [] [].

(** Where the launcher keeps its state and the cache. *)
Definition state_path (w : world) : result PurePath :=
  toolbox_data_path w (Some "state.json").

Definition cache_path (w : world) : result PurePath :=
  toolbox_data_path w (Some "cache/intellij_projects.json").

(** ** The scan as a function of the file system

    Up to the final write the script never changes the file system, and a
    memoised channel identifier is the one the launcher state holds.  The
    functions of this module compute what the stateful functions above
    return, from the world and the file system alone; the refinement lemmas
    below justify them. *)

Module Pure.

Fixpoint foldR {A B} (body : B -> A -> result B) (l : list A) (b : B) : result B :=
match l with
| [] => Ok b
| x :: rest => b' ← body b x; foldR body rest b'
end.

Definition open_file (w : world) (fs : node) (p : PurePath) : result content :=
match lookup_path w fs p with
| Some (File c) => Ok c
| _ => Err OSError
end.

Definition read_text (w : world) (fs : node) (p : PurePath) : result string :=
c ← open_file w fs p;
match c with Text t => Ok t | _ => Err OSError end.

Definition json_load (w : world) (fs : node) (p : PurePath) : result json :=
c ← open_file w fs p;
match c with Json j => Ok j | _ => Err JSONDecodeError end.

Definition xml_parse (w : world) (fs : node) (p : PurePath) : result element :=
c ← open_file w fs p;
match c with Xml e => Ok e | _ => Err ParseError end.

Definition toolbox_state (w : world) (fs : node) (ide : ide_arg) : result json :=
toolbox_state_path ← toolbox_data_path w (Some "state.json");
if negb (exists_ w fs toolbox_state_path)
then Err (FileNotFoundError "Toolbox state file not found")
else
  state ← json_load w fs toolbox_state_path;
  match ide with
  | NoIde => Ok state
  | _ =>
      tools ← py_get state "tools";
      items ← py_iter tools;
      find_tool ide items
  end.

(** The channel identifier the launcher state holds for a kind. *)
Definition channel_id (w : world) (fs : node) (self : Ide) : result json :=
tool ← toolbox_state w fs (ByKey (IdeInfo.tool_id (value self)));
if is_None tool then
  Err (RuntimeError ("Could not get " ++ IdeInfo.tool_id (value self)
                     ++ " channel ID, IDE not found"))
else py_get tool "channelId".

Definition scan_entry (w : world) (fs : node) (ide : Ide)
(recent_projects : list Project.t) (entry : element) : result (list Project.t) :=
key ← match element_get entry "key" with
      | Some k => Ok k
      | None => Err AttributeError
      end;
let path := entry_path w key in
if negb (is_dir w fs path) then Ok recent_projects
else
  let name_path := path_under path [".idea"; ".name"] in
  name ← (if is_file w fs name_path then read_text w fs name_path
          else Ok (path_name path));
  channel ← channel_id w fs ide;
  project ← Project.init name (path_str path)
              [NewOpenItem.init (IdeInfo.tool_id (value ide)) channel];
  Ok (recent_projects ++ [project])%list.

Definition get_recent_projects (w : world) (fs : node) (ide : Ide) (path : PurePath)
: result (list Project.t) :=
let recent_projects_path := path_under path ["options"; "recentProjects.xml"] in
if negb (is_file w fs recent_projects_path) then Ok []
else
  tree ← xml_parse w fs recent_projects_path;
  foldR (scan_entry w fs ide) (findall_entries tree) [].

Definition ide_data_paths (w : world) (fs : node) (ide : Ide) : result (list PurePath) :=
appdata ← getenv w "APPDATA" None;
let folder := ide_folder appdata ide in
if negb (exists_ w fs folder) then Ok []
else Ok (glob_prefix_dirs w fs folder (IdeInfo.folder_prefix (value ide))).

Definition scan_ide (w : world) (fs : node) (ide : Ide) : result (list Project.t) :=
folders ← ide_data_paths w fs ide;
unique_project ← foldR (fun d folder =>
                          found ← get_recent_projects w fs ide folder;
                          Ok (record_projects d found)) folders [];
Ok (map snd unique_project).

Definition collect (w : world) (fs : node) : result (list Project.t) :=
foldR (fun projects ide =>
         found ← scan_ide w fs ide;
         Ok (projects ++ found)%list) all_ides [].

End Pure.

(** * Notions used in the verification *)

(** ** Refinement of the stateful scan by the pure one *)

(** A memoised channel identifier is the one the launcher state holds. *)
Definition memo_ok (w : world) (fs0 : node) (s : state) : Prop :=
  forall i, memo s i <> JNull -> Pure.channel_id w fs0 i = Ok (memo s i).

Definition inv (w : world) (fs0 : node) (s : state) : Prop :=
  fs s = fs0 /\ memo_ok w fs0 s.

Definition outcome_of {A} (r : result A) (s : state) : outcome A :=
  match r with Ok a => Returns a s | Err e => Raises e s end.

(** From every state that satisfies the invariant, [m] ends as [r] says and
    re-establishes the invariant. *)
Definition refines {A} (w : world) (fs0 : node) (m : M A) (r : result A) : Prop :=
  forall s, inv w fs0 s -> exists s', inv w fs0 s' /\ m s = outcome_of r s'.


(** ** What a scan finds, before any channel lookup

    The name and path of every surviving entry, in processing order; an
    error when the scan itself would fail on a record. *)

Definition discover_entry (w : world) (fs : node) (entry : element)
  : result (option (string * string)) :=
  key ← match element_get entry "key" with
        | Some k => Ok k
        | None => Err AttributeError
        end;
  let path := entry_path w key in
  if negb (is_dir w fs path) then Ok None
  else
    let name_path := path_under path [".idea"; ".name"] in
    name ← (if is_file w fs name_path then Pure.read_text w fs name_path
            else Ok (path_name path));
    Ok (Some (name, path_str path)).

Fixpoint discover_entries (w : world) (fs : node) (entries : list element)
  : result (list (string * string)) :=
  match entries with
  | [] => Ok []
  | entry :: rest =>
      d ← discover_entry w fs entry;
      ds ← discover_entries w fs rest;
      Ok (match d with Some np => np :: ds | None => ds end)
  end.

Definition discover_folder (w : world) (fs : node) (folder : PurePath)
  : result (list (string * string)) :=
  let recent_projects_path := path_under folder ["options"; "recentProjects.xml"] in
  if negb (is_file w fs recent_projects_path) then Ok []
  else
    tree ← Pure.xml_parse w fs recent_projects_path;
    discover_entries w fs (findall_entries tree).

Fixpoint discover_folders (w : world) (fs : node) (folders : list PurePath)
  : result (list (string * string)) :=
  match folders with
  | [] => Ok []
  | folder :: rest =>
      d ← discover_folder w fs folder;
      ds ← discover_folders w fs rest;
      Ok (d ++ ds)%list
  end.

Definition discover_ide (w : world) (fs : node) (ide : Ide) : result (list (string * string)) :=
  folders ← Pure.ide_data_paths w fs ide;
  discover_folders w fs folders.

Fixpoint discover_kinds (w : world) (fs : node) (ides : list Ide)
  : result (list (Ide * (string * string))) :=
  match ides with
  | [] => Ok []
  | ide :: rest =>
      d ← discover_ide w fs ide;
      ds ← discover_kinds w fs rest;
      Ok (map (pair ide) d ++ ds)%list
  end.

Definition discover (w : world) (fs : node) : result (list (Ide * (string * string))) :=
  discover_kinds w fs all_ides.

(** The paths the installations of a kind report. *)
Definition reported_paths (w : world) (fs : node) (ide : Ide) : list string :=
  match discover_ide w fs ide with
  | Ok found => map snd found
  | Err _ => []
  end.

(** The project the script builds for a surviving entry. *)
Definition project_of (ide : Ide) (channel : json) (np : string * string) : Project.t :=
  Project.Make (fst np) (snd np) channel
    [NewOpenItem.init (IdeInfo.tool_id (value ide)) channel].

(** ** The launcher state as a list of tool records *)

Definition as_record (tool : json) : option (list (string * json)) :=
  match tool with JObj fields => Some fields | _ => None end.

Definition tool_records (st : json) : option (list (list (string * json))) :=
  match st with
  | JObj fields =>
      match assoc "tools" fields with
      | Some (JArr items) => mapM as_record items
      | _ => None
      end
  | _ => None
  end.

Definition has_tool_key (key : string) (record : list (string * json)) : bool :=
  py_eq_str (default JNull (assoc "toolId" record)) key.

(** ** The cache file *)

Definition file_at (w : world) (fs : node) (p : result PurePath) : option content :=
  match p with
  | Ok p' => match lookup_path w fs p' with Some (File c) => Some c | _ => None end
  | Err _ => None
  end.

Definition is_Dir (n : option node) : bool :=
  match n with Some (Dir _) => true | _ => false end.

(** A file can be created or overwritten at [p]: the path resolves, is not
    the root and is not a directory. *)
Definition writable (w : world) (fs : node) (p : PurePath) : bool :=
  match canon fs [] (locate w p) with
  | Some [] => false
  | Some segs => negb (is_Dir (get_node fs segs))
  | None => false
  end.

(** A canonical location is a directory or lies directly in one. *)
Definition anchored (n : node) (r : list string) : Prop :=
  is_Dir (get_node n r) = true \/
  exists a s, r = (a ++ [s])%list /\ is_Dir (get_node n a) = true.

(** ** Runs in sequence and their traces *)

(** [f] was run on every element in turn and returned [bs]. *)
Inductive runs_each {A B} (f : A -> M B) : list A -> state -> list B -> state -> Prop :=
  | runs_nil s : runs_each f [] s [] s
  | runs_cons x xs s b s1 bs s2 :
      f x s = Returns b s1 ->
      runs_each f xs s1 bs s2 ->
      runs_each f (x :: xs) s (b :: bs) s2.

(** The last project reported for path [k]. *)
Definition last_report (k : string) (reported : list Project.t) : option Project.t :=
  List.find (fun q => String.eqb (Project.path q) k) (rev reported).

(** A project as the scan of kind [ide] builds it: one open action, which
    carries the tool key of the kind and is the default. *)
Definition built_for (ide : Ide) (p : Project.t) : Prop :=
  exists c, Project.new_open_items p = [NewOpenItem.init (IdeInfo.tool_id (value ide)) c] /\
            Project.default_new_open_item p = c.

(** Every key of the dictionary is the path of its project. *)
Definition keyed (d : list (string * Project.t)) : Prop :=
  Forall (fun kv => fst kv = Project.path (snd kv)) d.

(** Nothing but recent-projects records was read between [s] and [s']. *)
Definition quiet (s s' : state) : Prop :=
  fs s' = fs s /\ memo s' = memo s /\
  exists extra, reads s' = (reads s ++ extra)%list /\
                Forall (fun p => path_name p = "recentProjects.xml") extra.

(** Where the name of a found project comes from: the marker file of its
    directory when there is one, the last component of its path otherwise. *)
Definition named_by (w : world) (fs0 : node) (key : string) (np : string * string) : Prop :=
  let d := entry_path w key in
  let marker := path_under d [".idea"; ".name"] in
  snd np = path_str d /\ is_dir w fs0 d = true /\
  if is_file w fs0 marker
  then lookup_path w fs0 marker = Some (File (Text (fst np)))
  else fst np = path_name d.

(** The last field of [t], split at slashes, is [name]. *)
Definition ends_named (name t : string) : Prop :=
  exists front, Str.split "/" t = (front ++ [name])%list.

(** ** Two machines to run the script on *)

Module Sample.

Definition env : gmap string string :=
  <["APPDATA" := "/home/u/Roaming"]> (<["LOCALAPPDATA" := "/home/u/Local"]> ∅).

Definition machine : world := World env (parse_path "/home/u") ["home"; "u"].

Definition record (keys : list string) : element :=
  Element "application" [] [
    Element "component" [("name", "RecentProjectsManager")] [
      Element "option" [("name", "additionalInfo")] [
        Element "map" [] (map (fun k => Element "entry" [("key", k)] []) keys)]]].

Definition installation (keys : list string) : node :=
  Dir [("options", Dir [("recentProjects.xml", File (Xml (record keys)))])].

Definition keys_2023_1 : list string :=
  ["$USER_HOME$/proj/a"; "$USER_HOME$/proj/gone"; "/srv/b"].

Definition launcher_state : json :=
  JObj [("tools", JArr [
    JObj [("toolId", JStr "Rider"); ("channelId", JStr "r-1")];
    JObj [("toolId", JStr "PhpStorm"); ("channelId", JStr "p-1")]])].

Definition previous_cache : json :=
  JArr [JObj [("name", JStr "old"); ("path", JStr "/srv/old");
              ("defaultNewOpenItem", JStr "p-0");
              ("newOpenItems",
               JArr [JObj [("toolId", JStr "PhpStorm"); ("channelId", JStr "p-0")]])]].

Definition projects : (string * node) :=
  ("proj", Dir [("a", Dir [(".idea", Dir [(".name", File (Text "Alpha"))])])]).

(** Two PhpStorm installations and one Rider installation; [/srv/b] is
    known to all three.  The launcher state is there or not. *)
Definition disk (with_state : bool) : node :=
  Dir [("home", Dir [("u", Dir [
         projects;
         ("Roaming", Dir [("JetBrains", Dir [
            ("PhpStorm2023.1", installation keys_2023_1);
            ("PhpStorm2023.2", installation ["/srv/b"]);
            ("Rider2023.3", installation ["/srv/b"]);
            ("PhpStorm.log", File (Text "not a folder"))])]);
         ("Local", Dir [("JetBrains", Dir [("Toolbox", Dir (
            (if with_state then [("state.json", File (Json launcher_state))] else [])
            ++ [("cache", Dir [("intellij_projects.json", File (Json previous_cache))])]))])])])]);
       ("srv", Dir [("b", Dir [])])].

(** No IDE was ever installed and the launcher has no state file, but a
    cache file from an earlier run is present. *)
Definition bare_disk : node :=
  Dir [("home", Dir [("u", Dir [
         ("Roaming", Dir []);
         ("Local", Dir [("JetBrains", Dir [("Toolbox", Dir [
            ("cache", Dir [("intellij_projects.json", File (Json previous_cache))])])])])])])].

Definition state_file : PurePath :=
  MkPath "/" ["home"; "u"; "Local"; "JetBrains"; "Toolbox"; "state.json"].

Definition cache_file : PurePath :=
  MkPath "/" ["home"; "u"; "Local"; "JetBrains"; "Toolbox"; "cache"; "intellij_projects.json"].

Definition phpstorm_2023_1 : PurePath :=
  MkPath "/" ["home"; "u"; "Roaming"; "JetBrains"; "PhpStorm2023.1"].

End Sample.

(** ** Notions for the further properties *)

(** The state an outcome ends in. *)
Definition final {A} (o : outcome A) : state :=
  match o with Returns _ s => s | Raises _ s => s end.

(** Whatever [m] does, it relates the state it starts in to the one it ends
    in by [R]. *)
Definition keeps {A} (R : state -> state -> Prop) (m : M A) : Prop :=
  forall s, R s (final (m s)).

(** Neither the file system nor standard output has changed. *)
Definition silent (s s' : state) : Prop :=
  fs s' = fs s /\ stdout s' = stdout s.

(** The file system has not changed. *)
Definition same_disk (s s' : state) : Prop := fs s' = fs s.

(** Provided the channel identifier of [ide] was memoised in [s]: the memo
    is as it was and no file named [state.json] has been opened since. *)
Definition served (ide : Ide) (s s' : state) : Prop :=
  memo s ide <> JNull ->
  memo s' = memo s /\
  exists extra, reads s' = (reads s ++ extra)%list /\
                Forall (fun p => path_name p <> "state.json") extra.

(** A line that only carries a number. *)
Definition is_count (o : output) : Prop :=
  match o with PrintCount _ => True | PrintSuccess _ => False end.

(** The file system is unchanged and only count lines were printed. *)
Definition counts_only (s s' : state) : Prop :=
  fs s' = fs s /\
  exists lines, stdout s' = (stdout s ++ lines)%list /\ Forall is_count lines.

(** The keys in the order in which they are first met; [seen] are the keys
    met before. *)
Fixpoint first_seen (seen keys : list string) : list string :=
  match keys with
  | [] => []
  | k :: rest =>
      if existsb (String.eqb k) seen then first_seen seen rest
      else k :: first_seen (seen ++ [k]) rest
  end.

(** What a lookup leaves behind when it has opened the state file at [sp]. *)
Definition after_read (s : state) (sp : PurePath) : state :=
  State (fs s) (memo s) (reads s ++ [sp]) (stdout s).

(** An entry of a record that the scan passes over: it has a key and the
    key does not resolve to a directory. *)
Definition stale (w : world) (fs0 : node) (entry : element) : Prop :=
  exists key, element_get entry "key" = Some key /\ is_dir w fs0 (entry_path w key) = false.

(** Only the log of opened files may differ. *)
Definition only_reads (s s' : state) : Prop :=
  fs s' = fs s /\ memo s' = memo s /\ stdout s' = stdout s.

(** The memo of every kind but [ide] is as it was, and an identifier that
    was memoised for [ide] is still the same. *)
Definition memo_step (ide : Ide) (s s' : state) : Prop :=
  (forall i, i <> ide -> memo s' i = memo s i) /\
  (memo s ide <> JNull -> memo s' ide = memo s ide).

(** Every memoised identifier is still the same. *)
Definition memo_grows (s s' : state) : Prop :=
  forall i, memo s i <> JNull -> memo s' i = memo s i.

(** A path object as [parse_path] builds them: one of the three roots, and
    components without slash that are neither empty nor a single dot. *)
Definition normal_path (p : PurePath) : Prop :=
  (root p = "" \/ root p = "/" \/ root p = "//") /\
  Forall (fun x => Str.split "/" x = [x] /\ keep_part x = true) (parts p).

(** [path.parent], for a path with at least one component. *)
Definition parent (p : PurePath) : PurePath := MkPath (root p) (removelast (parts p)).

(** ** The scan up to its first surviving entry

    The loops of [main] and [get_recent_projects] followed in their order
    (kinds, then the folders of a kind, then the entries of a record) until
    an entry survives: [Ok (Some x)] when entry [x] survives before anything
    has failed, the error when a step fails before any entry survives, and
    [Ok None] when the scan ends without survivor and without error. *)

Fixpoint first_of {A B} (f : A -> result (option B)) (l : list A) : result (option B) :=
  match l with
  | [] => Ok None
  | x :: rest =>
      match f x with
      | Err e => Err e
      | Ok (Some b) => Ok (Some b)
      | Ok None => first_of f rest
      end
  end.

Definition first_in_folder (w : world) (fs : node) (folder : PurePath)
  : result (option (string * string)) :=
  let recent_projects_path := path_under folder ["options"; "recentProjects.xml"] in
  if negb (is_file w fs recent_projects_path) then Ok None
  else
    tree ← Pure.xml_parse w fs recent_projects_path;
    first_of (discover_entry w fs) (findall_entries tree).

Definition first_of_kind (w : world) (fs : node) (ide : Ide)
  : result (option (Ide * (string * string))) :=
  folders ← Pure.ide_data_paths w fs ide;
  match first_of (first_in_folder w fs) folders with
  | Ok np => Ok (option_map (pair ide) np)
  | Err e => Err e
  end.

Definition first_survivor (w : world) (fs : node) : result (option (Ide * (string * string))) :=
  first_of (first_of_kind w fs) all_ides.

(** ** Further sample situations *)

Module Cases.

(** A launcher folder that holds nothing but a state file of content [c];
    no IDE is installed and there is no [cache] folder. *)
Definition toolbox_disk (c : content) : node :=
  Dir [("home", Dir [("u", Dir [
         ("Local", Dir [("JetBrains", Dir [("Toolbox", Dir [("state.json", File c)])])])])])].

(** The first PhpStorm record carries no channel identifier. *)
Definition unchannelled : json :=
  JObj [("tools", JArr [
    JObj [("toolId", JStr "PhpStorm")];
    JObj [("toolId", JStr "PhpStorm"); ("channelId", JStr "p-1")]])].

(** One PhpStorm installation whose record file holds [c]. *)
Definition record_disk (c : content) : node :=
  Dir [("home", Dir [("u", Dir [
         ("Roaming", Dir [("JetBrains", Dir [
            ("PhpStorm2023.1",
             Dir [("options", Dir [("recentProjects.xml", File c)])])])])])])].

(** A record of three entries: a stale one, one without key, one more. *)
Definition keyless : element :=
  Element "application" [] [
    Element "component" [("name", "RecentProjectsManager")] [
      Element "option" [("name", "additionalInfo")] [
        Element "map" [] [
          Element "entry" [("key", "/nowhere")] [];
          Element "entry" [] [];
          Element "entry" [("key", "/home/u")] []]]]].

(** A record whose first entry survives and whose second has no key. *)
Definition late_keyless : element :=
  Element "application" [] [
    Element "component" [("name", "RecentProjectsManager")] [
      Element "option" [("name", "additionalInfo")] [
        Element "map" [] [
          Element "entry" [("key", "/home/u")] [];
          Element "entry" [] []]]]].

(** The sample machine once the channel of PhpStorm has been looked up. *)
Definition warmed : state :=
  State (Sample.disk true)
        (fun i => if decide (i = PHPSTORM) then JStr "p-1" else JNull)
        [Sample.state_file] [].

(** A machine on which [LOCALAPPDATA] is not set. *)
Definition no_local : world :=
  World (<["APPDATA" := "/home/u/Roaming"]> ∅) (parse_path "/home/u") ["home"; "u"].

End Cases.
(** * Verification *)

(** ** The monad *)

Lemma bind_eq {A B} (m : M A) (f : A -> M B) (s : state) :
  (m ≫= f) s = match m s with Returns a s' => f a s' | Raises e s' => Raises e s' end.
Proof. reflexivity. Qed.

Lemma bind_returns {A B} (m : M A) (f : A -> M B) s b s' :
  (m ≫= f) s = Returns b s' <-> exists a s1, m s = Returns a s1 /\ f a s1 = Returns b s'.
Proof.
  rewrite bind_eq. destruct (m s) as [a s1|e s1]; split.
  - intros H; eauto.
  - intros (a' & s2 & [= -> ->] & H); exact H.
  - discriminate.
  - intros (a' & s2 & [=] & _).
Qed.

Lemma bind_raises {A B} (m : M A) (f : A -> M B) s e s' :
  (m ≫= f) s = Raises e s' <->
  m s = Raises e s' \/ exists a s1, m s = Returns a s1 /\ f a s1 = Raises e s'.
Proof.
  rewrite bind_eq. destruct (m s) as [a s1|e1 s1]; split.
  - intros H; right; eauto.
  - intros [[=]|(a' & s2 & [= -> ->] & H)]; exact H.
  - intros [= -> ->]; left; reflexivity.
  - intros [[= -> ->]|(a' & s2 & [=] & _)]; reflexivity.
Qed.

Lemma inv_initial w fs0 : inv w fs0 (initial fs0).
Proof. split; [reflexivity|]. intros i H. simpl in H. congruence. Qed.

Section Refinement.
Context (w : world) (fs0 : node).

Lemma refines_ret {A} (a : A) : refines w fs0 (mret a) (Ok a).
Proof. intros s Hs. exists s. split; [exact Hs|reflexivity]. Qed.

Lemma refines_raise {A} (e : exn) : refines w fs0 (raise e) (Err e : result A).
Proof. intros s Hs. exists s. split; [exact Hs|reflexivity]. Qed.

Lemma refines_lift {A} (r : result A) : refines w fs0 (lift r) r.
Proof. destruct r; [apply refines_ret|apply refines_raise]. Qed.

Lemma refines_bind {A B} (m : M A) (f : A -> M B) (r : result A) (g : A -> result B) :
  refines w fs0 m r ->
  (forall a, r = Ok a -> refines w fs0 (f a) (g a)) ->
  refines w fs0 (m ≫= f) (r ≫= g).
Proof.
  intros Hm Hf s Hs. destruct (Hm s Hs) as (s1 & Hs1 & E).
  rewrite bind_eq, E. destruct r as [a|e]; simpl.
  - apply (Hf a eq_refl s1 Hs1).
  - exists s1. split; [exact Hs1|reflexivity].
Qed.

(** A query of the file system is answered from [fs0]. *)
Lemma refines_gets {A B} (h : state -> A) (a : A) (f : A -> M B) (r : result B) :
  (forall s, fs s = fs0 -> h s = a) ->
  refines w fs0 (f a) r ->
  refines w fs0 (gets h ≫= f) r.
Proof.
  intros Hh Hf s Hs. rewrite bind_eq. unfold gets.
  rewrite (Hh s (proj1 Hs)). apply (Hf s Hs).
Qed.

Lemma refines_print {B} (o : output) (f : unit -> M B) (r : result B) :
  refines w fs0 (f tt) r -> refines w fs0 (print o ≫= f) r.
Proof.
  intros Hf s Hs. rewrite bind_eq. unfold print, modify.
  apply Hf. destruct Hs as [Hfs Hm]. split; [exact Hfs|exact Hm].
Qed.

Lemma refines_foldM {A B} (body : B -> A -> M B) (pure : B -> A -> result B) (l : list A) :
  (forall b x, x ∈ l -> refines w fs0 (body b x) (pure b x)) ->
  forall b, refines w fs0 (foldM body l b) (Pure.foldR pure l b).
Proof.
  induction l as [|x l IH]; intros Hbody b; simpl.
  - apply refines_ret.
  - apply refines_bind.
    + apply Hbody. left.
    + intros b' _. apply IH. intros b0 y Hy. apply Hbody. right. exact Hy.
Qed.

Lemma refines_open_file (p : PurePath) :
  refines w fs0 (open_file w p) (Pure.open_file w fs0 p).
Proof.
  intros s [Hfs Hm]. unfold open_file, Pure.open_file. rewrite Hfs.
  destruct (lookup_path w fs0 p) as [[c|entries]|]; simpl.
  - eexists. split; [|reflexivity]. split; [reflexivity|exact Hm].
  - exists s. split; [split; assumption|reflexivity].
  - exists s. split; [split; assumption|reflexivity].
Qed.

Lemma refines_read_text (p : PurePath) :
  refines w fs0 (read_text w p) (Pure.read_text w fs0 p).
Proof.
  apply refines_bind; [apply refines_open_file|].
  intros [t|j|e] _; [apply refines_ret|apply refines_raise..].
Qed.

Lemma refines_json_load (p : PurePath) :
  refines w fs0 (json_load w p) (Pure.json_load w fs0 p).
Proof.
  apply refines_bind; [apply refines_open_file|].
  intros [t|j|e] _; [apply refines_raise|apply refines_ret|apply refines_raise].
Qed.

Lemma refines_xml_parse (p : PurePath) :
  refines w fs0 (xml_parse w p) (Pure.xml_parse w fs0 p).
Proof.
  apply refines_bind; [apply refines_open_file|].
  intros [t|j|e] _; [apply refines_raise..|apply refines_ret].
Qed.

Lemma refines_toolbox_state (ide : ide_arg) :
  refines w fs0 (toolbox_state w ide) (Pure.toolbox_state w fs0 ide).
Proof.
  unfold toolbox_state, Pure.toolbox_state.
  apply refines_bind; [apply refines_lift|]. intros p _.
  apply (refines_gets _ (exists_ w fs0 p)); [intros s <-; reflexivity|].
  destruct (exists_ w fs0 p); simpl; [|apply refines_raise].
  apply refines_bind; [apply refines_json_load|]. intros st _.
  destruct ide; [apply refines_ret|..];
    (apply refines_bind; [apply refines_lift|]; intros tools _;
     apply refines_bind; [apply refines_lift|]; intros items _;
     apply refines_lift).
Qed.

End Refinement.

Section RefinementScan.
Context (w : world) (fs0 : node).

Lemma refines_channel_id (self : Ide) :
  refines w fs0 (channel_id w self) (Pure.channel_id w fs0 self).
Proof.
  intros s Hs. pose proof Hs as [Hfs Hm].
  unfold channel_id. rewrite bind_eq. unfold gets at 1. cbv beta.
  destruct (is_None (memo s self)) eqn:En.
  - rewrite !bind_eq.
    destruct (refines_toolbox_state w fs0 (ByKey (IdeInfo.tool_id (value self))) s Hs)
      as (s1 & Hs1 & E).
    rewrite E. unfold Pure.channel_id.
    destruct (Pure.toolbox_state w fs0 (ByKey (IdeInfo.tool_id (value self))))
      as [tool|e] eqn:Et; simpl.
    + destruct (is_None tool) eqn:Enone; simpl.
      * exists s1. split; [exact Hs1|reflexivity].
      * destruct (py_get tool "channelId") as [c|e] eqn:Ec; simpl.
        -- eexists. split; [|unfold gets; simpl; rewrite decide_True by reflexivity; reflexivity].
           destruct Hs1 as [Hfs1 Hm1]. split; [exact Hfs1|].
           intros i Hi. simpl in *. destruct (decide (i = self)) as [->|Hne].
           ++ unfold Pure.channel_id. rewrite Et. simpl. rewrite Enone. exact Ec.
           ++ apply Hm1, Hi.
        -- exists s1. split; [exact Hs1|reflexivity].
    + exists s1. split; [exact Hs1|reflexivity].
  - rewrite bind_eq. simpl. exists s. split; [exact Hs|].
    unfold gets. rewrite (Hm self); [reflexivity|].
    intros Hnull. rewrite Hnull in En. discriminate.
Qed.

Lemma refines_scan_entry (ide : Ide) (acc : list Project.t) (entry : element) :
  refines w fs0 (scan_entry w ide acc entry) (Pure.scan_entry w fs0 ide acc entry).
Proof.
  unfold scan_entry, Pure.scan_entry.
  apply refines_bind.
  { destruct (element_get entry "key"); [apply refines_ret|apply refines_raise]. }
  intros key _. cbv zeta.
  apply (refines_gets _ _ _ (is_dir w fs0 (entry_path w key))); [intros s <-; reflexivity|].
  destruct (is_dir w fs0 (entry_path w key)); simpl; [|apply refines_ret].
  apply (refines_gets _ _ _ (is_file w fs0 (path_under (entry_path w key) [".idea"; ".name"])));
    [intros s <-; reflexivity|].
  apply refines_bind.
  { destruct (is_file w fs0 _); [apply refines_read_text|apply refines_ret]. }
  intros name _.
  apply refines_bind; [apply refines_channel_id|]. intros channel _.
  intros s Hs. exists s. split; [exact Hs|reflexivity].
Qed.

Lemma refines_get_recent_projects (ide : Ide) (path : PurePath) :
  refines w fs0 (get_recent_projects w ide path) (Pure.get_recent_projects w fs0 ide path).
Proof.
  unfold get_recent_projects, Pure.get_recent_projects. cbv zeta.
  apply (refines_gets _ _ _
           (is_file w fs0 (path_under path ["options"; "recentProjects.xml"])));
    [intros s <-; reflexivity|].
  destruct (is_file w fs0 _); simpl; [|apply refines_ret].
  apply refines_bind; [apply refines_xml_parse|]. intros tree _.
  intros s Hs.
  destruct (refines_foldM w fs0 (scan_entry w ide) (Pure.scan_entry w fs0 ide)
              (findall_entries tree) (fun b x _ => refines_scan_entry ide b x) [] s Hs)
    as (s1 & Hs1 & E).
  rewrite bind_eq, E.
  destruct (Pure.foldR _ _ _) as [ps|e]; simpl; [|exists s1; split; [exact Hs1|reflexivity]].
  destruct (decide (ide = RIDER)); rewrite bind_eq; simpl.
  - eexists. split; [|reflexivity]. destruct Hs1 as [H1 H2]. split; [exact H1|exact H2].
  - exists s1. split; [exact Hs1|reflexivity].
Qed.

Lemma refines_ide_data_paths (ide : Ide) :
  refines w fs0 (ide_data_paths w ide) (Pure.ide_data_paths w fs0 ide).
Proof.
  unfold ide_data_paths, Pure.ide_data_paths.
  apply refines_bind; [apply refines_lift|]. intros appdata _. cbv zeta.
  set (folder := ide_folder appdata ide).
  apply (refines_gets _ _ _ (exists_ w fs0 folder)); [intros s <-; reflexivity|].
  destruct (exists_ w fs0 folder); simpl; [|apply refines_ret].
  intros s Hs. exists s. split; [exact Hs|]. unfold gets. rewrite (proj1 Hs). reflexivity.
Qed.

Lemma refines_scan_ide (ide : Ide) :
  refines w fs0 (scan_ide w ide) (Pure.scan_ide w fs0 ide).
Proof.
  unfold scan_ide, Pure.scan_ide.
  apply refines_bind; [apply refines_ide_data_paths|]. intros folders _.
  apply refines_bind.
  - apply refines_foldM. intros d folder _.
    apply refines_bind; [apply refines_get_recent_projects|]. intros found _.
    apply refines_ret.
  - intros d _. apply refines_ret.
Qed.

Lemma refines_collect : refines w fs0 (collect w) (Pure.collect w fs0).
Proof.
  unfold collect, Pure.collect. apply refines_foldM. intros projects ide _.
  apply refines_bind; [apply refines_scan_ide|]. intros found _. apply refines_ret.
Qed.

End RefinementScan.

(** ** The launcher state *)

Lemma find_tool_records (key : string) (items : list json) :
  forall records, mapM as_record items = Some records ->
  find_tool (ByKey key) items =
  Ok (match List.filter (has_tool_key key) records with
      | [] => JNull
      | r :: _ => JObj r
      end).
Proof.
  induction items as [|tool items IH]; intros records H; simpl in H.
  - injection H as <-. reflexivity.
  - destruct tool as [| | | | |fields]; simpl in H; try discriminate.
    destruct (mapM as_record items) as [rs|] eqn:E; simpl in H; [|discriminate].
    injection H as <-. simpl. unfold has_tool_key at 1.
    destruct (py_eq_str (default JNull (assoc "toolId" fields)) key); [reflexivity|].
    apply IH. reflexivity.
Qed.

Lemma exists_of_lookup w fs p n : lookup_path w fs p = Some n -> exists_ w fs p = true.
Proof. unfold exists_. intros ->. reflexivity. Qed.

Lemma pure_toolbox_state_records w fs sp st records (key : string) :
  state_path w = Ok sp ->
  lookup_path w fs sp = Some (File (Json st)) ->
  tool_records st = Some records ->
  Pure.toolbox_state w fs (ByKey key) =
  Ok (match List.filter (has_tool_key key) records with
      | [] => JNull
      | r :: _ => JObj r
      end).
Proof.
  intros Hsp Hfile Hrec. unfold Pure.toolbox_state.
  unfold state_path in Hsp. rewrite Hsp. simpl.
  rewrite (exists_of_lookup _ _ _ _ Hfile). simpl.
  unfold Pure.json_load, Pure.open_file. rewrite Hfile. simpl.
  destruct st as [| | | | |fields]; simpl in Hrec; try discriminate.
  simpl. destruct (assoc "tools" fields) as [[| | | |items|]|]; try discriminate.
  simpl. apply find_tool_records. exact Hrec.
Qed.


(** The state file is opened once by a lookup that finds it. *)
Lemma toolbox_state_reads w sp st (ide : ide_arg) s :
  state_path w = Ok sp ->
  lookup_path w (fs s) sp = Some (File (Json st)) ->
  toolbox_state w ide s =
  outcome_of (Pure.toolbox_state w (fs s) ide)
             (State (fs s) (memo s) (reads s ++ [sp]) (stdout s)).
Proof.
  intros Hsp Hfile. unfold toolbox_state, Pure.toolbox_state.
  unfold state_path in Hsp. rewrite Hsp. simpl.
  rewrite bind_eq. simpl. rewrite bind_eq. unfold gets.
  rewrite (exists_of_lookup _ _ _ _ Hfile). simpl.
  unfold json_load, Pure.json_load, Pure.open_file. rewrite !bind_eq.
  unfold open_file. rewrite Hfile. simpl.
  destruct ide; [reflexivity|..];
    (rewrite bind_eq; destruct (py_get st "tools") as [tools|e]; simpl; [|reflexivity];
     rewrite bind_eq; destruct (py_iter tools) as [items|e]; simpl; [|reflexivity];
     destruct (find_tool _ items); reflexivity).
Qed.

(** A memoised identifier is served without touching anything. *)
Lemma channel_id_memoised w (self : Ide) (c : json) s :
  c <> JNull -> memo s self = c -> channel_id w self s = Returns c s.
Proof.
  intros Hc Hm. unfold channel_id. rewrite bind_eq. unfold gets at 1. cbv beta.
  rewrite Hm. destruct c; try congruence;
    (simpl; rewrite bind_eq; simpl; unfold gets; rewrite Hm; reflexivity).
Qed.

(** ** The file system *)

Lemma assoc_set_entry {A} (k k' : string) (v : A) (l : list (string * A)) :
  assoc k' (set_entry k v l) = if String.eqb k' k then Some v else assoc k' l.
Proof.
  induction l as [|[k0 v0] l IH]; simpl.
  - destruct (String.eqb k' k); reflexivity.
  - destruct (String.eqb_spec k k0) as [->|Hne]; simpl.
    + destruct (String.eqb k' k0); reflexivity.
    + rewrite IH. destruct (String.eqb_spec k' k0) as [->|Hne'].
      * destruct (String.eqb_spec k0 k) as [->|_]; [contradiction|reflexivity].
      * reflexivity.
Qed.

Lemma put_file_get (c : content) (segs : list string) :
  forall n n', put_file n segs c = Some n' -> get_node n' segs = Some (File c).
Proof.
  induction segs as [|s rest IH]; intros n n' H; simpl in H; [discriminate|].
  destruct n as [c0|entries]; [discriminate|].
  destruct rest as [|s' rest'].
  - assert (n' = Dir (set_entry s (File c) entries)) as ->
      by (destruct (assoc s entries) as [[?|?]|]; congruence).
    simpl. rewrite assoc_set_entry, String.eqb_refl. reflexivity.
  - destruct (assoc s entries) as [child|]; [|discriminate].
    destruct (put_file child (s' :: rest') c) as [child'|] eqn:E; [|discriminate].
    injection H as <-. cbn [get_node]. rewrite assoc_set_entry, String.eqb_refl.
    apply (IH child child' E).
Qed.

(** Writing a file neither creates nor removes a directory. *)
Lemma put_file_dirs (c : content) (segs : list string) :
  forall n n', put_file n segs c = Some n' ->
  forall acc, is_Dir (get_node n' acc) = is_Dir (get_node n acc).
Proof.
  induction segs as [|s rest IH]; intros n n' H acc; simpl in H; [discriminate|].
  destruct n as [c0|entries]; [discriminate|].
  destruct rest as [|s' rest'].
  - assert (n' = Dir (set_entry s (File c) entries) /\ is_Dir (assoc s entries) = false)
      as [-> Hfile]
      by (destruct (assoc s entries) as [[?|?]|]; split; first [reflexivity|congruence]).
    destruct acc as [|a acc']; [reflexivity|]. simpl. rewrite assoc_set_entry.
    destruct (String.eqb_spec a s) as [->|_]; [|reflexivity].
    destruct (assoc s entries) as [[c1|es]|]; [|discriminate|];
      destruct acc'; reflexivity.
  - destruct (assoc s entries) as [child|] eqn:Ea; [|discriminate].
    destruct (put_file child (s' :: rest') c) as [child'|] eqn:E; [|discriminate].
    injection H as <-. destruct acc as [|a acc']; [reflexivity|].
    cbn [get_node]. rewrite assoc_set_entry.
    destruct (String.eqb_spec a s) as [->|_]; [|reflexivity].
    rewrite Ea. apply (IH child child' E).
Qed.

Lemma canon_step (fs : node) (acc : list string) (s : string) (rest : list string) :
  canon fs acc (s :: rest) =
  if is_Dir (get_node fs acc)
  then if String.eqb s ".." then canon fs (removelast acc) rest
       else canon fs (acc ++ [s]) rest
  else None.
Proof. simpl. destruct (get_node fs acc) as [[?|?]|]; reflexivity. Qed.

Lemma canon_ext (n n' : node) :
  (forall acc, is_Dir (get_node n' acc) = is_Dir (get_node n acc)) ->
  forall segs acc, canon n' acc segs = canon n acc segs.
Proof.
  intros H segs. induction segs as [|s rest IH]; intros acc; [reflexivity|].
  rewrite !canon_step, H, !IH. reflexivity.
Qed.

Lemma get_node_app (segs more : list string) :
  forall n, get_node n (segs ++ more) =
            match get_node n segs with Some m => get_node m more | None => None end.
Proof.
  induction segs as [|s rest IH]; intros n; [reflexivity|]. simpl.
  destruct n as [c|entries]; [reflexivity|].
  destruct (assoc s entries); [apply IH|reflexivity].
Qed.

(** Whatever lies below a location, the location itself is a directory. *)
Lemma get_node_parent (n : node) (a : list string) (s : string) (m : node) :
  get_node n (a ++ [s]) = Some m -> is_Dir (get_node n a) = true.
Proof.
  rewrite get_node_app. destruct (get_node n a) as [[c|entries]|]; simpl;
    [discriminate|reflexivity|discriminate].
Qed.

Lemma is_Dir_removelast (n : node) (acc : list string) :
  is_Dir (get_node n acc) = true -> is_Dir (get_node n (removelast acc)) = true.
Proof.
  induction acc as [|s a _] using rev_ind; [intros H; exact H|].
  rewrite removelast_last. intros H.
  destruct (get_node n (a ++ [s])) as [m|] eqn:E; [|discriminate].
  apply (get_node_parent n a s m E).
Qed.

Lemma canon_anchored (n : node) (segs : list string) :
  forall acc r, anchored n acc -> canon n acc segs = Some r -> anchored n r.
Proof.
  induction segs as [|s rest IH]; intros acc r Hacc H.
  - injection H as <-. exact Hacc.
  - rewrite canon_step in H. destruct (is_Dir (get_node n acc)) eqn:Hd; [|discriminate].
    destruct (String.eqb s "..").
    + apply (IH (removelast acc) r); [|exact H]. left. apply is_Dir_removelast, Hd.
    + apply (IH (acc ++ [s])%list r); [|exact H]. right. exists acc, s. split; [reflexivity|exact Hd].
Qed.

Lemma put_file_ok (c : content) (a : list string) (s : string) :
  forall n, is_Dir (get_node n a) = true ->
            is_Dir (get_node n (a ++ [s])) = false ->
            exists n', put_file n (a ++ [s]) c = Some n'.
Proof.
  induction a as [|x a IH]; intros n Hdir Hfile.
  - destruct n as [c0|entries]; [discriminate|]. simpl in *.
    destruct (assoc s entries) as [[c1|es]|]; [eauto|discriminate|eauto].
  - destruct n as [c0|entries]; [discriminate|]. simpl in Hdir, Hfile.
    change ((x :: a) ++ [s])%list with (x :: (a ++ [s]))%list. cbn [put_file].
    destruct (a ++ [s])%list as [|y tail] eqn:E; [destruct a; discriminate|].
    destruct (assoc x entries) as [child|]; [|discriminate].
    destruct (IH child Hdir Hfile) as [child' Hput]. rewrite Hput. eauto.
Qed.

Lemma write_file_returns w p c s s' :
  write_file w p c s = Returns tt s' ->
  lookup_path w (fs s') p = Some (File c) /\
  memo s' = memo s /\ reads s' = reads s /\ stdout s' = stdout s.
Proof.
  unfold write_file. destruct (canon (fs s) [] (locate w p)) as [segs|] eqn:Ec; [|discriminate].
  destruct (put_file (fs s) segs c) as [fs'|] eqn:Ep; [|discriminate].
  intros [= <-]. simpl. split; [|auto].
  unfold lookup_path. rewrite (canon_ext (fs s) fs' (put_file_dirs c segs _ _ Ep)), Ec.
  apply (put_file_get c segs _ _ Ep).
Qed.

Lemma write_file_raises {w p c s e s'} :
  write_file w p c s = Raises e s' -> s' = s.
Proof.
  unfold write_file. destruct (canon (fs s) [] (locate w p)) as [segs|]; [|congruence].
  destruct (put_file (fs s) segs c); [discriminate|congruence].
Qed.

Lemma write_file_writable w p c s :
  writable w (fs s) p = true -> exists s', write_file w p c s = Returns tt s'.
Proof.
  unfold writable, write_file.
  destruct (canon (fs s) [] (locate w p)) as [segs|] eqn:Ec; [|discriminate].
  intros Hw.
  assert (Hroot : is_Dir (get_node (fs s) []) = true).
  { destruct (locate w p) as [|x l]; [injection Ec as <-; discriminate|].
    rewrite canon_step in Ec. destruct (is_Dir (get_node (fs s) [])); [reflexivity|discriminate]. }
  destruct (canon_anchored (fs s) (locate w p) [] segs (or_introl Hroot) Ec)
    as [Hdir|(a & x & -> & Hdir)].
  - destruct segs; [discriminate|]. rewrite Hdir in Hw. discriminate.
  - assert (Hfile : is_Dir (get_node (fs s) (a ++ [x])) = false).
    { destruct (a ++ [x])%list; [discriminate|].
      destruct (is_Dir (get_node (fs s) (s0 :: l))); [discriminate|reflexivity]. }
    destruct (put_file_ok c a x (fs s) Hdir Hfile) as [fs' ->]. eauto.
Qed.

(** ** Loops *)

Lemma foldM_runs_each {A B R} (f : A -> M R) (g : B -> R -> B) (l : list A) :
  forall b s b' s',
    foldM (fun b x => r ← f x; mret (g b r)) l b s = Returns b' s' ->
    exists rs, runs_each f l s rs s' /\ b' = fold_left g rs b.
Proof.
  induction l as [|x l IH]; intros b s b' s' H; simpl in H.
  - injection H as <- <-. exists []. split; [constructor|reflexivity].
  - apply bind_returns in H as (b1 & s1 & H1 & H).
    apply bind_returns in H1 as (r & s2 & Hr & H1). injection H1 as <- <-.
    destruct (IH _ _ _ _ H) as (rs & Hrs & ->).
    exists (r :: rs). split; [econstructor; eassumption|reflexivity].
Qed.

Lemma fold_left_app_concat {A} (rs : list (list A)) (b : list A) :
  fold_left (fun acc r => acc ++ r)%list rs b = (b ++ concat rs)%list.
Proof.
  revert b. induction rs as [|r rs IH]; intros b; simpl.
  - rewrite app_nil_r. reflexivity.
  - rewrite IH, app_assoc. reflexivity.
Qed.

Lemma record_projects_app d ps qs :
  record_projects d (ps ++ qs) = record_projects (record_projects d ps) qs.
Proof. unfold record_projects. apply fold_left_app. Qed.

Lemma fold_left_record_concat (rs : list (list Project.t)) d :
  fold_left record_projects rs d = record_projects d (concat rs).
Proof.
  revert d. induction rs as [|r rs IH]; intros d; simpl; [reflexivity|].
  rewrite IH, record_projects_app. reflexivity.
Qed.

Lemma foldR_results {A B R} (f : A -> result R) (g : B -> R -> B) (l : list A) :
  forall b b',
    Pure.foldR (fun b x => r ← f x; Ok (g b r)) l b = Ok b' ->
    exists rs, Forall2 (fun x r => f x = Ok r) l rs /\ b' = fold_left g rs b.
Proof.
  induction l as [|x l IH]; intros b b' H; simpl in H.
  - injection H as <-. exists []. split; [constructor|reflexivity].
  - destruct (f x) as [r|e] eqn:Er; simpl in H; [|discriminate].
    destruct (IH _ _ H) as (rs & Hrs & ->).
    exists (r :: rs). split; [constructor; assumption|reflexivity].
Qed.

(** ** The main function *)

Lemma main_eq w s :
  main w s =
  match collect w s with
  | Raises e s1 => Raises e s1
  | Returns projects s1 =>
      match cache_path w with
      | Err e => Raises e s1
      | Ok cp =>
          match write_file w cp (Json (JArr (map Project.to_json projects))) s1 with
          | Raises e s2 => Raises e s2
          | Returns _ s2 =>
              Returns tt (State (fs s2) (memo s2) (reads s2) (stdout s2 ++ [PrintSuccess cp]))
          end
      end
  end.
Proof.
  unfold main. rewrite bind_eq. destruct (collect w s) as [projects s1|e s1]; [|reflexivity].
  rewrite bind_eq. unfold cache_path.
  destruct (toolbox_data_path w (Some "cache/intellij_projects.json")) as [cp|e]; [|reflexivity].
  simpl. rewrite bind_eq.
  destruct (write_file w cp _ s1) as [[] s2|e s2]; reflexivity.
Qed.

(** ** The dictionary of one kind *)

Lemma set_entry_keys {A} (k x : string) (v : A) (l : list (string * A)) :
  x ∈ (set_entry k v l).*1 -> x = k \/ x ∈ l.*1.
Proof.
  induction l as [|[k0 v0] l IH]; simpl.
  - intros H. apply list_elem_of_singleton in H. left. exact H.
  - destruct (String.eqb_spec k k0) as [->|Hne]; simpl.
    + intros H. right. exact H.
    + rewrite !elem_of_cons. intros [->|H]; [right; left; reflexivity|].
      destruct (IH H) as [->|H']; [left; reflexivity|right; right; exact H'].
Qed.

Lemma set_entry_NoDup {A} (k : string) (v : A) (l : list (string * A)) :
  NoDup l.*1 -> NoDup (set_entry k v l).*1.
Proof.
  induction l as [|[k0 v0] l IH]; simpl; intros H.
  - apply NoDup_singleton.
  - apply NoDup_cons in H as [Hnotin Hnd].
    destruct (String.eqb_spec k k0) as [->|Hne]; simpl.
    + apply NoDup_cons. split; assumption.
    + apply NoDup_cons. split; [|apply IH, Hnd].
      intros Hin. destruct (set_entry_keys _ _ _ _ Hin) as [->|Hin']; [congruence|contradiction].
Qed.

Lemma set_entry_Forall {A} (P : string * A -> Prop) (k : string) (v : A) l :
  P (k, v) -> Forall P l -> Forall P (set_entry k v l).
Proof.
  intros Hkv. induction l as [|[k0 v0] l IH]; simpl; intros H.
  - constructor; [exact Hkv|constructor].
  - apply Forall_cons in H as [H0 H].
    destruct (String.eqb k k0); constructor; auto.
Qed.

Lemma assoc_elem {A} (k : string) (v : A) (l : list (string * A)) :
  assoc k l = Some v -> (k, v) ∈ l.
Proof.
  induction l as [|[k0 v0] l IH]; simpl; [discriminate|].
  destruct (String.eqb_spec k k0) as [->|Hne].
  - intros [= ->]. left.
  - intros H. right. apply IH, H.
Qed.

Lemma elem_assoc {A} (k : string) (v : A) (l : list (string * A)) :
  NoDup l.*1 -> (k, v) ∈ l -> assoc k l = Some v.
Proof.
  induction l as [|[k0 v0] l IH]; simpl; intros Hnd Hin.
  - apply elem_of_nil in Hin. contradiction.
  - apply NoDup_cons in Hnd as [Hnotin Hnd]. apply elem_of_cons in Hin as [[= -> ->]|Hin].
    + rewrite String.eqb_refl. reflexivity.
    + destruct (String.eqb_spec k k0) as [->|Hne]; [|apply IH; assumption].
      exfalso. apply Hnotin. apply (list_elem_of_fmap_2 fst _ (k0, v)). exact Hin.
Qed.

Lemma record_projects_NoDup ps : forall d, NoDup d.*1 -> NoDup (record_projects d ps).*1.
Proof.
  induction ps as [|p ps IH]; intros d H; [exact H|].
  apply IH, set_entry_NoDup, H.
Qed.

Lemma record_projects_keyed ps : forall d, keyed d -> keyed (record_projects d ps).
Proof.
  induction ps as [|p ps IH]; intros d H; [exact H|].
  apply IH, set_entry_Forall; [reflexivity|exact H].
Qed.

Lemma last_report_cons k p ps :
  last_report k (p :: ps) =
  match last_report k ps with
  | Some q => Some q
  | None => if String.eqb (Project.path p) k then Some p else None
  end.
Proof.
  unfold last_report. simpl. induction (rev ps) as [|q l IH]; simpl; [reflexivity|].
  destruct (String.eqb (Project.path q) k); [reflexivity|exact IH].
Qed.

(** Looking a path up after a series of assignments yields the last project
    assigned to it. *)
Lemma assoc_record_projects k ps :
  forall d, assoc k (record_projects d ps) =
            match last_report k ps with Some q => Some q | None => assoc k d end.
Proof.
  induction ps as [|p ps IH]; intros d; [reflexivity|].
  change (record_projects d (p :: ps))
    with (record_projects (set_entry (Project.path p) p d) ps).
  rewrite IH, last_report_cons, assoc_set_entry.
  destruct (last_report k ps); [reflexivity|].
  rewrite String.eqb_sym. destruct (String.eqb (Project.path p) k); reflexivity.
Qed.

Lemma last_report_path k ps q : last_report k ps = Some q -> Project.path q = k /\ q ∈ ps.
Proof.
  unfold last_report. intros H. apply find_some in H as [Hin Heq].
  apply String.eqb_eq in Heq. split; [exact Heq|].
  apply list_elem_of_In. apply in_rev. exact Hin.
Qed.

Lemma last_report_some k ps q :
  q ∈ ps -> Project.path q = k -> exists p, last_report k ps = Some p.
Proof.
  intros Hin Hk. unfold last_report.
  destruct (find (fun q0 => String.eqb (Project.path q0) k) (rev ps)) as [p|] eqn:E; [eauto|].
  exfalso. apply list_elem_of_In, in_rev in Hin.
  pose proof (find_none _ _ E q Hin) as Hn. simpl in Hn.
  apply String.eqb_neq in Hn. contradiction.
Qed.

(** The values of the dictionary built from scratch: one project per path,
    each the last reported for its path, and every reported path present. *)
Lemma record_projects_spec (reported : list Project.t) :
  let ps := (record_projects [] reported).*2 in
  NoDup (Project.path <$> ps) /\
  (forall p, p ∈ ps -> last_report (Project.path p) reported = Some p) /\
  (forall q, q ∈ reported -> exists p, p ∈ ps /\ Project.path p = Project.path q).
Proof.
  set (d := record_projects [] reported). cbv zeta.
  assert (Hnd : NoDup d.*1) by (apply record_projects_NoDup; constructor).
  assert (Hkey : keyed d) by (apply record_projects_keyed; constructor).
  assert (Hpaths : Project.path <$> d.*2 = d.*1).
  { clear -Hkey. induction Hkey as [|[k v] l Hk _ IH]; [reflexivity|].
    simpl in Hk. rewrite !fmap_cons, IH, Hk. reflexivity. }
  split; [rewrite Hpaths; exact Hnd|]. split.
  - intros p Hp. apply list_elem_of_fmap in Hp as ([k v] & -> & Hin). simpl.
    pose proof (proj1 (Forall_forall _ _) Hkey _ Hin) as Hk. simpl in Hk. subst k.
    pose proof (elem_assoc _ _ _ Hnd Hin) as Ha. unfold d in Ha.
    rewrite assoc_record_projects in Ha.
    destruct (last_report (Project.path v) reported); [exact Ha|discriminate].
  - intros q Hq. destruct (last_report_some _ _ _ Hq eq_refl) as [p Hp].
    exists p. split; [|apply (last_report_path _ _ _ Hp)].
    apply (list_elem_of_fmap_2 snd _ (Project.path q, p)). apply assoc_elem. unfold d.
    rewrite assoc_record_projects, Hp. reflexivity.
Qed.

(** ** What the stateful scan returns *)

Lemma map_fmap {A B} (f : A -> B) (l : list A) : map f l = f <$> l.
Proof. induction l as [|x l IH]; [reflexivity|]. simpl. rewrite IH. reflexivity. Qed.

Lemma foldM_returns_inv {A B} (P : B -> Prop) (body : B -> A -> M B) (l : list A) :
  (forall b x s b' s', P b -> body b x s = Returns b' s' -> P b') ->
  forall b s b' s', P b -> foldM body l b s = Returns b' s' -> P b'.
Proof.
  intros Hbody. induction l as [|x l IH]; intros b s b' s' Hb H; simpl in H.
  - injection H as <- <-. exact Hb.
  - apply bind_returns in H as (b1 & s1 & H1 & H).
    apply (IH b1 s1 b' s'); [|exact H]. apply (Hbody b x s b1 s1 Hb H1).
Qed.

Lemma ide_data_paths_state w ide s folders s1 :
  ide_data_paths w ide s = Returns folders s1 -> s1 = s.
Proof.
  unfold ide_data_paths. intros H.
  apply bind_returns in H as (appdata & s2 & H1 & H).
  assert (s2 = s) as ->.
  { destruct (getenv w "APPDATA" None); simpl in H1; [|discriminate].
    injection H1 as _ <-. reflexivity. }
  cbv zeta in H. apply bind_returns in H as (present & s3 & H2 & H).
  injection H2 as <- <-. destruct (negb _); injection H as _ <-; reflexivity.
Qed.

Lemma scan_entry_returns w ide acc entry s acc' s' :
  scan_entry w ide acc entry s = Returns acc' s' ->
  acc' = acc \/
  exists name key c,
    element_get entry "key" = Some key /\
    acc' = (acc ++ [Project.Make name (path_str (entry_path w key)) c
                      [NewOpenItem.init (IdeInfo.tool_id (value ide)) c]])%list.
Proof.
  unfold scan_entry. intros H.
  apply bind_returns in H as (key & s1 & H1 & H).
  destruct (element_get entry "key") as [k|]; [|discriminate].
  injection H1 as <- <-. cbv zeta in H.
  apply bind_returns in H as (found & s2 & H2 & H). injection H2 as <- <-.
  destruct (negb _); [injection H as <- _; left; reflexivity|].
  apply bind_returns in H as (named & s3 & H3 & H). injection H3 as <- <-.
  apply bind_returns in H as (name & s4 & _ & H).
  apply bind_returns in H as (c & s5 & _ & H).
  simpl in H. injection H as <- _. right. eauto.
Qed.

Lemma get_recent_projects_built w ide folder s ps s' :
  get_recent_projects w ide folder s = Returns ps s' -> Forall (built_for ide) ps.
Proof.
  unfold get_recent_projects. cbv zeta. intros H.
  apply bind_returns in H as (present & s1 & H1 & H). injection H1 as <- <-.
  destruct (negb _); [injection H as <- _; constructor|].
  apply bind_returns in H as (tree & s2 & _ & H).
  apply bind_returns in H as (found & s3 & Hfold & H).
  apply bind_returns in H as (u & s4 & _ & H). injection H as <- _.
  eapply (foldM_returns_inv (Forall (built_for ide))); [|constructor|exact Hfold].
  intros b x s0 b' s0' Hb Hx.
  destruct (scan_entry_returns _ _ _ _ _ _ _ Hx) as [->|(name & key & c & _ & ->)]; [exact Hb|].
  apply Forall_app. split; [exact Hb|]. constructor; [|constructor].
  exists c. split; reflexivity.
Qed.

Lemma collect_runs w s out s' :
  collect w s = Returns out s' ->
  exists per_kind, runs_each (scan_ide w) all_ides s per_kind s' /\ out = concat per_kind.
Proof.
  unfold collect. intros H.
  apply (foldM_runs_each (scan_ide w) (fun projects found => projects ++ found)%list) in H
    as (rs & Hrs & ->).
  exists rs. split; [exact Hrs|]. apply (fold_left_app_concat rs []).
Qed.

Lemma scan_ide_runs w ide s ps s' :
  scan_ide w ide s = Returns ps s' ->
  exists folders reports,
    ide_data_paths w ide s = Returns folders s /\
    runs_each (get_recent_projects w ide) folders s reports s' /\
    ps = (record_projects [] (concat reports)).*2.
Proof.
  unfold scan_ide. intros H.
  apply bind_returns in H as (folders & s1 & Hf & H).
  pose proof (ide_data_paths_state _ _ _ _ _ Hf) as ->.
  apply bind_returns in H as (d & s2 & Hfold & H). injection H as <- <-.
  apply (foldM_runs_each (get_recent_projects w ide) record_projects) in Hfold
    as (reports & Hruns & ->).
  exists folders, reports. split; [exact Hf|]. split; [exact Hruns|].
  rewrite map_fmap, fold_left_record_concat. reflexivity.
Qed.

Lemma runs_each_Forall {A B} (f : A -> M B) (P : B -> Prop) l :
  (forall x s b s', f x s = Returns b s' -> P b) ->
  forall s bs s', runs_each f l s bs s' -> Forall P bs.
Proof.
  intros Hf s bs s' H. induction H; constructor; eauto.
Qed.

(** ** The scan and what it finds *)

Section Discovery.
Context (w : world) (fs0 : node) (ide : Ide).

Lemma pure_scan_entry acc entry d :
  discover_entry w fs0 entry = Ok d ->
  Pure.scan_entry w fs0 ide acc entry =
  match d with
  | None => Ok acc
  | Some np => c ← Pure.channel_id w fs0 ide; Ok (acc ++ [project_of ide c np])%list
  end.
Proof.
  unfold discover_entry, Pure.scan_entry.
  destruct (element_get entry "key") as [key|]; simpl; [|discriminate].
  destruct (is_dir w fs0 (entry_path w key)); simpl; [|intros [= <-]; reflexivity].
  destruct (if is_file w fs0 _ then _ else _) as [name|e]; simpl; [|discriminate].
  intros [= <-]. destruct (Pure.channel_id w fs0 ide); reflexivity.
Qed.

Lemma pure_scan_entry_sound acc entry b :
  Pure.scan_entry w fs0 ide acc entry = Ok b -> exists d, discover_entry w fs0 entry = Ok d.
Proof.
  unfold discover_entry, Pure.scan_entry.
  destruct (element_get entry "key") as [key|]; simpl; [|discriminate].
  destruct (is_dir w fs0 (entry_path w key)); simpl; [|eauto].
  destruct (if is_file w fs0 _ then _ else _) as [name|e]; simpl; [eauto|discriminate].
Qed.

Lemma pure_scan_entries entries :
  forall acc found,
    discover_entries w fs0 entries = Ok found ->
    Pure.foldR (Pure.scan_entry w fs0 ide) entries acc =
    match found with
    | [] => Ok acc
    | _ => c ← Pure.channel_id w fs0 ide; Ok (acc ++ map (project_of ide c) found)%list
    end.
Proof.
  induction entries as [|entry rest IH]; intros acc found H; simpl in H.
  - injection H as <-. reflexivity.
  - destruct (discover_entry w fs0 entry) as [d|e] eqn:Ed; simpl in H; [|discriminate].
    destruct (discover_entries w fs0 rest) as [ds|e] eqn:Eds; simpl in H; [|discriminate].
    injection H as <-. cbn [Pure.foldR]. rewrite (pure_scan_entry acc entry d Ed).
    destruct d as [np|]; simpl.
    + destruct (Pure.channel_id w fs0 ide) as [c|e] eqn:Ec; simpl; [|reflexivity].
      rewrite (IH _ ds eq_refl). simpl.
      destruct ds; [reflexivity|]. rewrite <- app_assoc. reflexivity.
    + apply IH. reflexivity.
Qed.

Lemma pure_scan_entries_sound entries :
  forall acc ps,
    Pure.foldR (Pure.scan_entry w fs0 ide) entries acc = Ok ps ->
    exists found, discover_entries w fs0 entries = Ok found.
Proof.
  induction entries as [|entry rest IH]; intros acc ps H; simpl in H; [simpl; eauto|].
  destruct (Pure.scan_entry w fs0 ide acc entry) as [b|e] eqn:Eb; simpl in H; [|discriminate].
  destruct (pure_scan_entry_sound _ _ _ Eb) as [d Hd].
  destruct (IH _ _ H) as [ds Hds]. simpl. rewrite Hd, Hds. simpl. eauto.
Qed.

Lemma pure_get_recent_projects folder found :
  discover_folder w fs0 folder = Ok found ->
  Pure.get_recent_projects w fs0 ide folder =
  match found with
  | [] => Ok []
  | _ => c ← Pure.channel_id w fs0 ide; Ok (map (project_of ide c) found)
  end.
Proof.
  unfold discover_folder, Pure.get_recent_projects. cbv zeta.
  destruct (is_file w fs0 _); simpl; [|intros [= <-]; reflexivity].
  destruct (Pure.xml_parse w fs0 _) as [tree|e]; simpl; [|discriminate].
  intros H. rewrite (pure_scan_entries _ [] found H). reflexivity.
Qed.

Lemma pure_get_recent_projects_sound folder ps :
  Pure.get_recent_projects w fs0 ide folder = Ok ps ->
  exists found, discover_folder w fs0 folder = Ok found.
Proof.
  unfold discover_folder, Pure.get_recent_projects. cbv zeta.
  destruct (is_file w fs0 _); simpl; [|eauto].
  destruct (Pure.xml_parse w fs0 _) as [tree|e]; simpl; [|discriminate].
  apply pure_scan_entries_sound.
Qed.

Lemma pure_scan_folders folders :
  forall d found,
    discover_folders w fs0 folders = Ok found ->
    Pure.foldR (fun d folder =>
                  reported ← Pure.get_recent_projects w fs0 ide folder;
                  Ok (record_projects d reported)) folders d =
    match found with
    | [] => Ok d
    | _ => c ← Pure.channel_id w fs0 ide;
           Ok (record_projects d (map (project_of ide c) found))
    end.
Proof.
  induction folders as [|folder rest IH]; intros d found H; simpl in H.
  - injection H as <-. reflexivity.
  - destruct (discover_folder w fs0 folder) as [f|e] eqn:Ef; simpl in H; [|discriminate].
    destruct (discover_folders w fs0 rest) as [fs|e] eqn:Efs; simpl in H; [|discriminate].
    injection H as <-. cbn [Pure.foldR]. rewrite (pure_get_recent_projects folder f Ef).
    destruct f as [|np f]; simpl.
    + apply IH. reflexivity.
    + destruct (Pure.channel_id w fs0 ide) as [c|e] eqn:Ec; simpl; [|reflexivity].
      rewrite (IH _ fs eq_refl). simpl.
      destruct fs as [|np' fs].
      * rewrite app_nil_r. reflexivity.
      * rewrite map_app. change (project_of ide c np :: (map (project_of ide c) f
                                   ++ map (project_of ide c) (np' :: fs)))%list
          with ((project_of ide c np :: map (project_of ide c) f)
                  ++ map (project_of ide c) (np' :: fs))%list.
        rewrite record_projects_app. reflexivity.
Qed.

Lemma pure_scan_folders_sound folders :
  forall d d',
    Pure.foldR (fun d folder =>
                  reported ← Pure.get_recent_projects w fs0 ide folder;
                  Ok (record_projects d reported)) folders d = Ok d' ->
    exists found, discover_folders w fs0 folders = Ok found.
Proof.
  induction folders as [|folder rest IH]; intros d d' H; simpl in H; [simpl; eauto|].
  destruct (Pure.get_recent_projects w fs0 ide folder) as [ps|e] eqn:Eps; simpl in H;
    [|discriminate].
  destruct (pure_get_recent_projects_sound _ _ Eps) as [f Hf].
  destruct (IH _ _ H) as [fs Hfs]. simpl. rewrite Hf, Hfs. simpl. eauto.
Qed.

Lemma pure_scan_ide found :
  discover_ide w fs0 ide = Ok found ->
  Pure.scan_ide w fs0 ide =
  match found with
  | [] => Ok []
  | _ => c ← Pure.channel_id w fs0 ide;
         Ok (record_projects [] (map (project_of ide c) found)).*2
  end.
Proof.
  unfold discover_ide, Pure.scan_ide.
  destruct (Pure.ide_data_paths w fs0 ide) as [folders|e]; simpl; [|discriminate].
  intros H. rewrite (pure_scan_folders folders [] found H).
  destruct found; simpl; [reflexivity|].
  destruct (Pure.channel_id w fs0 ide); simpl; [|reflexivity].
  rewrite map_fmap. reflexivity.
Qed.

Lemma pure_scan_ide_sound ps :
  Pure.scan_ide w fs0 ide = Ok ps -> exists found, discover_ide w fs0 ide = Ok found.
Proof.
  unfold discover_ide, Pure.scan_ide.
  destruct (Pure.ide_data_paths w fs0 ide) as [folders|e]; simpl; [|discriminate].
  destruct (Pure.foldR _ folders []) as [d|e] eqn:Ed; simpl; [|discriminate].
  intros _. apply (pure_scan_folders_sound folders [] d Ed).
Qed.

End Discovery.

Lemma refines_returns {A} w fs0 (m : M A) (r : result A) s a s' :
  refines w fs0 m r -> inv w fs0 s -> m s = Returns a s' -> r = Ok a /\ inv w fs0 s'.
Proof.
  intros Href Hs H. destruct (Href s Hs) as (s1 & Hs1 & E). rewrite E in H.
  destruct r; simpl in H; [|discriminate]. injection H as <- <-. split; [reflexivity|exact Hs1].
Qed.

Lemma refines_raises {A} w fs0 (m : M A) (r : result A) s e s' :
  refines w fs0 m r -> inv w fs0 s -> m s = Raises e s' -> r = Err e /\ inv w fs0 s'.
Proof.
  intros Href Hs H. destruct (Href s Hs) as (s1 & Hs1 & E). rewrite E in H.
  destruct r; simpl in H; [discriminate|]. injection H as <- <-. split; [reflexivity|exact Hs1].
Qed.

Lemma inv_here w s : memo_ok w (fs s) s -> inv w (fs s) s.
Proof. intros H. split; [reflexivity|exact H]. Qed.

Section Records.
Context (w : world) (fs0 : node).

(** The paths found are those of the entries that are directories. *)
Lemma discover_entries_paths entries :
  forall keys found,
    map (fun e => element_get e "key") entries = map Some keys ->
    discover_entries w fs0 entries = Ok found ->
    map snd found =
    map (fun k => path_str (entry_path w k))
        (List.filter (fun k => is_dir w fs0 (entry_path w k)) keys).
Proof.
  induction entries as [|entry rest IH]; intros keys found Hkeys H.
  - destruct keys; [|discriminate]. injection H as <-. reflexivity.
  - destruct keys as [|key keys]; [discriminate|]. simpl in Hkeys.
    injection Hkeys as Hkey Hkeys. simpl in H. unfold discover_entry in H.
    rewrite Hkey in H. simpl in H.
    destruct (discover_entries w fs0 rest) as [ds|e] eqn:Eds.
    + specialize (IH keys ds Hkeys eq_refl). simpl.
      destruct (is_dir w fs0 (entry_path w key)); simpl in H.
      * destruct (if is_file w fs0 _ then _ else _) as [name|e]; simpl in H; [|discriminate].
        injection H as <-. simpl. rewrite IH. reflexivity.
      * injection H as <-. exact IH.
    + destruct (is_dir w fs0 (entry_path w key)); simpl in H; [|discriminate].
      destruct (if is_file w fs0 _ then _ else _); discriminate.
Qed.

Lemma discover_entries_names entries :
  forall found,
    discover_entries w fs0 entries = Ok found ->
    Forall (fun np => exists entry key,
                entry ∈ entries /\ element_get entry "key" = Some key /\ named_by w fs0 key np)
           found.
Proof.
  induction entries as [|entry rest IH]; intros found H; simpl in H.
  - injection H as <-. constructor.
  - destruct (discover_entry w fs0 entry) as [d|e] eqn:Ed; simpl in H; [|discriminate].
    destruct (discover_entries w fs0 rest) as [ds|e] eqn:Eds; simpl in H; [|discriminate].
    injection H as <-.
    assert (Hrest : Forall (fun np => exists entry0 key,
                entry0 ∈ entry :: rest /\ element_get entry0 "key" = Some key /\
                named_by w fs0 key np) ds).
    { eapply Forall_impl; [apply IH; reflexivity|].
      intros np (e0 & key & Hin & Hk & Hn). exists e0, key.
      split; [right; exact Hin|]. split; assumption. }
    destruct d as [np|]; [|exact Hrest]. constructor; [|exact Hrest].
    unfold discover_entry in Ed.
    destruct (element_get entry "key") as [key|] eqn:Ekey; simpl in Ed; [|discriminate].
    exists entry, key. split; [left|]. split; [exact Ekey|].
    destruct (is_dir w fs0 (entry_path w key)) eqn:Edir; simpl in Ed; [|discriminate].
    unfold named_by. cbv zeta.
    destruct (is_file w fs0 (path_under (entry_path w key) [".idea"; ".name"])) eqn:Efile.
    + unfold Pure.read_text, Pure.open_file in Ed.
      destruct (lookup_path w fs0 _) as [[[t|j|x]|es]|]; simpl in Ed; try discriminate.
      injection Ed as <-. simpl. auto.
    + simpl in Ed. injection Ed as <-. simpl. auto.
Qed.

Lemma is_file_of_lookup p c : lookup_path w fs0 p = Some (File c) -> is_file w fs0 p = true.
Proof. unfold is_file. intros ->. reflexivity. Qed.

Lemma discover_folder_record folder tree :
  lookup_path w fs0 (path_under folder ["options"; "recentProjects.xml"])
    = Some (File (Xml tree)) ->
  discover_folder w fs0 folder = discover_entries w fs0 (findall_entries tree).
Proof.
  intros H. unfold discover_folder. cbv zeta. rewrite (is_file_of_lookup _ _ H). simpl.
  unfold Pure.xml_parse, Pure.open_file. rewrite H. reflexivity.
Qed.

Lemma discover_folder_entries folder found :
  discover_folder w fs0 folder = Ok found ->
  found = [] \/
  exists tree,
    lookup_path w fs0 (path_under folder ["options"; "recentProjects.xml"])
      = Some (File (Xml tree)) /\
    discover_entries w fs0 (findall_entries tree) = Ok found.
Proof.
  unfold discover_folder. cbv zeta. destruct (is_file w fs0 _); simpl.
  - unfold Pure.xml_parse, Pure.open_file.
    destruct (lookup_path w fs0 _) as [[[t|j|x]|es]|]; simpl; try discriminate.
    intros H. right. eauto.
  - intros [= <-]. left. reflexivity.
Qed.

Lemma map_path_project_of ide c found :
  map Project.path (map (project_of ide c) found) = map snd found.
Proof. rewrite map_map. reflexivity. Qed.

(** What a successful scan of a folder returns, in terms of what it found. *)
Lemma get_recent_projects_found ide folder s ps s' :
  inv w fs0 s ->
  get_recent_projects w ide folder s = Returns ps s' ->
  exists found,
    discover_folder w fs0 folder = Ok found /\
    (found = [] /\ ps = [] \/
     exists c, Pure.channel_id w fs0 ide = Ok c /\ ps = map (project_of ide c) found).
Proof.
  intros Hs H.
  destruct (refines_returns _ _ _ _ _ _ _ (refines_get_recent_projects w fs0 ide folder) Hs H)
    as [Hpure _].
  destruct (pure_get_recent_projects_sound _ _ _ _ _ Hpure) as [found Hfound].
  exists found. split; [exact Hfound|].
  rewrite (pure_get_recent_projects w fs0 ide folder found Hfound) in Hpure.
  destruct found as [|np found].
  { simpl in Hpure. injection Hpure as <-. left. split; reflexivity. }
  right. destruct (Pure.channel_id w fs0 ide) as [c|e]; simpl in Hpure; [|discriminate].
  injection Hpure as <-. exists c. split; reflexivity.
Qed.

Lemma get_recent_projects_total ide folder s c found :
  inv w fs0 s ->
  Pure.channel_id w fs0 ide = Ok c ->
  discover_folder w fs0 folder = Ok found ->
  exists s', get_recent_projects w ide folder s = Returns (map (project_of ide c) found) s'.
Proof.
  intros Hs Hc Hfound.
  destruct (refines_get_recent_projects w fs0 ide folder s Hs) as (s' & _ & E).
  rewrite (pure_get_recent_projects w fs0 ide folder found Hfound), Hc in E.
  exists s'. rewrite E. destruct found; reflexivity.
Qed.

End Records.

(** ** The projects of a kind and of a run *)

Lemma scan_ide_last_wins w ide s ps s' :
  scan_ide w ide s = Returns ps s' ->
  exists folders reports,
    ide_data_paths w ide s = Returns folders s /\
    runs_each (get_recent_projects w ide) folders s reports s' /\
    NoDup (Project.path <$> ps) /\
    (forall p, p ∈ ps ->
       last_report (Project.path p) (concat reports) = Some p /\ built_for ide p) /\
    (forall q, q ∈ concat reports -> exists p, p ∈ ps /\ Project.path p = Project.path q).
Proof.
  intros H.
  destruct (scan_ide_runs _ _ _ _ _ H) as (folders & reports & Hf & Hruns & ->).
  exists folders, reports. split; [exact Hf|]. split; [exact Hruns|].
  destruct (record_projects_spec (concat reports)) as (Hnd & Hlast & Hall).
  split; [exact Hnd|]. split; [|exact Hall].
  intros p Hp. split; [apply Hlast, Hp|].
  destruct (last_report_path _ _ _ (Hlast p Hp)) as [_ Hin].
  apply list_elem_of_In, in_concat in Hin as (report & Hrep & Hin).
  pose proof (runs_each_Forall (get_recent_projects w ide) (Forall (built_for ide)) folders
                (fun x s0 b s0' => get_recent_projects_built w ide x s0 b s0')
                _ _ _ Hruns) as Hbuilt.
  rewrite Forall_forall in Hbuilt. specialize (Hbuilt report (proj2 (list_elem_of_In _ _) Hrep)).
  rewrite Forall_forall in Hbuilt. apply Hbuilt, list_elem_of_In, Hin.
Qed.

Lemma collect_built w s out s' :
  collect w s = Returns out s' -> Forall (fun p => exists ide, built_for ide p) out.
Proof.
  intros H. destruct (collect_runs _ _ _ _ H) as (per_kind & Hruns & ->).
  clear H. induction Hruns as [|ide ides s0 ps s1 rest s2 Hscan _ IH]; [constructor|].
  simpl. apply Forall_app. split; [|exact IH].
  destruct (scan_ide_last_wins _ _ _ _ _ Hscan) as (folders & reports & _ & _ & _ & Hlast & _).
  apply Forall_forall. intros p Hp. exists ide. apply (Hlast p Hp).
Qed.

(** The record written for a project of a kind. *)
Lemma to_json_built ide p :
  built_for ide p ->
  exists first rest,
    py_get (Project.to_json p) "newOpenItems" = Ok (JArr (first :: rest)) /\
    py_get (Project.to_json p) "defaultNewOpenItem" = py_get first "channelId".
Proof.
  intros (c & Hitems & Hdefault). destruct p as [name path dflt items]. simpl in *. subst.
  eexists _, []. split; reflexivity.
Qed.

(** A run that completes has written what the scan collected. *)
Lemma main_returns w s s' :
  main w s = Returns tt s' ->
  exists out s1,
    collect w s = Returns out s1 /\
    file_at w (fs s') (cache_path w) = Some (Json (JArr (map Project.to_json out))).
Proof.
  rewrite main_eq. destruct (collect w s) as [out s1|e s1]; [|discriminate].
  destruct (cache_path w) as [cp|e] eqn:Ecp; [|discriminate].
  destruct (write_file w cp _ s1) as [[] s2|e s2] eqn:Ew; [|discriminate].
  intros [= <-]. exists out, s1. split; [reflexivity|]. simpl.
  destruct (write_file_returns _ _ _ _ _ Ew) as [-> _]. reflexivity.
Qed.

(** A run that aborts has not touched the file system. *)
Lemma main_raises w fs0 e s' :
  main w (initial fs0) = Raises e s' -> fs s' = fs0.
Proof.
  rewrite main_eq.
  destruct (refines_collect w fs0 (initial fs0) (inv_initial w fs0)) as (s1 & [Hfs _] & E).
  rewrite E. destruct (Pure.collect w fs0) as [out|e1]; simpl.
  - destruct (cache_path w) as [cp|e2]; [|intros [= _ <-]; exact Hfs].
    destruct (write_file w cp _ s1) as [[] s2|e2 s2] eqn:Ew; [discriminate|].
    intros [= _ <-]. rewrite (write_file_raises Ew). exact Hfs.
  - intros [= _ <-]. exact Hfs.
Qed.

Lemma tool_ids_differ (a b : Ide) :
  a <> b -> IdeInfo.tool_id (value a) <> IdeInfo.tool_id (value b).
Proof. destruct a, b; simpl; intros H; congruence. Qed.

Lemma pure_collect_kinds w fs0 out :
  Pure.collect w fs0 = Ok out ->
  forall ide, exists ps, Pure.scan_ide w fs0 ide = Ok ps /\ forall p, p ∈ ps -> p ∈ out.
Proof.
  unfold Pure.collect. intros H.
  apply (foldR_results (Pure.scan_ide w fs0) (fun projects found => projects ++ found)%list)
    in H as (rs & Hrs & ->).
  rewrite (fold_left_app_concat rs []). simpl.
  unfold all_ides in Hrs.
  apply Forall2_cons_inv_l in Hrs as (r1 & rs1 & H1 & Hrs & ->).
  apply Forall2_cons_inv_l in Hrs as (r2 & rs2 & H2 & Hrs & ->).
  apply Forall2_cons_inv_l in Hrs as (r3 & rs3 & H3 & Hrs & ->).
  apply Forall2_cons_inv_l in Hrs as (r4 & rs4 & H4 & Hrs & ->).
  apply Forall2_nil_inv_l in Hrs as ->. simpl. rewrite app_nil_r.
  intros [| | |]; [exists r1|exists r2|exists r3|exists r4];
    (split; [assumption|]); intros p Hp; rewrite !elem_of_app; auto.
Qed.

Lemma pure_scan_ide_reported w fs0 ide ps p :
  Pure.scan_ide w fs0 ide = Ok ps ->
  p ∈ reported_paths w fs0 ide ->
  exists name c,
    Pure.channel_id w fs0 ide = Ok c /\
    Project.Make name p c [NewOpenItem.init (IdeInfo.tool_id (value ide)) c] ∈ ps.
Proof.
  intros Hps Hp. unfold reported_paths in Hp.
  destruct (discover_ide w fs0 ide) as [found|e] eqn:Efound;
    [|apply elem_of_nil in Hp; contradiction].
  rewrite (pure_scan_ide w fs0 ide found Efound) in Hps.
  apply list_elem_of_In, in_map_iff in Hp as ([name p'] & Hsnd & Hin). simpl in Hsnd. subst p'.
  destruct found as [|np0 found0] eqn:Ef; [destruct Hin|]. rewrite <- Ef in *.
  assert (Hps' : (c ← Pure.channel_id w fs0 ide;
                  Ok (record_projects [] (map (project_of ide c) found)).*2) = Ok ps)
    by (rewrite Ef in *; exact Hps).
  destruct (Pure.channel_id w fs0 ide) as [c|e]; simpl in Hps'; [|discriminate].
  injection Hps' as <-.
  destruct (record_projects_spec (map (project_of ide c) found)) as (_ & Hlast & Hall).
  assert (Hq : project_of ide c (name, p) ∈ map (project_of ide c) found).
  { apply list_elem_of_In, in_map, Hin. }
  destruct (Hall _ Hq) as (pa & Hpa & Hpath). simpl in Hpath.
  destruct (last_report_path _ _ _ (Hlast pa Hpa)) as [_ Hrep].
  apply list_elem_of_In, in_map_iff in Hrep as ([name' p'] & <- & _).
  simpl in Hpath. subst p'. exists name', c. split; [reflexivity|exact Hpa].
Qed.

(** ** Names of joined paths *)

Lemma string_app_assoc (a b c : string) : ((a ++ b) ++ c = a ++ (b ++ c))%string.
Proof.
  induction a as [|x a IH]; [reflexivity|].
  change (String x ((a ++ b) ++ c) = String x (a ++ (b ++ c))). rewrite IH. reflexivity.
Qed.

Lemma split_nonempty (c : ascii) (s : string) : Str.split c s <> [].
Proof.
  destruct s as [|a s]; simpl; [discriminate|].
  destruct (Ascii.eqb a c); [discriminate|]. destruct (Str.split c s); discriminate.
Qed.

Lemma split_snoc (name q : string) :
  Str.split "/" name = [name] ->
  Str.split "/" (q ++ String "/" name) = (Str.split "/" q ++ [name])%list.
Proof.
  intros Hname. induction q as [|a q IH].
  - change (Str.split "/" (String "/" name) = [""; name]).
    cbn [Str.split]. rewrite Ascii.eqb_refl, Hname. reflexivity.
  - change (String a q ++ String "/" name) with (String a (q ++ String "/" name)).
    cbn [Str.split]. rewrite IH. destruct (Ascii.eqb a "/"); [reflexivity|].
    pose proof (split_nonempty "/" q) as Hne.
    destruct (Str.split "/" q); [contradiction|reflexivity].
Qed.

Lemma endswith_sep_inv (q : string) :
  Str.endswith_sep q = true -> exists q0, q = q0 ++ "/".
Proof.
  induction q as [|c q IH]; [discriminate|]. destruct q as [|c' q'].
  - simpl. intros H. apply Ascii.eqb_eq in H as ->. exists "". reflexivity.
  - intros H. destruct (IH H) as [q0 ->]. exists (String c q0). reflexivity.
Qed.

Lemma ends_named_behead (name t : string) :
  starts_sep t = true -> ends_named name t -> ends_named name (behead t).
Proof.
  destruct t as [|c t]; [discriminate|]. simpl. intros Hc [front Hsplit].
  cbn [Str.split] in Hsplit. rewrite Hc in Hsplit. destruct front as [|f front].
  - injection Hsplit as _ Hnil. exfalso. apply (split_nonempty _ _ Hnil).
  - injection Hsplit as _ Hrest. exists front. exact Hrest.
Qed.

Lemma ends_named_splitroot (name t : string) :
  ends_named name t -> ends_named name (snd (splitroot t)).
Proof.
  intros H. unfold splitroot. destruct (starts_sep t) eqn:E1; simpl; [|exact H].
  destruct (starts_sep (behead t)) eqn:E2; simpl.
  - destruct (starts_sep (behead (behead t))); simpl.
    + apply ends_named_behead; assumption.
    + apply ends_named_behead; [exact E2|]. apply ends_named_behead; assumption.
  - apply ends_named_behead; assumption.
Qed.

Lemma path_name_ends_named (name t : string) :
  keep_part name = true -> ends_named name t -> path_name (parse_path t) = name.
Proof.
  intros Hkeep H. apply ends_named_splitroot in H as [front Hsplit].
  unfold parse_path, path_name. destruct (splitroot t) as [r rel]. simpl in *.
  rewrite Hsplit, List.filter_app. simpl. rewrite Hkeep. apply last_last.
Qed.

Lemma join_step_ends_named (name q : string) :
  Str.split "/" name = [name] ->
  Str.startswith name "/" = false ->
  ends_named name (join_step q name).
Proof.
  intros Hsplit Hstart. unfold join_step. rewrite Hstart.
  destruct (String.eqb_spec q "") as [->|Hq]; simpl.
  - exists []. exact Hsplit.
  - destruct (Str.endswith_sep q) eqn:E.
    + destruct (endswith_sep_inv q E) as [q0 ->].
      rewrite string_app_assoc. exists (Str.split "/" q0). apply split_snoc, Hsplit.
    + exists (Str.split "/" q). apply split_snoc, Hsplit.
Qed.

Lemma path_name_path_of (a : string) (more : list string) (name : string) :
  Str.split "/" name = [name] ->
  Str.startswith name "/" = false ->
  keep_part name = true ->
  path_name (path_of a (more ++ [name])) = name.
Proof.
  intros Hsplit Hstart Hkeep. unfold path_of, posixpath_join. rewrite fold_left_app. simpl.
  apply path_name_ends_named; [exact Hkeep|].
  apply (join_step_ends_named name _ Hsplit Hstart).
Qed.

Lemma path_name_record (folder : PurePath) :
  path_name (path_under folder ["options"; "recentProjects.xml"]) = "recentProjects.xml".
Proof. apply (path_name_path_of _ ["options"]); reflexivity. Qed.

Lemma path_name_state w sp : state_path w = Ok sp -> path_name sp = "state.json".
Proof.
  unfold state_path, toolbox_data_path.
  destruct (getenv w "LOCALAPPDATA" None) as [base|e]; simpl; [|discriminate].
  intros [= <-]. apply (path_name_path_of _ ["JetBrains"; "Toolbox"]); reflexivity.
Qed.

(** ** Scans that find nothing *)

Lemma quiet_refl s : quiet s s.
Proof.
  split; [reflexivity|]. split; [reflexivity|].
  exists []. split; [rewrite app_nil_r; reflexivity|constructor].
Qed.

Lemma quiet_trans s1 s2 s3 : quiet s1 s2 -> quiet s2 s3 -> quiet s1 s3.
Proof.
  intros (Hf1 & Hm1 & x1 & Hr1 & Hx1) (Hf2 & Hm2 & x2 & Hr2 & Hx2).
  split; [congruence|]. split; [congruence|].
  exists (x1 ++ x2)%list. split; [rewrite Hr2, Hr1, app_assoc; reflexivity|].
  apply Forall_app. split; assumption.
Qed.

Section Quiet.
Context (w : world) (ide : Ide).

Lemma discover_entries_nil fs0 entries :
  discover_entries w fs0 entries = Ok [] ->
  Forall (fun e => discover_entry w fs0 e = Ok None) entries.
Proof.
  induction entries as [|entry rest IH]; intros H; [constructor|]. simpl in H.
  destruct (discover_entry w fs0 entry) as [d|e] eqn:Ed; simpl in H; [|discriminate].
  destruct (discover_entries w fs0 rest) as [ds|e] eqn:Eds; simpl in H; [|discriminate].
  destruct d as [np|]; [discriminate|]. injection H as ->.
  constructor; [exact Ed|apply IH; reflexivity].
Qed.

Lemma scan_entry_skip acc entry s :
  discover_entry w (fs s) entry = Ok None ->
  scan_entry w ide acc entry s = Returns acc s.
Proof.
  unfold discover_entry, scan_entry.
  destruct (element_get entry "key") as [key|]; simpl; [|discriminate].
  rewrite !bind_eq. simpl. rewrite bind_eq. unfold gets.
  destruct (is_dir w (fs s) (entry_path w key)); simpl; [|reflexivity].
  destruct (if is_file w (fs s) _ then _ else _); discriminate.
Qed.

Lemma scan_entries_skip entries acc s :
  Forall (fun e => discover_entry w (fs s) e = Ok None) entries ->
  foldM (scan_entry w ide) entries acc s = Returns acc s.
Proof.
  induction 1 as [|entry rest Hentry _ IH]; [reflexivity|].
  simpl. rewrite bind_eq, (scan_entry_skip acc entry s Hentry). exact IH.
Qed.

Lemma get_recent_projects_quiet folder s :
  discover_folder w (fs s) folder = Ok [] ->
  exists s', get_recent_projects w ide folder s = Returns [] s' /\ quiet s s'.
Proof.
  unfold discover_folder, get_recent_projects. cbv zeta. rewrite bind_eq. unfold gets.
  destruct (is_file w (fs s) _); simpl.
  - unfold Pure.xml_parse, Pure.open_file, xml_parse, open_file. rewrite !bind_eq.
    destruct (lookup_path w (fs s) _) as [[[t|j|tree]|es]|]; simpl; try discriminate.
    intros H. apply discover_entries_nil in H.
    rewrite bind_eq.
    rewrite (scan_entries_skip (findall_entries tree) []
               (State (fs s) (memo s) (reads s ++ [_]) (stdout s)) H).
    assert (Hq : forall out, quiet s (State (fs s) (memo s)
                    (reads s ++ [path_under folder ["options"; "recentProjects.xml"]]) out)).
    { intros out. split; [reflexivity|]. split; [reflexivity|].
      eexists. split; [reflexivity|]. constructor; [apply path_name_record|constructor]. }
    destruct (decide (ide = RIDER)); rewrite bind_eq; simpl; eexists; split;
      [reflexivity|apply Hq|reflexivity|apply Hq].
  - intros _. exists s. split; [reflexivity|apply quiet_refl].
Qed.

Lemma scan_folders_quiet folders :
  forall s d,
    discover_folders w (fs s) folders = Ok [] ->
    exists s',
      foldM (fun d folder =>
               found ← get_recent_projects w ide folder;
               mret (record_projects d found)) folders d s = Returns d s' /\
      quiet s s'.
Proof.
  induction folders as [|folder rest IH]; intros s d H; simpl in H.
  - exists s. split; [reflexivity|apply quiet_refl].
  - destruct (discover_folder w (fs s) folder) as [f|e] eqn:Ef; simpl in H; [|discriminate].
    destruct (discover_folders w (fs s) rest) as [fs'|e] eqn:Efs; simpl in H; [|discriminate].
    injection H as H. apply app_eq_nil in H as [-> ->].
    destruct (get_recent_projects_quiet folder s Ef) as (s1 & E1 & Hq1).
    assert (Hfs : fs s1 = fs s) by apply Hq1.
    destruct (IH s1 d) as (s2 & E2 & Hq2); [rewrite Hfs; exact Efs|].
    exists s2. split; [|apply (quiet_trans _ _ _ Hq1 Hq2)].
    simpl. rewrite !bind_eq, E1. simpl. exact E2.
Qed.

Lemma ide_data_paths_pure s :
  ide_data_paths w ide s = outcome_of (Pure.ide_data_paths w (fs s) ide) s.
Proof.
  unfold ide_data_paths, Pure.ide_data_paths. rewrite bind_eq.
  destruct (getenv w "APPDATA" None) as [appdata|e]; simpl; [|reflexivity].
  rewrite bind_eq. unfold gets.
  destruct (exists_ w (fs s) (ide_folder appdata ide)); reflexivity.
Qed.

Lemma scan_ide_quiet s :
  discover_ide w (fs s) ide = Ok [] ->
  exists s', scan_ide w ide s = Returns [] s' /\ quiet s s'.
Proof.
  unfold discover_ide, scan_ide. rewrite bind_eq, ide_data_paths_pure.
  destruct (Pure.ide_data_paths w (fs s) ide) as [folders|e]; simpl; [|discriminate].
  intros H. destruct (scan_folders_quiet folders s [] H) as (s' & E & Hq).
  exists s'. split; [|exact Hq]. rewrite bind_eq, E. reflexivity.
Qed.

End Quiet.

Lemma scan_kinds_quiet w ides :
  forall s acc,
    discover_kinds w (fs s) ides = Ok [] ->
    exists s',
      foldM (fun projects ide =>
               found ← scan_ide w ide;
               mret (projects ++ found)%list) ides acc s = Returns acc s' /\
      quiet s s'.
Proof.
  induction ides as [|ide rest IH]; intros s acc H; simpl in H.
  - exists s. split; [reflexivity|apply quiet_refl].
  - destruct (discover_ide w (fs s) ide) as [d|e] eqn:Ed; simpl in H; [|discriminate].
    destruct (discover_kinds w (fs s) rest) as [ds|e] eqn:Eds; simpl in H; [|discriminate].
    injection H as H. apply app_eq_nil in H as [Hd ->].
    destruct d; [|discriminate].
    destruct (scan_ide_quiet w ide s Ed) as (s1 & E1 & Hq1).
    assert (Hfs : fs s1 = fs s) by apply Hq1.
    destruct (IH s1 acc) as (s2 & E2 & Hq2); [rewrite Hfs; exact Eds|].
    exists s2. split; [|apply (quiet_trans _ _ _ Hq1 Hq2)].
    simpl. rewrite !bind_eq, E1. simpl. rewrite app_nil_r. exact E2.
Qed.

Lemma collect_quiet w s :
  discover w (fs s) = Ok [] -> exists s', collect w s = Returns [] s' /\ quiet s s'.
Proof. apply scan_kinds_quiet. Qed.

(** ** Runs without a launcher state file *)

Lemma pure_channel_id_absent w fs0 sp ide :
  state_path w = Ok sp ->
  exists_ w fs0 sp = false ->
  Pure.channel_id w fs0 ide = Err (FileNotFoundError "Toolbox state file not found").
Proof.
  intros Hsp Habsent. unfold Pure.channel_id, Pure.toolbox_state.
  unfold state_path in Hsp. rewrite Hsp. simpl. rewrite Habsent. reflexivity.
Qed.

Lemma put_file_not_dir (c : content) (segs : list string) :
  forall n n', put_file n segs c = Some n' -> is_Dir (get_node n segs) = false.
Proof.
  induction segs as [|s rest IH]; intros n n' H; simpl in H; [discriminate|].
  destruct n as [c0|entries]; [discriminate|].
  destruct rest as [|s' rest'].
  - simpl. destruct (assoc s entries) as [[c1|es]|]; [reflexivity|discriminate|reflexivity].
  - cbn [get_node]. destruct (assoc s entries) as [child|]; [|discriminate].
    destruct (put_file child (s' :: rest') c) as [child'|] eqn:E; [|discriminate].
    apply (IH child child' E).
Qed.

Lemma write_file_unwritable w p c s :
  writable w (fs s) p = false -> write_file w p c s = Raises OSError s.
Proof.
  unfold writable, write_file.
  destruct (canon (fs s) [] (locate w p)) as [segs|]; [|reflexivity].
  destruct (put_file (fs s) segs c) as [fs'|] eqn:E; [|reflexivity].
  rewrite (put_file_not_dir c segs _ _ E). destruct segs; [discriminate|discriminate].
Qed.

(** ** The scan up to its first surviving entry *)

Section FirstSurvivor.
Context (w : world) (fs0 : node).

Lemma first_of_entries entries :
  forall found,
    discover_entries w fs0 entries = Ok found ->
    first_of (discover_entry w fs0) entries = Ok (head found).
Proof.
  induction entries as [|entry rest IH]; intros found H; simpl in H.
  - injection H as <-. reflexivity.
  - destruct (discover_entry w fs0 entry) as [d|e] eqn:Ed; simpl in H; [|discriminate].
    destruct (discover_entries w fs0 rest) as [ds|e] eqn:Eds; simpl in H; [|discriminate].
    injection H as <-. cbn [first_of]. rewrite Ed.
    destruct d as [np|]; [reflexivity|]. apply IH. reflexivity.
Qed.

Lemma first_in_folder_found folder found :
  discover_folder w fs0 folder = Ok found -> first_in_folder w fs0 folder = Ok (head found).
Proof.
  unfold discover_folder, first_in_folder. cbv zeta.
  destruct (is_file w fs0 _); simpl; [|intros [= <-]; reflexivity].
  destruct (Pure.xml_parse w fs0 _) as [tree|e]; simpl; [|discriminate].
  apply first_of_entries.
Qed.

Lemma first_of_folders folders :
  forall found,
    discover_folders w fs0 folders = Ok found ->
    first_of (first_in_folder w fs0) folders = Ok (head found).
Proof.
  induction folders as [|folder rest IH]; intros found H; simpl in H.
  - injection H as <-. reflexivity.
  - destruct (discover_folder w fs0 folder) as [d|e] eqn:Ed; simpl in H; [|discriminate].
    destruct (discover_folders w fs0 rest) as [ds|e] eqn:Eds; simpl in H; [|discriminate].
    injection H as <-. cbn [first_of]. rewrite (first_in_folder_found folder d Ed).
    destruct d as [|np d]; [|reflexivity]. apply IH. reflexivity.
Qed.

Lemma first_of_kind_found ide found :
  discover_ide w fs0 ide = Ok found ->
  first_of_kind w fs0 ide = Ok (head (map (pair ide) found)).
Proof.
  unfold discover_ide, first_of_kind.
  destruct (Pure.ide_data_paths w fs0 ide) as [folders|e]; simpl; [|discriminate].
  intros H. rewrite (first_of_folders folders found H). destruct found; reflexivity.
Qed.

Lemma first_of_kinds ides :
  forall found,
    discover_kinds w fs0 ides = Ok found ->
    first_of (first_of_kind w fs0) ides = Ok (head found).
Proof.
  induction ides as [|ide rest IH]; intros found H; simpl in H.
  - injection H as <-. reflexivity.
  - destruct (discover_ide w fs0 ide) as [d|e] eqn:Ed; simpl in H; [|discriminate].
    destruct (discover_kinds w fs0 rest) as [ds|e] eqn:Eds; simpl in H; [|discriminate].
    injection H as <-. cbn [first_of]. rewrite (first_of_kind_found ide d Ed).
    destruct d as [|np d]; [|reflexivity]. apply IH. reflexivity.
Qed.

(** With every channel lookup failing with [e0], the pure scan is decided by
    what it meets first. *)
Context (e0 : exn) (Hchan : forall ide, Pure.channel_id w fs0 ide = Err e0).

Lemma pure_scan_entry_first ide acc entry :
  Pure.scan_entry w fs0 ide acc entry =
  match discover_entry w fs0 entry with
  | Ok None => Ok acc
  | Ok (Some _) => Err e0
  | Err e => Err e
  end.
Proof.
  unfold discover_entry, Pure.scan_entry.
  destruct (element_get entry "key") as [key|]; simpl; [|reflexivity].
  destruct (is_dir w fs0 (entry_path w key)); simpl; [|reflexivity].
  destruct (if is_file w fs0 _ then _ else _) as [name|e]; simpl; [|reflexivity].
  rewrite Hchan. reflexivity.
Qed.

Lemma pure_scan_entries_first ide entries :
  forall acc,
    Pure.foldR (Pure.scan_entry w fs0 ide) entries acc =
    match first_of (discover_entry w fs0) entries with
    | Ok None => Ok acc
    | Ok (Some _) => Err e0
    | Err e => Err e
    end.
Proof.
  induction entries as [|entry rest IH]; intros acc; [reflexivity|].
  cbn [Pure.foldR first_of]. rewrite pure_scan_entry_first.
  destruct (discover_entry w fs0 entry) as [[np|]|e]; simpl; [reflexivity|apply IH|reflexivity].
Qed.

Lemma pure_get_recent_projects_first ide folder :
  Pure.get_recent_projects w fs0 ide folder =
  match first_in_folder w fs0 folder with
  | Ok None => Ok []
  | Ok (Some _) => Err e0
  | Err e => Err e
  end.
Proof.
  unfold first_in_folder, Pure.get_recent_projects. cbv zeta.
  destruct (is_file w fs0 _); simpl; [|reflexivity].
  destruct (Pure.xml_parse w fs0 _) as [tree|e]; simpl; [|reflexivity].
  apply pure_scan_entries_first.
Qed.

Lemma pure_scan_folders_first ide folders :
  forall d,
    Pure.foldR (fun d folder =>
                  reported ← Pure.get_recent_projects w fs0 ide folder;
                  Ok (record_projects d reported)) folders d =
    match first_of (first_in_folder w fs0) folders with
    | Ok None => Ok d
    | Ok (Some _) => Err e0
    | Err e => Err e
    end.
Proof.
  induction folders as [|folder rest IH]; intros d; [reflexivity|].
  cbn [Pure.foldR first_of]. rewrite pure_get_recent_projects_first.
  destruct (first_in_folder w fs0 folder) as [[np|]|e]; simpl; [reflexivity|apply IH|reflexivity].
Qed.

Lemma pure_scan_ide_first ide :
  Pure.scan_ide w fs0 ide =
  match first_of_kind w fs0 ide with
  | Ok None => Ok []
  | Ok (Some _) => Err e0
  | Err e => Err e
  end.
Proof.
  unfold first_of_kind, Pure.scan_ide.
  destruct (Pure.ide_data_paths w fs0 ide) as [folders|e]; simpl; [|reflexivity].
  rewrite pure_scan_folders_first.
  destruct (first_of (first_in_folder w fs0) folders) as [[np|]|e]; reflexivity.
Qed.

Lemma pure_scan_kinds_first ides :
  forall acc,
    Pure.foldR (fun projects ide =>
                  scanned ← Pure.scan_ide w fs0 ide;
                  Ok (projects ++ scanned)%list) ides acc =
    match first_of (first_of_kind w fs0) ides with
    | Ok None => Ok acc
    | Ok (Some _) => Err e0
    | Err e => Err e
    end.
Proof.
  induction ides as [|ide rest IH]; intros acc; [reflexivity|].
  cbn [Pure.foldR first_of]. rewrite pure_scan_ide_first.
  destruct (first_of_kind w fs0 ide) as [[x|]|e]; simpl; [reflexivity| |reflexivity].
  rewrite app_nil_r. apply IH.
Qed.

Lemma pure_collect_first :
  Pure.collect w fs0 =
  match first_survivor w fs0 with
  | Ok None => Ok []
  | Ok (Some _) => Err e0
  | Err e => Err e
  end.
Proof. apply pure_scan_kinds_first. Qed.

End FirstSurvivor.

Lemma cache_path_of_state_path w sp : state_path w = Ok sp -> exists cp, cache_path w = Ok cp.
Proof.
  unfold state_path, cache_path, toolbox_data_path.
  destruct (getenv w "LOCALAPPDATA" None); simpl; [eauto|discriminate].
Qed.

Lemma memo_ok_initial w fs0 : memo_ok w fs0 (initial fs0).
Proof. apply inv_initial. Qed.

(** * The claims *)

(** ** Runs and the launcher state file *)

(** C1 (as amended).  With the launcher state file absent, a run aborts
    with the "state file not found" error when it reaches its first
    surviving entry, before anything is written.  It does not reach one when
    another error stops the scan earlier, and then aborts with that error,
    or when no entry survives at all: then it completes and overwrites the
    cache file with the empty list, or fails with [OSError] when the cache
    file cannot be written.  So a run completes only when no entry survives.
    A run that aborts leaves the file system, and so a previous cache file,
    unchanged.  A scan that is free of errors reaches its first surviving
    entry whenever it has one. *)
Theorem C1_absent_state_aborts_at_first_lookup (w : world) (fs0 : node) (sp : PurePath) :
  state_path w = Ok sp ->
  exists_ w fs0 sp = false ->
  (forall e s', main w (initial fs0) = Raises e s' -> fs s' = fs0) /\
  match first_survivor w fs0 with
  | Ok (Some _) =>
      exists s',
        main w (initial fs0) = Raises (FileNotFoundError "Toolbox state file not found") s' /\
        fs s' = fs0
  | Err e => exists s', main w (initial fs0) = Raises e s' /\ fs s' = fs0
  | Ok None =>
      exists cp,
        cache_path w = Ok cp /\
        if writable w fs0 cp
        then exists s',
               main w (initial fs0) = Returns tt s' /\
               file_at w (fs s') (cache_path w) = Some (Json (JArr []))
        else exists s', main w (initial fs0) = Raises OSError s' /\ fs s' = fs0
  end /\
  (forall s',
     main w (initial fs0) = Returns tt s' ->
     first_survivor w fs0 = Ok None /\
     file_at w (fs s') (cache_path w) = Some (Json (JArr []))) /\
  (forall found, discover w fs0 = Ok found -> first_survivor w fs0 = Ok (head found)).
Proof.
  intros Hsp Habsent. split; [intros e s'; apply main_raises|].
  assert (Hcases :
    match first_survivor w fs0 with
    | Ok (Some _) =>
        exists s',
          main w (initial fs0) = Raises (FileNotFoundError "Toolbox state file not found") s' /\
          fs s' = fs0
    | Err e => exists s', main w (initial fs0) = Raises e s' /\ fs s' = fs0
    | Ok None =>
        exists cp,
          cache_path w = Ok cp /\
          if writable w fs0 cp
          then exists s',
                 main w (initial fs0) = Returns tt s' /\
                 file_at w (fs s') (cache_path w) = Some (Json (JArr []))
          else exists s', main w (initial fs0) = Raises OSError s' /\ fs s' = fs0
    end).
  { destruct (refines_collect w fs0 (initial fs0) (inv_initial w fs0)) as (s1 & [Hfs _] & E).
    rewrite (pure_collect_first w fs0 _
               (fun ide => pure_channel_id_absent w fs0 sp ide Hsp Habsent)) in E.
    destruct (first_survivor w fs0) as [[x|]|e]; simpl in E.
    - exists s1. split; [rewrite main_eq, E; reflexivity|exact Hfs].
    - destruct (cache_path_of_state_path w sp Hsp) as [cp Hcp].
      exists cp. split; [exact Hcp|]. destruct (writable w fs0 cp) eqn:Ew.
      + destruct (write_file_writable w cp (Json (JArr (map Project.to_json []))) s1)
          as [s2 Hwrite]; [rewrite Hfs; exact Ew|].
        destruct (write_file_returns _ _ _ _ _ Hwrite) as (Hfile & _).
        eexists. split; [rewrite main_eq, E, Hcp, Hwrite; reflexivity|].
        rewrite Hcp. simpl. rewrite Hfile. reflexivity.
      + exists s1. split; [|exact Hfs].
        rewrite main_eq, E, Hcp, (write_file_unwritable w cp _ s1); [reflexivity|].
        rewrite Hfs. exact Ew.
    - exists s1. split; [rewrite main_eq, E; reflexivity|exact Hfs]. }
  split; [exact Hcases|]. split; [|apply first_of_kinds].
  intros s' H. destruct (first_survivor w fs0) as [[x|]|e].
  - destruct Hcases as (s2 & E & _). rewrite E in H. discriminate.
  - split; [reflexivity|]. destruct Hcases as (cp & _ & Hrun).
    destruct (writable w fs0 cp); destruct Hrun as (s2 & E & Hfile); rewrite E in H;
      [injection H as <-; exact Hfile|discriminate].
  - destruct Hcases as (s2 & E & _). rewrite E in H. discriminate.
Qed.

(** C1 as stated fails: on a machine without any IDE folder and without a
    launcher state file the run completes and replaces the previous cache
    file by the empty list; no "state file not found" error is raised. *)
Lemma C1_counterexample :
  state_path Sample.machine = Ok Sample.state_file /\
  exists_ Sample.machine Sample.bare_disk Sample.state_file = false /\
  file_at Sample.machine Sample.bare_disk (cache_path Sample.machine)
    = Some (Json Sample.previous_cache) /\
  (exists s',
     main Sample.machine (initial Sample.bare_disk) = Returns tt s' /\
     file_at Sample.machine (fs s') (cache_path Sample.machine) = Some (Json (JArr []))) /\
  ~ (exists e s', main Sample.machine (initial Sample.bare_disk) = Raises e s').
Proof.
  split; [reflexivity|]. split; [reflexivity|]. split; [reflexivity|]. split.
  - eexists. split; vm_compute; reflexivity.
  - intros (e & s' & H). vm_compute in H. discriminate.
Defined.

(** The sample machine without its launcher state file: the first entry of
    the first PhpStorm installation survives.  And a record whose first
    entry survives, before an entry without key. *)
Lemma C1_witness :
  (exists s',
     main Sample.machine (initial (Sample.disk false))
       = Raises (FileNotFoundError "Toolbox state file not found") s' /\
     fs s' = Sample.disk false) /\
  (exists s',
     main Sample.machine (initial (Cases.record_disk (Xml Cases.late_keyless)))
       = Raises (FileNotFoundError "Toolbox state file not found") s' /\
     fs s' = Cases.record_disk (Xml Cases.late_keyless)).
Proof.
  split.
  - destruct (C1_absent_state_aborts_at_first_lookup
                Sample.machine (Sample.disk false) Sample.state_file eq_refl eq_refl)
      as (_ & H & _).
    exact H.
  - destruct (C1_absent_state_aborts_at_first_lookup
                Sample.machine (Cases.record_disk (Xml Cases.late_keyless))
                Sample.state_file eq_refl eq_refl)
      as (_ & H & _).
    exact H.
Defined.

(** ** Aggregation *)

(** C2.  The aggregated output is the concatenation, in the order of the
    kinds, of what the scan of each kind returns.  The scan of a kind visits
    its installation folders in enumeration order and returns at most one
    project per path: the project that the last visited folder reported for
    that path, as it was reported, with its single open action of that kind.
    No reported path is lost. *)
Theorem C2_one_project_per_path_last_folder_wins (w : world) :
  (forall s out s',
     collect w s = Returns out s' ->
     exists per_kind,
       runs_each (scan_ide w) all_ides s per_kind s' /\ out = concat per_kind) /\
  (forall ide s ps s',
     scan_ide w ide s = Returns ps s' ->
     exists folders reports,
       ide_data_paths w ide s = Returns folders s /\
       runs_each (get_recent_projects w ide) folders s reports s' /\
       NoDup (Project.path <$> ps) /\
       (forall p, p ∈ ps ->
          last_report (Project.path p) (concat reports) = Some p /\ built_for ide p) /\
       (forall q, q ∈ concat reports ->
          exists p, p ∈ ps /\ Project.path p = Project.path q)).
Proof.
  split; [intros s out s'; apply collect_runs|].
  intros ide s ps s'. apply scan_ide_last_wins.
Qed.

(** On the sample machine two PhpStorm installations report [/srv/b]. *)
Lemma C2_witness :
  exists ps s',
    scan_ide Sample.machine PHPSTORM (initial (Sample.disk true)) = Returns ps s' /\
    NoDup (Project.path <$> ps) /\
    forall p, p ∈ ps -> built_for PHPSTORM p.
Proof.
  destruct (scan_ide Sample.machine PHPSTORM (initial (Sample.disk true)))
    as [ps s'|e s'] eqn:E; [|vm_compute in E; discriminate].
  exists ps, s'. split; [reflexivity|].
  destruct (proj2 (C2_one_project_per_path_last_folder_wins Sample.machine) _ _ _ _ E)
    as (folders & reports & _ & _ & Hnd & Hlast & _).
  split; [exact Hnd|]. intros p Hp. apply (Hlast p Hp).
Defined.

(** C3.  When a path is reported by installations of two different kinds
    and the run completes, the list written to the cache contains an entry
    for that path for each of the two kinds: each carries exactly one open
    action, made of the tool key of its own kind and the channel identifier
    the launcher state holds for that kind; the two tool keys differ.  No
    entry of the output carries more than one open action. *)
Theorem C3_two_kinds_two_entries
  (w : world) (fs0 : node) (s' : state) (a b : Ide) (p : string) :
  a <> b ->
  p ∈ reported_paths w fs0 a ->
  p ∈ reported_paths w fs0 b ->
  main w (initial fs0) = Returns tt s' ->
  exists out name_a name_b channel_a channel_b,
    file_at w (fs s') (cache_path w) = Some (Json (JArr (map Project.to_json out))) /\
    Project.Make name_a p channel_a
      [NewOpenItem.init (IdeInfo.tool_id (value a)) channel_a] ∈ out /\
    Project.Make name_b p channel_b
      [NewOpenItem.init (IdeInfo.tool_id (value b)) channel_b] ∈ out /\
    IdeInfo.tool_id (value a) <> IdeInfo.tool_id (value b) /\
    Pure.channel_id w fs0 a = Ok channel_a /\
    Pure.channel_id w fs0 b = Ok channel_b /\
    NewOpenItem.init (IdeInfo.tool_id (value a)) channel_a
      <> NewOpenItem.init (IdeInfo.tool_id (value b)) channel_b /\
    Forall (fun q => length (Project.new_open_items q) = 1) out.
Proof.
  intros Hab Ha Hb H.
  destruct (main_returns _ _ _ H) as (out & s1 & Hcollect & Hfile).
  destruct (refines_returns _ _ _ _ _ _ _ (refines_collect w fs0) (inv_initial w fs0) Hcollect)
    as [Hpure _].
  destruct (pure_collect_kinds _ _ _ Hpure a) as (ps_a & Hps_a & Hsub_a).
  destruct (pure_collect_kinds _ _ _ Hpure b) as (ps_b & Hps_b & Hsub_b).
  destruct (pure_scan_ide_reported _ _ _ _ _ Hps_a Ha) as (na & ca & Hca & Hina).
  destruct (pure_scan_ide_reported _ _ _ _ _ Hps_b Hb) as (nb & cb & Hcb & Hinb).
  exists out, na, nb, ca, cb.
  split; [exact Hfile|]. split; [apply Hsub_a, Hina|]. split; [apply Hsub_b, Hinb|].
  split; [apply tool_ids_differ, Hab|]. split; [exact Hca|]. split; [exact Hcb|].
  split; [intros [= Hkey _]; apply (tool_ids_differ a b Hab Hkey)|].
  eapply Forall_impl; [apply (collect_built _ _ _ _ Hcollect)|].
  intros q (ide & c & -> & _). reflexivity.
Qed.

(** On the sample machine PhpStorm and Rider both report [/srv/b]. *)
Lemma C3_witness :
  exists s' out name_a name_b channel_a channel_b,
    main Sample.machine (initial (Sample.disk true)) = Returns tt s' /\
    file_at Sample.machine (fs s') (cache_path Sample.machine)
      = Some (Json (JArr (map Project.to_json out))) /\
    Project.Make name_a "/srv/b" channel_a [NewOpenItem.init "PhpStorm" channel_a] ∈ out /\
    Project.Make name_b "/srv/b" channel_b [NewOpenItem.init "Rider" channel_b] ∈ out.
Proof.
  destruct (main Sample.machine (initial (Sample.disk true))) as [[] s'|e s'] eqn:E;
    [|vm_compute in E; discriminate].
  assert (Ha : "/srv/b" ∈ reported_paths Sample.machine (Sample.disk true) PHPSTORM)
    by (apply list_elem_of_In; vm_compute; auto).
  assert (Hb : "/srv/b" ∈ reported_paths Sample.machine (Sample.disk true) RIDER)
    by (apply list_elem_of_In; vm_compute; auto).
  assert (Hab : PHPSTORM <> RIDER) by discriminate.
  destruct (C3_two_kinds_two_entries Sample.machine (Sample.disk true) s' PHPSTORM RIDER
              "/srv/b" Hab Ha Hb E)
    as (out & na & nb & ca & cb & Hfile & Hina & Hinb & _).
  exists s', out, na, nb, ca, cb. split; [reflexivity|]. split; [exact Hfile|].
  split; [exact Hina|exact Hinb].
Defined.

(** ** Cache writer *)

(** C4.  When a run completes, the cache file holds a JSON array, and in
    every record of it the field [defaultNewOpenItem] equals the field
    [channelId] of the first element of its [newOpenItems] array. *)
Theorem C4_default_is_first_channel (w : world) (s s' : state) :
  main w s = Returns tt s' ->
  exists records,
    file_at w (fs s') (cache_path w) = Some (Json (JArr records)) /\
    Forall (fun r =>
              exists first rest,
                py_get r "newOpenItems" = Ok (JArr (first :: rest)) /\
                py_get r "defaultNewOpenItem" = py_get first "channelId") records.
Proof.
  intros H. destruct (main_returns _ _ _ H) as (out & s1 & Hcollect & Hfile).
  exists (map Project.to_json out). split; [exact Hfile|].
  pose proof (collect_built _ _ _ _ Hcollect) as Hbuilt. clear Hcollect Hfile.
  induction Hbuilt as [|p ps [ide Hp] _ IH]; simpl; [constructor|].
  constructor; [|exact IH]. apply (to_json_built ide p Hp).
Qed.

(** The complete run on the sample machine. *)
Lemma C4_witness :
  exists s' records,
    main Sample.machine (initial (Sample.disk true)) = Returns tt s' /\
    file_at Sample.machine (fs s') (cache_path Sample.machine) = Some (Json (JArr records)) /\
    Forall (fun r =>
              exists first rest,
                py_get r "newOpenItems" = Ok (JArr (first :: rest)) /\
                py_get r "defaultNewOpenItem" = py_get first "channelId") records.
Proof.
  destruct (main Sample.machine (initial (Sample.disk true))) as [[] s'|e s'] eqn:E;
    [|vm_compute in E; discriminate].
  destruct (C4_default_is_first_channel _ _ _ E) as (records & Hfile & Hall).
  exists s', records. split; [reflexivity|]. split; assumption.
Defined.

(** ** Scanner *)

(** C5.  For a folder whose recent-projects record lists the keys [keys]:
    the projects the scan of the folder returns are, in order, those of the
    keys whose resolved path (home directory substituted) is an existing
    directory, and no others; the scan does return them once the channel
    lookup of the kind succeeds; and a record of three entries of which two
    are directories yields exactly two projects. *)
Theorem C5_stale_entries_are_excluded
  (w : world) (ide : Ide) (folder : PurePath) (s : state) (tree : element)
  (keys : list string) :
  memo_ok w (fs s) s ->
  lookup_path w (fs s) (path_under folder ["options"; "recentProjects.xml"])
    = Some (File (Xml tree)) ->
  map (fun e => element_get e "key") (findall_entries tree) = map Some keys ->
  let alive := fun k => is_dir w (fs s) (entry_path w k) in
  let surviving := map (fun k => path_str (entry_path w k)) (List.filter alive keys) in
  (forall ps s',
     get_recent_projects w ide folder s = Returns ps s' ->
     map Project.path ps = surviving) /\
  (forall c found,
     Pure.channel_id w (fs s) ide = Ok c ->
     discover_folder w (fs s) folder = Ok found ->
     exists s',
       get_recent_projects w ide folder s = Returns (map (project_of ide c) found) s' /\
       map snd found = surviving) /\
  (length keys = 3 -> length (List.filter alive keys) = 2 ->
   forall c found,
     Pure.channel_id w (fs s) ide = Ok c ->
     discover_folder w (fs s) folder = Ok found ->
     exists ps s', get_recent_projects w ide folder s = Returns ps s' /\ length ps = 2).
Proof.
  intros Hmemo Hrecord Hkeys alive surviving.
  pose proof (inv_here w s Hmemo) as Hs.
  assert (Hpaths : forall found, discover_folder w (fs s) folder = Ok found ->
                                 map snd found = surviving).
  { intros found Hfound. rewrite (discover_folder_record _ _ _ _ Hrecord) in Hfound.
    apply (discover_entries_paths w (fs s) _ keys found Hkeys Hfound). }
  assert (Htotal : forall c found,
     Pure.channel_id w (fs s) ide = Ok c ->
     discover_folder w (fs s) folder = Ok found ->
     exists s',
       get_recent_projects w ide folder s = Returns (map (project_of ide c) found) s' /\
       map snd found = surviving).
  { intros c found Hc Hfound.
    destruct (get_recent_projects_total w (fs s) ide folder s c found Hs Hc Hfound) as [s' H].
    exists s'. split; [exact H|apply Hpaths, Hfound]. }
  split; [|split; [exact Htotal|]].
  - intros ps s' H.
    destruct (get_recent_projects_found w (fs s) ide folder s ps s' Hs H)
      as (found & Hfound & [[-> ->]|(c & _ & ->)]).
    + rewrite <- (Hpaths [] Hfound). reflexivity.
    + rewrite map_path_project_of. apply Hpaths, Hfound.
  - intros _ Htwo c found Hc Hfound.
    destruct (Htotal c found Hc Hfound) as (s' & H & Hsnd).
    exists (map (project_of ide c) found), s'. split; [exact H|].
    rewrite length_map, <- (length_map snd), Hsnd. unfold surviving.
    rewrite length_map. exact Htwo.
Qed.

(** The record of PhpStorm 2023.1 has three entries, one of them stale. *)
Lemma C5_witness :
  exists ps s',
    get_recent_projects Sample.machine PHPSTORM Sample.phpstorm_2023_1
      (initial (Sample.disk true)) = Returns ps s' /\
    length ps = 2.
Proof.
  pose proof (C5_stale_entries_are_excluded
                Sample.machine PHPSTORM Sample.phpstorm_2023_1 (initial (Sample.disk true))
                (Sample.record Sample.keys_2023_1) Sample.keys_2023_1
                (memo_ok_initial _ _) eq_refl eq_refl) as H.
  cbv zeta in H. destruct H as (_ & _ & H).
  apply (H eq_refl eq_refl (JStr "p-1") [("Alpha", "/home/u/proj/a"); ("b", "/srv/b")]);
    vm_compute; reflexivity.
Defined.

(** ** IDE registry *)




(** ** Scanner, continued *)

(** C7.  Every project the scan of a folder returns comes from an entry of
    the folder's record whose path is a directory; when that directory holds
    a marker file [.idea/.name], the display name is the text of the file,
    and otherwise it is the last component of the path. *)
Theorem C7_display_name_from_marker_or_folder
  (w : world) (ide : Ide) (folder : PurePath) (s : state)
  (ps : list Project.t) (s' : state) :
  memo_ok w (fs s) s ->
  get_recent_projects w ide folder s = Returns ps s' ->
  Forall (fun p =>
            exists tree entry key,
              lookup_path w (fs s) (path_under folder ["options"; "recentProjects.xml"])
                = Some (File (Xml tree)) /\
              entry ∈ findall_entries tree /\
              element_get entry "key" = Some key /\
              named_by w (fs s) key (Project.name p, Project.path p)) ps.
Proof.
  intros Hmemo H. pose proof (inv_here w s Hmemo) as Hs.
  destruct (get_recent_projects_found w (fs s) ide folder s ps s' Hs H)
    as (found & Hfound & [[-> ->]|(c & _ & ->)]); [constructor|].
  destruct (discover_folder_entries w (fs s) folder found Hfound) as [->|(tree & Htree & He)];
    [constructor|].
  pose proof (discover_entries_names w (fs s) _ found He) as Hnames.
  apply Forall_forall. intros p Hp.
  apply list_elem_of_In, in_map_iff in Hp as ([name path] & <- & Hin).
  rewrite Forall_forall in Hnames.
  destruct (Hnames _ (proj2 (list_elem_of_In _ _) Hin)) as (entry & key & Hentry & Hkey & Hn).
  exists tree, entry, key. auto.
Qed.

(** On the sample machine [proj/a] has a marker file and [/srv/b] has none. *)
Lemma C7_witness :
  exists ps s',
    get_recent_projects Sample.machine PHPSTORM Sample.phpstorm_2023_1
      (initial (Sample.disk true)) = Returns ps s' /\
    Forall (fun p =>
              exists tree entry key,
                lookup_path Sample.machine (Sample.disk true)
                  (path_under Sample.phpstorm_2023_1 ["options"; "recentProjects.xml"])
                  = Some (File (Xml tree)) /\
                entry ∈ findall_entries tree /\
                element_get entry "key" = Some key /\
                named_by Sample.machine (Sample.disk true) key
                  (Project.name p, Project.path p)) ps.
Proof.
  destruct (get_recent_projects Sample.machine PHPSTORM Sample.phpstorm_2023_1
              (initial (Sample.disk true))) as [ps s'|e s'] eqn:E;
    [|vm_compute in E; discriminate].
  exists ps, s'. split; [reflexivity|].
  apply (C7_display_name_from_marker_or_folder _ _ _ _ _ _ (memo_ok_initial _ _) E).
Defined.

(** C8.  When the configuration root of a kind does not exist, listing its
    installation folders returns the empty list and the scan of the kind
    returns no project; neither raises nor changes the state. *)
Theorem C8_missing_root_contributes_nothing
  (w : world) (ide : Ide) (s : state) (appdata : string) :
  environ w !! "APPDATA" = Some appdata ->
  exists_ w (fs s) (ide_folder appdata ide) = false ->
  ide_data_paths w ide s = Returns [] s /\ scan_ide w ide s = Returns [] s.
Proof.
  intros Henv Hmissing.
  assert (H : ide_data_paths w ide s = Returns [] s).
  { unfold ide_data_paths. rewrite bind_eq. unfold getenv, os_getenv. rewrite Henv.
    change (lift (Ok appdata) s) with (Returns appdata s). cbv beta iota zeta.
    rewrite bind_eq. unfold gets. rewrite Hmissing. reflexivity. }
  split; [exact H|]. unfold scan_ide. rewrite bind_eq, H. reflexivity.
Qed.

(** On the bare machine the configuration root of Rider is missing. *)
Lemma C8_witness :
  ide_data_paths Sample.machine RIDER (initial Sample.bare_disk)
    = Returns [] (initial Sample.bare_disk) /\
  scan_ide Sample.machine RIDER (initial Sample.bare_disk)
    = Returns [] (initial Sample.bare_disk).
Proof.
  apply (C8_missing_root_contributes_nothing
           Sample.machine RIDER (initial Sample.bare_disk) "/home/u/Roaming");
    vm_compute; reflexivity.
Defined.

(** ** Environment resolver *)

(** C9.  [getenv] returns the value of a variable that is set, the default
    when the variable is unset and a default is given, and raises the
    "could not get environment" error exactly when the variable is unset
    and no default is given. *)
Theorem C9_getenv_value_default_or_error (w : world) (key : string) (default : option string) :
  (forall v, environ w !! key = Some v -> getenv w key default = Ok v) /\
  (forall d, environ w !! key = None -> default = Some d -> getenv w key default = Ok d) /\
  (environ w !! key = None -> default = None ->
   getenv w key default = Err (EnvironmentError ("Could not get environment " ++ key))) /\
  (forall e, getenv w key default = Err e -> environ w !! key = None /\ default = None).
Proof.
  unfold getenv, os_getenv. repeat split.
  - intros v ->. reflexivity.
  - intros d -> ->. reflexivity.
  - intros -> ->. reflexivity.
  - destruct (environ w !! key); [discriminate|reflexivity].
  - destruct (environ w !! key); [discriminate|].
    destruct default; [discriminate|reflexivity].
Qed.

(** On the sample machine: a variable that is set, a default, and the error. *)
Lemma C9_witness :
  getenv Sample.machine "APPDATA" None = Ok "/home/u/Roaming" /\
  getenv Sample.machine "TEMP" (Some "/tmp") = Ok "/tmp" /\
  getenv Sample.machine "TEMP" None = Err (EnvironmentError "Could not get environment TEMP").
Proof.
  split; [|split].
  - apply (proj1 (C9_getenv_value_default_or_error Sample.machine "APPDATA" None)).
    vm_compute. reflexivity.
  - apply (proj1 (proj2 (C9_getenv_value_default_or_error Sample.machine "TEMP" (Some "/tmp"))));
      vm_compute; reflexivity.
  - apply (proj1 (proj2 (proj2 (C9_getenv_value_default_or_error Sample.machine "TEMP" None))));
      vm_compute; reflexivity.
Defined.

(** ** Runs that find nothing *)

(** C10.  When the scan finds no surviving entry for any kind, and the cache
    file can be written, the run completes: it never opens the launcher
    state file, whether that file exists or not, and leaves the empty JSON
    array in the cache file. *)
Theorem C10_empty_scan_never_reads_state (w : world) (fs0 : node) (cp : PurePath) :
  discover w fs0 = Ok [] ->
  cache_path w = Ok cp ->
  writable w fs0 cp = true ->
  exists s',
    main w (initial fs0) = Returns tt s' /\
    (forall sp, state_path w = Ok sp -> sp ∉ reads s') /\
    file_at w (fs s') (cache_path w) = Some (Json (JArr [])).
Proof.
  intros Hnone Hcp Hw.
  destruct (collect_quiet w (initial fs0) Hnone) as (s1 & Hcollect & Hfs & _ & extra & Hr & Hex).
  simpl in Hfs, Hr.
  destruct (write_file_writable w cp (Json (JArr (map Project.to_json []))) s1) as [s2 Hwrite];
    [rewrite Hfs; exact Hw|].
  destruct (write_file_returns _ _ _ _ _ Hwrite) as (Hfile & _ & Hreads & _).
  eexists. split; [rewrite main_eq, Hcollect, Hcp, Hwrite; reflexivity|]. simpl. split.
  - intros sp Hsp Hin. rewrite Hreads, Hr in Hin.
    rewrite Forall_forall in Hex. specialize (Hex sp Hin).
    rewrite (path_name_state w sp Hsp) in Hex. discriminate.
  - rewrite Hcp. simpl. rewrite Hfile. reflexivity.
Qed.

(** The bare machine has no launcher state file and no IDE folder. *)
Lemma C10_witness :
  exists_ Sample.machine Sample.bare_disk Sample.state_file = false /\
  exists s',
    main Sample.machine (initial Sample.bare_disk) = Returns tt s' /\
    (forall sp, state_path Sample.machine = Ok sp -> sp ∉ reads s') /\
    file_at Sample.machine (fs s') (cache_path Sample.machine) = Some (Json (JArr [])).
Proof.
  split; [reflexivity|].
  apply (C10_empty_scan_never_reads_state Sample.machine Sample.bare_disk Sample.cache_file);
    vm_compute; reflexivity.
Defined.

(** * Further properties of the script *)

(** ** Relations every step keeps *)

Section Keeps.
Context (R : state -> state -> Prop).
Context (R_refl : forall s, R s s) (R_trans : forall s1 s2 s3, R s1 s2 -> R s2 s3 -> R s1 s3).

Lemma keeps_ret {A} (a : A) : keeps R (mret a).
Proof. intros s. apply R_refl. Qed.

Lemma keeps_raise {A} (e : exn) : keeps R (raise e : M A).
Proof. intros s. apply R_refl. Qed.

Lemma keeps_lift {A} (r : result A) : keeps R (lift r).
Proof. destruct r; [apply keeps_ret|apply keeps_raise]. Qed.

Lemma keeps_gets {A} (h : state -> A) : keeps R (gets h).
Proof. intros s. apply R_refl. Qed.

Lemma keeps_bind {A B} (m : M A) (f : A -> M B) :
  keeps R m -> (forall a, keeps R (f a)) -> keeps R (m ≫= f).
Proof.
  intros Hm Hf s. rewrite bind_eq. specialize (Hm s).
  destruct (m s) as [a s1|e s1]; simpl in *; [|exact Hm].
  apply (R_trans _ _ _ Hm (Hf a s1)).
Qed.

Lemma keeps_foldM {A B} (body : B -> A -> M B) (l : list A) :
  (forall b x, keeps R (body b x)) -> forall b, keeps R (foldM body l b).
Proof.
  intros Hbody. induction l as [|x l IH]; intros b; simpl.
  - apply keeps_ret.
  - apply keeps_bind; [apply Hbody|exact IH].
Qed.

Lemma keeps_if {A} (c : bool) (m1 m2 : M A) :
  keeps R m1 -> keeps R m2 -> keeps R (if c then m1 else m2).
Proof. destruct c; auto. Qed.

End Keeps.

Lemma silent_refl s : silent s s.
Proof. split; reflexivity. Qed.

Lemma silent_trans s1 s2 s3 : silent s1 s2 -> silent s2 s3 -> silent s1 s3.
Proof. intros [H1 H2] [H3 H4]. split; congruence. Qed.

Lemma same_disk_refl s : same_disk s s.
Proof. reflexivity. Qed.

Lemma same_disk_trans s1 s2 s3 : same_disk s1 s2 -> same_disk s2 s3 -> same_disk s1 s3.
Proof. unfold same_disk. congruence. Qed.

Lemma silent_open_file w p : keeps silent (open_file w p).
Proof.
  intros s. unfold open_file.
  destruct (lookup_path w (fs s) p) as [[c|es]|]; split; reflexivity.
Qed.

Lemma silent_read_text w p : keeps silent (read_text w p).
Proof.
  apply (keeps_bind _ silent_trans); [apply silent_open_file|].
  intros [t|j|e]; [apply (keeps_ret _ silent_refl)|apply (keeps_raise _ silent_refl)..].
Qed.

Lemma silent_json_load w p : keeps silent (json_load w p).
Proof.
  apply (keeps_bind _ silent_trans); [apply silent_open_file|].
  intros [t|j|e];
    [apply (keeps_raise _ silent_refl)|apply (keeps_ret _ silent_refl)
    |apply (keeps_raise _ silent_refl)].
Qed.

Lemma silent_xml_parse w p : keeps silent (xml_parse w p).
Proof.
  apply (keeps_bind _ silent_trans); [apply silent_open_file|].
  intros [t|j|e]; [apply (keeps_raise _ silent_refl)..|apply (keeps_ret _ silent_refl)].
Qed.

Lemma silent_toolbox_state w ide : keeps silent (toolbox_state w ide).
Proof.
  unfold toolbox_state.
  apply (keeps_bind _ silent_trans); [apply (keeps_lift _ silent_refl)|]. intros p.
  apply (keeps_bind _ silent_trans); [apply (keeps_gets _ silent_refl)|]. intros present.
  apply keeps_if; [apply (keeps_raise _ silent_refl)|].
  apply (keeps_bind _ silent_trans); [apply silent_json_load|]. intros st.
  destruct ide; [apply (keeps_ret _ silent_refl)|..];
    (apply (keeps_bind _ silent_trans); [apply (keeps_lift _ silent_refl)|]; intros tools;
     apply (keeps_bind _ silent_trans); [apply (keeps_lift _ silent_refl)|]; intros items;
     apply (keeps_lift _ silent_refl)).
Qed.

Lemma silent_channel_id w self : keeps silent (channel_id w self).
Proof.
  unfold channel_id.
  apply (keeps_bind _ silent_trans); [apply (keeps_gets _ silent_refl)|]. intros cached.
  apply (keeps_bind _ silent_trans); [|intros _; apply (keeps_gets _ silent_refl)].
  apply keeps_if; [|apply (keeps_ret _ silent_refl)].
  apply (keeps_bind _ silent_trans); [apply silent_toolbox_state|]. intros tool.
  apply keeps_if; [apply (keeps_raise _ silent_refl)|].
  apply (keeps_bind _ silent_trans); [apply (keeps_lift _ silent_refl)|]. intros c.
  intros s. split; reflexivity.
Qed.

Lemma silent_scan_entry w ide acc entry : keeps silent (scan_entry w ide acc entry).
Proof.
  unfold scan_entry.
  apply (keeps_bind _ silent_trans).
  { destruct (element_get entry "key");
      [apply (keeps_ret _ silent_refl)|apply (keeps_raise _ silent_refl)]. }
  intros key. cbv zeta.
  apply (keeps_bind _ silent_trans); [apply (keeps_gets _ silent_refl)|]. intros found.
  apply keeps_if; [apply (keeps_ret _ silent_refl)|].
  apply (keeps_bind _ silent_trans); [apply (keeps_gets _ silent_refl)|]. intros named.
  apply (keeps_bind _ silent_trans).
  { apply keeps_if; [apply silent_read_text|apply (keeps_ret _ silent_refl)]. }
  intros name.
  apply (keeps_bind _ silent_trans); [apply silent_channel_id|]. intros channel.
  apply (keeps_bind _ silent_trans); [apply (keeps_lift _ silent_refl)|]. intros project.
  apply (keeps_ret _ silent_refl).
Qed.

Lemma silent_scan_entries w ide entries acc :
  keeps silent (foldM (scan_entry w ide) entries acc).
Proof.
  apply (keeps_foldM _ silent_refl silent_trans). intros b x. apply silent_scan_entry.
Qed.

Lemma silent_same_disk {A} (m : M A) : keeps silent m -> keeps same_disk m.
Proof. intros H s. apply (H s). Qed.

Lemma same_disk_print o : keeps same_disk (print o).
Proof. intros s. reflexivity. Qed.

Lemma same_disk_get_recent_projects w ide folder :
  keeps same_disk (get_recent_projects w ide folder).
Proof.
  unfold get_recent_projects. cbv zeta.
  apply (keeps_bind _ same_disk_trans); [apply (keeps_gets _ same_disk_refl)|].
  intros present. apply keeps_if; [apply (keeps_ret _ same_disk_refl)|].
  apply (keeps_bind _ same_disk_trans); [apply silent_same_disk, silent_xml_parse|].
  intros tree.
  apply (keeps_bind _ same_disk_trans);
    [apply silent_same_disk, silent_scan_entries|].
  intros ps. apply (keeps_bind _ same_disk_trans).
  - destruct (decide (ide = RIDER)); [apply same_disk_print|apply (keeps_ret _ same_disk_refl)].
  - intros _. apply (keeps_ret _ same_disk_refl).
Qed.

Lemma same_disk_ide_data_paths w ide : keeps same_disk (ide_data_paths w ide).
Proof.
  intros s. rewrite ide_data_paths_pure.
  destruct (Pure.ide_data_paths w (fs s) ide); reflexivity.
Qed.

Lemma same_disk_scan_ide w ide : keeps same_disk (scan_ide w ide).
Proof.
  unfold scan_ide.
  apply (keeps_bind _ same_disk_trans); [apply same_disk_ide_data_paths|]. intros folders.
  apply (keeps_bind _ same_disk_trans).
  - apply (keeps_foldM _ same_disk_refl same_disk_trans). intros d folder.
    apply (keeps_bind _ same_disk_trans); [apply same_disk_get_recent_projects|].
    intros found. apply (keeps_ret _ same_disk_refl).
  - intros d. apply (keeps_ret _ same_disk_refl).
Qed.

Lemma same_disk_collect w : keeps same_disk (collect w).
Proof.
  unfold collect. apply (keeps_foldM _ same_disk_refl same_disk_trans). intros projects ide.
  apply (keeps_bind _ same_disk_trans); [apply same_disk_scan_ide|].
  intros found. apply (keeps_ret _ same_disk_refl).
Qed.

(** ** What a run leaves on disk *)

(** X1.  Scanning never writes: a channel lookup, the scan of a folder, the
    scan of a kind and the scan of all kinds leave the file system exactly
    as it was, from any state, whether they return or raise. *)
Theorem scan_never_writes (w : world) (s : state) :
  (forall ide, fs (final (channel_id w ide s)) = fs s) /\
  (forall ide folder, fs (final (get_recent_projects w ide folder s)) = fs s) /\
  (forall ide, fs (final (scan_ide w ide s)) = fs s) /\
  fs (final (collect w s)) = fs s.
Proof.
  split; [intros ide; apply (silent_channel_id w ide s)|].
  split; [intros ide folder; apply (same_disk_get_recent_projects w ide folder s)|].
  split; [intros ide; apply (same_disk_scan_ide w ide s)|apply (same_disk_collect w s)].
Qed.

Lemma put_file_frame (c : content) (segs : list string) :
  forall n n', put_file n segs c = Some n' ->
  forall acc, acc <> segs ->
  forall x, get_node n' acc = Some (File x) <-> get_node n acc = Some (File x).
Proof.
  induction segs as [|s rest IH]; intros n n' H acc Hne x; simpl in H; [discriminate|].
  destruct n as [c0|entries]; [discriminate|].
  destruct rest as [|s' rest'].
  - assert (n' = Dir (set_entry s (File c) entries) /\ is_Dir (assoc s entries) = false)
      as [-> Hfile]
      by (destruct (assoc s entries) as [[?|?]|]; split; first [reflexivity|congruence]).
    destruct acc as [|a acc']; [simpl; split; discriminate|].
    simpl. rewrite assoc_set_entry.
    destruct (String.eqb_spec a s) as [->|_]; [|reflexivity].
    destruct acc' as [|b acc'']; [contradiction|].
    destruct (assoc s entries) as [[c1|es]|]; [|discriminate|]; simpl; split; discriminate.
  - destruct (assoc s entries) as [child|] eqn:Ea; [|discriminate].
    destruct (put_file child (s' :: rest') c) as [child'|] eqn:E; [|discriminate].
    injection H as <-. destruct acc as [|a acc']; [simpl; split; discriminate|].
    cbn [get_node]. rewrite assoc_set_entry.
    destruct (String.eqb_spec a s) as [->|_]; [|reflexivity].
    rewrite Ea. apply (IH child child' E). congruence.
Qed.

Lemma write_file_frame w cp c s s2 :
  write_file w cp c s = Returns tt s2 ->
  (forall q x,
     canon (fs s) [] (locate w q) <> canon (fs s) [] (locate w cp) ->
     (lookup_path w (fs s2) q = Some (File x) <-> lookup_path w (fs s) q = Some (File x))) /\
  (forall q, is_dir w (fs s2) q = is_dir w (fs s) q).
Proof.
  intros Ew. unfold write_file in Ew.
  destruct (canon (fs s) [] (locate w cp)) as [segs|] eqn:Ec; [|discriminate].
  destruct (put_file (fs s) segs _) as [fs'|] eqn:Ep; [|discriminate].
  injection Ew as <-. simpl.
  pose proof (canon_ext (fs s) fs' (put_file_dirs _ segs _ _ Ep)) as Hcanon.
  split.
  - intros q x Hq. unfold lookup_path. rewrite Hcanon.
    destruct (canon (fs s) [] (locate w q)) as [acc|]; [|reflexivity].
    apply (put_file_frame _ segs _ _ Ep). congruence.
  - intros q. unfold is_dir, lookup_path. rewrite Hcanon.
    destruct (canon (fs s) [] (locate w q)) as [acc|]; [|reflexivity].
    pose proof (put_file_dirs _ segs _ _ Ep acc) as Hd. unfold is_Dir in Hd.
    destruct (get_node fs' acc) as [[?|?]|], (get_node (fs s) acc) as [[?|?]|];
      first [reflexivity|discriminate].
Qed.

Lemma main_returns_writes w s s' :
  main w s = Returns tt s' ->
  exists out s1 cp s2,
    collect w s = Returns out s1 /\ fs s1 = fs s /\ cache_path w = Ok cp /\
    write_file w cp (Json (JArr (map Project.to_json out))) s1 = Returns tt s2 /\
    fs s' = fs s2.
Proof.
  pose proof (same_disk_collect w s) as Hscan. unfold same_disk in Hscan.
  rewrite main_eq. destruct (collect w s) as [out s1|e s1]; [|discriminate]. simpl in Hscan.
  destruct (cache_path w) as [cp|e]; [|discriminate].
  destruct (write_file w cp _ s1) as [[] s2|e s2] eqn:Ew; [|discriminate].
  intros [= <-]. exists out, s1, cp, s2. repeat split; assumption.
Qed.

Lemma main_raises_same_disk w s e s' : main w s = Raises e s' -> fs s' = fs s.
Proof.
  pose proof (same_disk_collect w s) as Hscan. unfold same_disk in Hscan.
  rewrite main_eq. destruct (collect w s) as [out s1|e1 s1]; simpl in Hscan.
  - destruct (cache_path w) as [cp|e2].
    + destruct (write_file w cp _ s1) as [[] s2|e2 s2] eqn:Ew; [discriminate|].
      intros [= _ <-]. rewrite (write_file_raises Ew). exact Hscan.
    + intros [= _ <-]. exact Hscan.
  - intros [= _ <-]. exact Hscan.
Qed.

(** X2.  A run changes nothing on disk but the cache file: when it aborts
    the file system is as before; when it completes, every path that does
    not resolve to the location of the cache file holds the file it held
    before, and the directories are the same. *)
Theorem main_touches_only_the_cache_file (w : world) (s : state) :
  (forall e s', main w s = Raises e s' -> fs s' = fs s) /\
  (forall s',
     main w s = Returns tt s' ->
     exists cp,
       cache_path w = Ok cp /\
       (forall q x,
          canon (fs s) [] (locate w q) <> canon (fs s) [] (locate w cp) ->
          (lookup_path w (fs s') q = Some (File x) <-> lookup_path w (fs s) q = Some (File x))) /\
       (forall q, is_dir w (fs s') q = is_dir w (fs s) q)).
Proof.
  split; [intros e s'; apply main_raises_same_disk|].
  intros s' H. destruct (main_returns_writes w s s' H) as (out & s1 & cp & s2 & _ & Hfs & Hcp & Ew & E).
  exists cp. split; [exact Hcp|]. rewrite E, <- Hfs. apply (write_file_frame _ _ _ _ _ Ew).
Qed.

(** X3.  The outcome of a run of a fresh process is decided by three things
    in turn: the scan (as a function of the file system), the variable
    [LOCALAPPDATA], and whether the cache file can be written.  The first of
    them to fail gives the exception, with the file system untouched; when
    none fails the run returns, the cache file holds the scanned projects
    and the success line is the last line printed. *)
Theorem main_outcome (w : world) (fs0 : node) :
  match Pure.collect w fs0 with
  | Err e => exists s', main w (initial fs0) = Raises e s' /\ fs s' = fs0
  | Ok out =>
      match cache_path w with
      | Err e => exists s', main w (initial fs0) = Raises e s' /\ fs s' = fs0
      | Ok cp =>
          if writable w fs0 cp
          then exists s',
                 main w (initial fs0) = Returns tt s' /\
                 file_at w (fs s') (cache_path w)
                   = Some (Json (JArr (map Project.to_json out))) /\
                 last (stdout s') = Some (PrintSuccess cp)
          else exists s', main w (initial fs0) = Raises OSError s' /\ fs s' = fs0
      end
  end.
Proof.
  destruct (refines_collect w fs0 (initial fs0) (inv_initial w fs0)) as (s1 & [Hfs _] & E).
  destruct (Pure.collect w fs0) as [out|e]; simpl in E.
  - destruct (cache_path w) as [cp|e] eqn:Ecp.
    + destruct (writable w fs0 cp) eqn:Ew.
      * destruct (write_file_writable w cp (Json (JArr (map Project.to_json out))) s1)
          as [s2 Hwrite]; [rewrite Hfs; exact Ew|].
        destruct (write_file_returns _ _ _ _ _ Hwrite) as (Hfile & _).
        eexists. split; [rewrite main_eq, E, Ecp, Hwrite; reflexivity|]. simpl.
        rewrite Hfile. split; [reflexivity|]. apply last_snoc.
      * exists s1. split; [|exact Hfs].
        rewrite main_eq, E, Ecp, (write_file_unwritable w cp _ s1); [reflexivity|].
        rewrite Hfs. exact Ew.
    + exists s1. split; [rewrite main_eq, E, Ecp; reflexivity|exact Hfs].
  - exists s1. split; [rewrite main_eq, E; reflexivity|exact Hfs].
Qed.

(** ** The memo of channel identifiers *)

(** X4.  [None] is both "not looked up yet" and the value of a missing
    [channelId]: when the first record with the kind's tool key has no
    channel identifier (or a null one), the lookup returns [None], leaves
    the kind not memoised and has opened the state file; the next lookup
    starts from the same situation and opens the file again. *)
Theorem channel_id_without_identifier_is_not_memoised
  (w : world) (self : Ide) (s : state) (sp : PurePath) (st : json)
  (records : list (list (string * json))) (r : list (string * json))
  (rest : list (list (string * json))) :
  memo s self = JNull ->
  state_path w = Ok sp ->
  lookup_path w (fs s) sp = Some (File (Json st)) ->
  tool_records st = Some records ->
  List.filter (has_tool_key (IdeInfo.tool_id (value self))) records = r :: rest ->
  default JNull (assoc "channelId" r) = JNull ->
  exists s',
    channel_id w self s = Returns JNull s' /\
    (forall i, memo s' i = memo s i) /\
    fs s' = fs s /\
    reads s' = (reads s ++ [sp])%list.
Proof.
  intros Hnull Hsp Hfile Hrec Hmatch Hnone.
  unfold channel_id. rewrite bind_eq. unfold gets at 1. cbv beta. rewrite Hnull.
  cbn [is_None]. rewrite !bind_eq.
  rewrite (toolbox_state_reads w sp st _ s Hsp Hfile).
  rewrite (pure_toolbox_state_records w (fs s) sp st records _ Hsp Hfile Hrec), Hmatch.
  simpl. rewrite Hnone. simpl. unfold gets. simpl.
  rewrite decide_True by reflexivity.
  eexists. split; [reflexivity|]. simpl. split; [|split; reflexivity].
  intros i. destruct (decide (i = self)) as [->|_]; [symmetry; exact Hnull|reflexivity].
Qed.

Lemma served_refl ide s : served ide s s.
Proof.
  intros _. split; [reflexivity|]. exists []. split; [rewrite app_nil_r; reflexivity|constructor].
Qed.

Lemma served_trans ide s1 s2 s3 : served ide s1 s2 -> served ide s2 s3 -> served ide s1 s3.
Proof.
  intros H12 H23 Hmemo. destruct (H12 Hmemo) as (Hm1 & x1 & Hr1 & Hx1).
  destruct H23 as (Hm2 & x2 & Hr2 & Hx2); [rewrite Hm1; exact Hmemo|].
  split; [congruence|]. exists (x1 ++ x2)%list.
  split; [rewrite Hr2, Hr1, app_assoc; reflexivity|apply Forall_app; split; assumption].
Qed.

Lemma served_open_file ide w p :
  path_name p <> "state.json" -> keeps (served ide) (open_file w p).
Proof.
  intros Hp s _. unfold open_file.
  destruct (lookup_path w (fs s) p) as [[c|es]|]; simpl;
    (split; [reflexivity|]);
    [exists [p]; split; [reflexivity|constructor; [exact Hp|constructor]]
    |exists []; split; [rewrite app_nil_r; reflexivity|constructor]..].
Qed.

Lemma served_channel_id ide w : keeps (served ide) (channel_id w ide).
Proof.
  intros s Hmemo. rewrite (channel_id_memoised w ide (memo s ide) s Hmemo eq_refl).
  apply (served_refl ide s Hmemo).
Qed.

Lemma path_name_marker (d : PurePath) :
  path_name (path_under d [".idea"; ".name"]) = ".name".
Proof. apply (path_name_path_of _ [".idea"]); reflexivity. Qed.

Lemma served_scan_entry ide w acc entry : keeps (served ide) (scan_entry w ide acc entry).
Proof.
  unfold scan_entry.
  apply (keeps_bind _ (served_trans ide)).
  { destruct (element_get entry "key");
      [apply (keeps_ret _ (served_refl ide))|apply (keeps_raise _ (served_refl ide))]. }
  intros key. cbv zeta.
  apply (keeps_bind _ (served_trans ide)); [apply (keeps_gets _ (served_refl ide))|].
  intros found. apply keeps_if; [apply (keeps_ret _ (served_refl ide))|].
  apply (keeps_bind _ (served_trans ide)); [apply (keeps_gets _ (served_refl ide))|].
  intros named. apply (keeps_bind _ (served_trans ide)).
  { apply keeps_if; [|apply (keeps_ret _ (served_refl ide))].
    apply (keeps_bind _ (served_trans ide)).
    - apply served_open_file. rewrite path_name_marker. discriminate.
    - intros [t|j|e];
        [apply (keeps_ret _ (served_refl ide))|apply (keeps_raise _ (served_refl ide))..]. }
  intros name.
  apply (keeps_bind _ (served_trans ide)); [apply served_channel_id|]. intros channel.
  apply (keeps_bind _ (served_trans ide)); [apply (keeps_lift _ (served_refl ide))|].
  intros project. apply (keeps_ret _ (served_refl ide)).
Qed.

Lemma served_print ide o : keeps (served ide) (print o).
Proof.
  intros s _. simpl. split; [reflexivity|].
  exists []. split; [rewrite app_nil_r; reflexivity|constructor].
Qed.

Lemma served_get_recent_projects ide w folder :
  keeps (served ide) (get_recent_projects w ide folder).
Proof.
  unfold get_recent_projects. cbv zeta.
  apply (keeps_bind _ (served_trans ide)); [apply (keeps_gets _ (served_refl ide))|].
  intros present. apply keeps_if; [apply (keeps_ret _ (served_refl ide))|].
  apply (keeps_bind _ (served_trans ide)).
  { apply (keeps_bind _ (served_trans ide)).
    - apply served_open_file. rewrite path_name_record. discriminate.
    - intros [t|j|e];
        [apply (keeps_raise _ (served_refl ide))..|apply (keeps_ret _ (served_refl ide))]. }
  intros tree. apply (keeps_bind _ (served_trans ide)).
  { apply (keeps_foldM _ (served_refl ide) (served_trans ide)).
    intros b x. apply served_scan_entry. }
  intros ps. apply (keeps_bind _ (served_trans ide)).
  - destruct (decide (ide = RIDER));
      [apply served_print|apply (keeps_ret _ (served_refl ide))].
  - intros _. apply (keeps_ret _ (served_refl ide)).
Qed.

Lemma served_scan_ide ide w : keeps (served ide) (scan_ide w ide).
Proof.
  unfold scan_ide. apply (keeps_bind _ (served_trans ide)).
  { intros s. rewrite ide_data_paths_pure.
    destruct (Pure.ide_data_paths w (fs s) ide); apply served_refl. }
  intros folders. apply (keeps_bind _ (served_trans ide)).
  - apply (keeps_foldM _ (served_refl ide) (served_trans ide)). intros d folder.
    apply (keeps_bind _ (served_trans ide)); [apply served_get_recent_projects|].
    intros found. apply (keeps_ret _ (served_refl ide)).
  - intros d. apply (keeps_ret _ (served_refl ide)).
Qed.

(** X5.  Once the channel identifier of a kind is memoised, scanning a
    folder of that kind, or all of its folders, never opens the launcher
    state file again and leaves the memo as it is, whether the scan returns
    or raises. *)
Theorem memoised_kind_never_reopens_state_file
  (w : world) (ide : Ide) (s : state) (sp : PurePath) :
  memo s ide <> JNull ->
  state_path w = Ok sp ->
  (forall folder,
     let s' := final (get_recent_projects w ide folder s) in
     memo s' = memo s /\
     exists extra, reads s' = (reads s ++ extra)%list /\ sp ∉ extra) /\
  (let s' := final (scan_ide w ide s) in
   memo s' = memo s /\
   exists extra, reads s' = (reads s ++ extra)%list /\ sp ∉ extra).
Proof.
  intros Hmemo Hsp.
  assert (Hnot : forall extra,
            Forall (fun p => path_name p <> "state.json") extra -> sp ∉ extra).
  { intros extra Hall Hin. rewrite Forall_forall in Hall.
    apply (Hall sp Hin). apply (path_name_state w sp Hsp). }
  split.
  - intros folder. cbv zeta.
    destruct (served_get_recent_projects ide w folder s Hmemo) as (Hm & extra & Hr & Hall).
    split; [exact Hm|]. exists extra. split; [exact Hr|apply Hnot, Hall].
  - cbv zeta. destruct (served_scan_ide ide w s Hmemo) as (Hm & extra & Hr & Hall).
    split; [exact Hm|]. exists extra. split; [exact Hr|apply Hnot, Hall].
Qed.

(** ** Standard output *)

(** X6.  The scan of a folder prints at most one line: the number of
    projects it returns, and only for Rider and only when the folder has a
    recent-projects record.  A folder without record, another kind, or a
    scan that raises prints nothing. *)
Theorem get_recent_projects_prints_the_rider_count
  (w : world) (ide : Ide) (folder : PurePath) (s : state) :
  match get_recent_projects w ide folder s with
  | Returns ps s' =>
      stdout s' =
      (stdout s ++
       if decide (ide = RIDER)
       then if is_file w (fs s) (path_under folder ["options"; "recentProjects.xml"])
            then [PrintCount (length ps)] else []
       else [])%list
  | Raises _ s' => stdout s' = stdout s
  end.
Proof.
  unfold get_recent_projects. cbv zeta. rewrite bind_eq. unfold gets at 1. cbv beta iota.
  destruct (is_file w (fs s) (path_under folder ["options"; "recentProjects.xml"])); simpl.
  - rewrite bind_eq.
    pose proof (silent_xml_parse w (path_under folder ["options"; "recentProjects.xml"]) s)
      as [_ H1].
    destruct (xml_parse w _ s) as [tree s1|e s1]; simpl in H1; [|exact H1].
    rewrite bind_eq.
    pose proof (silent_scan_entries w ide (findall_entries tree) [] s1) as [_ H2].
    destruct (foldM (scan_entry w ide) (findall_entries tree) [] s1) as [ps s2|e s2];
      simpl in H2; [|congruence].
    destruct (decide (ide = RIDER)); rewrite bind_eq; simpl.
    + congruence.
    + rewrite app_nil_r. congruence.
  - destruct (decide (ide = RIDER)); rewrite app_nil_r; reflexivity.
Qed.

Lemma counts_only_refl s : counts_only s s.
Proof.
  split; [reflexivity|]. exists []. split; [rewrite app_nil_r; reflexivity|constructor].
Qed.

Lemma counts_only_trans s1 s2 s3 : counts_only s1 s2 -> counts_only s2 s3 -> counts_only s1 s3.
Proof.
  intros (Hf1 & l1 & Ho1 & Hl1) (Hf2 & l2 & Ho2 & Hl2). split; [congruence|].
  exists (l1 ++ l2)%list. split; [rewrite Ho2, Ho1, app_assoc; reflexivity|].
  apply Forall_app. split; assumption.
Qed.

Lemma silent_counts_only {A} (m : M A) : keeps silent m -> keeps counts_only m.
Proof.
  intros H s. destruct (H s) as [Hfs Hout]. split; [exact Hfs|].
  exists []. split; [rewrite app_nil_r; exact Hout|constructor].
Qed.

Lemma counts_only_get_recent_projects w ide folder :
  keeps counts_only (get_recent_projects w ide folder).
Proof.
  unfold get_recent_projects. cbv zeta.
  apply (keeps_bind _ counts_only_trans); [apply (keeps_gets _ counts_only_refl)|].
  intros present. apply keeps_if; [apply (keeps_ret _ counts_only_refl)|].
  apply (keeps_bind _ counts_only_trans).
  { apply silent_counts_only. intros s. apply silent_xml_parse. }
  intros tree. apply (keeps_bind _ counts_only_trans).
  { apply silent_counts_only. intros s. apply silent_scan_entries. }
  intros ps. apply (keeps_bind _ counts_only_trans).
  - destruct (decide (ide = RIDER)); [|apply (keeps_ret _ counts_only_refl)].
    intros s. split; [reflexivity|]. eexists. split; [reflexivity|]. repeat constructor.
  - intros _. apply (keeps_ret _ counts_only_refl).
Qed.

Lemma counts_only_collect w : keeps counts_only (collect w).
Proof.
  unfold collect. apply (keeps_foldM _ counts_only_refl counts_only_trans). intros projects ide.
  apply (keeps_bind _ counts_only_trans); [|intros found; apply (keeps_ret _ counts_only_refl)].
  unfold scan_ide. apply (keeps_bind _ counts_only_trans).
  { intros s. rewrite ide_data_paths_pure.
    destruct (Pure.ide_data_paths w (fs s) ide); apply counts_only_refl. }
  intros folders. apply (keeps_bind _ counts_only_trans).
  - apply (keeps_foldM _ counts_only_refl counts_only_trans). intros d folder.
    apply (keeps_bind _ counts_only_trans); [apply counts_only_get_recent_projects|].
    intros found. apply (keeps_ret _ counts_only_refl).
  - intros d. apply (keeps_ret _ counts_only_refl).
Qed.

(** X7.  The success line is printed exactly when the run completes: a
    completed run has printed count lines and then, last, the success line
    naming the cache path; a run that aborts has printed count lines only. *)
Theorem main_prints_success_only_on_completion (w : world) (s : state) :
  match main w s with
  | Returns _ s' =>
      exists counts cp,
        cache_path w = Ok cp /\
        stdout s' = (stdout s ++ counts ++ [PrintSuccess cp])%list /\
        Forall is_count counts
  | Raises _ s' =>
      exists counts, stdout s' = (stdout s ++ counts)%list /\ Forall is_count counts
  end.
Proof.
  rewrite main_eq. destruct (counts_only_collect w s) as (_ & counts & Hout & Hcounts).
  destruct (collect w s) as [out s1|e s1]; simpl in Hout; [|eauto].
  destruct (cache_path w) as [cp|e]; [|eauto].
  destruct (write_file w cp _ s1) as [[] s2|e s2] eqn:Ew.
  - destruct (write_file_returns _ _ _ _ _ Ew) as (_ & _ & _ & Hsame).
    exists counts, cp. split; [reflexivity|]. simpl. split; [|exact Hcounts].
    rewrite Hsame, Hout, app_assoc. reflexivity.
  - rewrite (write_file_raises Ew). eauto.
Qed.

(** ** The IDE registry and the folders of a kind *)

Lemma prefixes_exclude (a b : Ide) (name : string) :
  Str.startswith name (IdeInfo.folder_prefix (value a)) = true ->
  Str.startswith name (IdeInfo.folder_prefix (value b)) = true ->
  a = b.
Proof.
  unfold Str.startswith. destruct name as [|c name]; [destruct a; discriminate|].
  destruct a, b; try reflexivity; cbn [value IdeInfo.folder_prefix String.prefix];
    intros Ha Hb;
    (destruct (ascii_dec _ c) as [<-|] in Ha; [|discriminate Ha]);
    (destruct (ascii_dec _ _) as [E|] in Hb; [discriminate E|discriminate Hb]).
Qed.

Lemma glob_prefix_dirs_elem w fs0 folder prefix f :
  f ∈ glob_prefix_dirs w fs0 folder prefix ->
  exists name, f = make_child folder name /\ Str.startswith name prefix = true.
Proof.
  unfold glob_prefix_dirs.
  destruct (lookup_path w fs0 folder) as [[c|entries]|];
    [intros H; apply elem_of_nil in H; contradiction| |
     intros H; apply elem_of_nil in H; contradiction].
  intros H. apply list_elem_of_omap in H as ([name child] & _ & H).
  destruct child as [c|es]; [discriminate|].
  destruct (Str.startswith name prefix) eqn:E; [|discriminate].
  injection H as <-. eauto.
Qed.

(** X8.  No installation folder is scanned for two kinds: a folder that
    [ide_data_paths] returns for one kind is not returned for any other,
    because no folder name starts with the prefixes of two kinds. *)
Theorem ide_data_paths_are_disjoint
  (w : world) (a b : Ide) (s : state) (fa fb : list PurePath) (sa sb : state)
  (f : PurePath) :
  ide_data_paths w a s = Returns fa sa ->
  ide_data_paths w b s = Returns fb sb ->
  f ∈ fa -> f ∈ fb -> a = b.
Proof.
  rewrite !ide_data_paths_pure. unfold Pure.ide_data_paths.
  destruct (getenv w "APPDATA" None) as [appdata|e]; simpl; [|discriminate].
  intros Ha Hb Hfa Hfb.
  assert (Hin : forall ide fl sl,
            (if negb (exists_ w (fs s) (ide_folder appdata ide))
             then Returns [] s
             else Returns (glob_prefix_dirs w (fs s) (ide_folder appdata ide)
                             (IdeInfo.folder_prefix (value ide))) s) = Returns fl sl ->
            f ∈ fl ->
            exists name, parts f = (parts (ide_folder appdata ide) ++ [name])%list /\
                         Str.startswith name (IdeInfo.folder_prefix (value ide)) = true).
  { intros ide fl sl H Hf.
    destruct (negb (exists_ w (fs s) (ide_folder appdata ide))); injection H as <- _.
    - apply elem_of_nil in Hf. contradiction.
    - destruct (glob_prefix_dirs_elem _ _ _ _ _ Hf) as (name & -> & Hname). eauto. }
  assert (Ha' : outcome_of
                  (if negb (exists_ w (fs s) (ide_folder appdata a)) then Ok []
                   else Ok (glob_prefix_dirs w (fs s) (ide_folder appdata a)
                              (IdeInfo.folder_prefix (value a)))) s = Returns fa sa)
    by exact Ha.
  assert (Hb' : outcome_of
                  (if negb (exists_ w (fs s) (ide_folder appdata b)) then Ok []
                   else Ok (glob_prefix_dirs w (fs s) (ide_folder appdata b)
                              (IdeInfo.folder_prefix (value b)))) s = Returns fb sb)
    by exact Hb.
  destruct (Hin a fa sa) as (na & Hpa & Hna);
    [destruct (negb (exists_ w (fs s) (ide_folder appdata a))); exact Ha'|exact Hfa|].
  destruct (Hin b fb sb) as (nb & Hpb & Hnb);
    [destruct (negb (exists_ w (fs s) (ide_folder appdata b))); exact Hb'|exact Hfb|].
  rewrite Hpa in Hpb. apply app_inj_tail in Hpb as [_ ->].
  apply (prefixes_exclude a b nb Hna Hnb).
Qed.

Lemma find_tool_member (m : Ide) (tools : list json) :
  find_tool (ByMember m) tools = find_tool (ByKey (IdeInfo.tool_id (value m))) tools.
Proof.
  induction tools as [|tool rest IH]; [reflexivity|]. simpl.
  destruct (py_get tool "toolId") as [id|e]; simpl; [|reflexivity].
  destruct (py_eq_str id (IdeInfo.tool_id (value m))); [reflexivity|exact IH].
Qed.

(** X9.  Looking a tool up by [Ide] member and looking it up by the tool
    key of that member are the same operation: same result or exception,
    same final state. *)
Theorem toolbox_state_by_member_is_by_key (w : world) (m : Ide) (s : state) :
  toolbox_state w (ByMember m) s = toolbox_state w (ByKey (IdeInfo.tool_id (value m))) s.
Proof.
  unfold toolbox_state. rewrite !bind_eq.
  destruct (lift (toolbox_data_path w (Some "state.json")) s) as [p s1|e s1]; [|reflexivity].
  rewrite !bind_eq. destruct (gets _ s1) as [present s2|e s2]; [|reflexivity].
  destruct (negb present); [reflexivity|]. rewrite !bind_eq.
  destruct (json_load w p s2) as [st s3|e s3]; [|reflexivity].
  rewrite !bind_eq. destruct (lift (py_get st "tools") s3) as [tools s4|e s4]; [|reflexivity].
  rewrite !bind_eq. destruct (lift (py_iter tools) s4) as [items s5|e s5]; [|reflexivity].
  rewrite find_tool_member. reflexivity.
Qed.

(** ** Lookups in the launcher state *)

Lemma find_tool_skips (key : string) (before : list (list (string * json))) (rest : list json) :
  Forall (fun b => has_tool_key key b = false) before ->
  find_tool (ByKey key) (map JObj before ++ rest) = find_tool (ByKey key) rest.
Proof.
  induction 1 as [|b before Hb _ IH]; [reflexivity|]. simpl.
  unfold has_tool_key in Hb. rewrite Hb. exact IH.
Qed.

(** X10.  A keyed lookup in the tool list stops at the first record with
    the key: it returns that record and never inspects what follows, which
    may be anything.  An entry that is not a JSON object, met before any
    match, aborts the lookup with [AttributeError]; a list without match
    gives [None]. *)
Theorem toolbox_state_stops_at_first_match
  (w : world) (key : string) (s : state) (sp : PurePath)
  (fields : list (string * json)) (tools : list json)
  (before : list (list (string * json))) :
  state_path w = Ok sp ->
  lookup_path w (fs s) sp = Some (File (Json (JObj fields))) ->
  assoc "tools" fields = Some (JArr tools) ->
  Forall (fun b => has_tool_key key b = false) before ->
  (forall r after,
     tools = (map JObj before ++ JObj r :: after)%list -> has_tool_key key r = true ->
     toolbox_state w (ByKey key) s = Returns (JObj r) (after_read s sp)) /\
  (forall bad after,
     tools = (map JObj before ++ bad :: after)%list -> as_record bad = None ->
     toolbox_state w (ByKey key) s = Raises AttributeError (after_read s sp)) /\
  (tools = map JObj before ->
   toolbox_state w (ByKey key) s = Returns JNull (after_read s sp)).
Proof.
  intros Hsp Hfile Htools Hbefore.
  assert (Hrun : toolbox_state w (ByKey key) s
                 = outcome_of (find_tool (ByKey key) tools) (after_read s sp)).
  { rewrite (toolbox_state_reads w sp _ _ s Hsp Hfile). unfold Pure.toolbox_state.
    unfold state_path in Hsp. rewrite Hsp. simpl.
    rewrite (exists_of_lookup _ _ _ _ Hfile). simpl.
    unfold Pure.json_load, Pure.open_file. rewrite Hfile. simpl. rewrite Htools. reflexivity. }
  rewrite Hrun. split; [|split].
  - intros r after -> Hr. rewrite (find_tool_skips key before _ Hbefore). simpl.
    unfold has_tool_key in Hr. rewrite Hr. reflexivity.
  - intros bad after -> Hbad. rewrite (find_tool_skips key before _ Hbefore).
    destruct bad; try discriminate; reflexivity.
  - intros ->. rewrite <- (app_nil_r (map JObj before)).
    rewrite (find_tool_skips key before _ Hbefore). reflexivity.
Qed.

(** X11.  What a malformed launcher state does to a keyed lookup: without
    [LOCALAPPDATA] the lookup raises the environment error before touching
    the disk; a missing file raises [FileNotFoundError]; a file that is not
    JSON raises the decoding error; JSON that is not an object raises
    [AttributeError]; an object without a [tools] list (absent or null)
    raises [TypeError].  None of these is the "IDE not found" error. *)
Theorem toolbox_state_on_malformed_state (w : world) (key : string) (s : state) :
  (environ w !! "LOCALAPPDATA" = None ->
   toolbox_state w (ByKey key) s
   = Raises (EnvironmentError "Could not get environment LOCALAPPDATA") s) /\
  (forall sp,
     state_path w = Ok sp ->
     (lookup_path w (fs s) sp = None ->
      toolbox_state w (ByKey key) s
      = Raises (FileNotFoundError "Toolbox state file not found") s) /\
     (forall c,
        lookup_path w (fs s) sp = Some (File c) ->
        (forall j, c <> Json j) ->
        toolbox_state w (ByKey key) s = Raises JSONDecodeError (after_read s sp)) /\
     (forall st,
        lookup_path w (fs s) sp = Some (File (Json st)) ->
        (forall fields, st <> JObj fields) ->
        toolbox_state w (ByKey key) s = Raises AttributeError (after_read s sp)) /\
     (forall fields,
        lookup_path w (fs s) sp = Some (File (Json (JObj fields))) ->
        default JNull (assoc "tools" fields) = JNull ->
        toolbox_state w (ByKey key) s = Raises TypeError (after_read s sp))).
Proof.
  split.
  - intros Henv. unfold toolbox_state, toolbox_data_path, getenv, os_getenv.
    rewrite Henv. reflexivity.
  - intros sp Hsp. unfold state_path in Hsp. split; [|split; [|split]].
    + intros Hnone. unfold toolbox_state. rewrite Hsp. simpl.
      rewrite bind_eq. simpl. rewrite bind_eq. unfold gets, exists_. rewrite Hnone.
      reflexivity.
    + intros c Hfile Hc. unfold toolbox_state. rewrite Hsp. simpl.
      rewrite bind_eq. simpl. rewrite bind_eq. unfold gets.
      rewrite (exists_of_lookup _ _ _ _ Hfile). simpl.
      unfold json_load, open_file. rewrite !bind_eq, Hfile.
      destruct c as [t|j|e]; [reflexivity|destruct (Hc j eq_refl)|reflexivity].
    + intros st Hfile Hst. rewrite (toolbox_state_reads w sp st _ s Hsp Hfile).
      unfold Pure.toolbox_state. rewrite Hsp. simpl.
      rewrite (exists_of_lookup _ _ _ _ Hfile). simpl.
      unfold Pure.json_load, Pure.open_file. rewrite Hfile. simpl.
      destruct st; try reflexivity. destruct (Hst fields eq_refl).
    + intros fields Hfile Htools. rewrite (toolbox_state_reads w sp _ _ s Hsp Hfile).
      unfold Pure.toolbox_state. rewrite Hsp. simpl.
      rewrite (exists_of_lookup _ _ _ _ Hfile). simpl.
      unfold Pure.json_load, Pure.open_file. rewrite Hfile. simpl. rewrite Htools.
      reflexivity.
Qed.

(** ** The order and the content of the output *)

Lemma set_entry_fst {A} (k : string) (v : A) (d : list (string * A)) :
  (set_entry k v d).*1 = if existsb (String.eqb k) d.*1 then d.*1 else (d.*1 ++ [k])%list.
Proof.
  induction d as [|[k0 v0] d IH]; [reflexivity|]. cbn [set_entry].
  destruct (String.eqb_spec k k0) as [->|Hne]; rewrite !fmap_cons; cbn [existsb fst].
  - rewrite String.eqb_refl. reflexivity.
  - rewrite IH, (proj2 (String.eqb_neq k k0) Hne). cbn [orb].
    destruct (existsb (String.eqb k) d.*1); reflexivity.
Qed.

Lemma record_projects_keys ps :
  forall d, (record_projects d ps).*1 = (d.*1 ++ first_seen d.*1 (Project.path <$> ps))%list.
Proof.
  induction ps as [|p ps IH]; intros d; [simpl; rewrite app_nil_r; reflexivity|].
  change (record_projects d (p :: ps))
    with (record_projects (set_entry (Project.path p) p d) ps).
  rewrite IH, set_entry_fst, fmap_cons. cbn [first_seen].
  destruct (existsb (String.eqb (Project.path p)) d.*1); [reflexivity|].
  rewrite <- app_assoc. reflexivity.
Qed.

Lemma keyed_paths d : keyed d -> Project.path <$> d.*2 = d.*1.
Proof.
  induction 1 as [|[k v] l Hk _ IH]; [reflexivity|].
  simpl in Hk. rewrite !fmap_cons, IH, Hk. reflexivity.
Qed.

(** X12.  The projects of a kind come out in the order in which their paths
    were first reported, folder after folder: a path that is reported again
    keeps its place (and, by last-write-wins, takes the later project). *)
Theorem scan_ide_keeps_first_report_order
  (w : world) (ide : Ide) (s : state) (ps : list Project.t) (s' : state) :
  scan_ide w ide s = Returns ps s' ->
  exists folders reports,
    ide_data_paths w ide s = Returns folders s /\
    runs_each (get_recent_projects w ide) folders s reports s' /\
    Project.path <$> ps = first_seen [] (Project.path <$> concat reports).
Proof.
  intros H. destruct (scan_ide_runs _ _ _ _ _ H) as (folders & reports & Hf & Hruns & ->).
  exists folders, reports. split; [exact Hf|]. split; [exact Hruns|].
  rewrite keyed_paths by (apply record_projects_keyed; constructor).
  apply (record_projects_keys (concat reports) []).
Qed.

Lemma map_inj {A B} (f : A -> B) :
  (forall x y, f x = f y -> x = y) -> forall l l', map f l = map f l' -> l = l'.
Proof.
  intros Hf l. induction l as [|x l IH]; intros [|y l'] H; try discriminate; [reflexivity|].
  injection H as Hx Hl. rewrite (Hf x y Hx), (IH l' Hl). reflexivity.
Qed.

Lemma item_to_json_inj (i j : NewOpenItem.t) :
  NewOpenItem.to_json i = NewOpenItem.to_json j -> i = j.
Proof. destruct i, j. unfold NewOpenItem.to_json. simpl. congruence. Qed.

Lemma project_to_json_inj (p q : Project.t) : Project.to_json p = Project.to_json q -> p = q.
Proof.
  destruct p, q. unfold Project.to_json. simpl. intros [= -> -> -> H].
  rewrite (map_inj _ item_to_json_inj _ _ H). reflexivity.
Qed.

(** X13.  Nothing is lost in the cache: the JSON array written for a list
    of projects determines the list, names, paths, default actions and open
    actions included. *)
Theorem cache_records_determine_the_projects (ps qs : list Project.t) :
  JArr (map Project.to_json ps) = JArr (map Project.to_json qs) -> ps = qs.
Proof. intros [= H]. apply (map_inj _ project_to_json_inj _ _ H). Qed.

(** ** Records that cannot be scanned *)

Lemma stale_discover w fs0 entry : stale w fs0 entry -> discover_entry w fs0 entry = Ok None.
Proof.
  intros (key & Hkey & Hdir). unfold discover_entry. rewrite Hkey. simpl. rewrite Hdir.
  reflexivity.
Qed.

Lemma scan_entries_after_stale w ide pre rest acc s :
  Forall (stale w (fs s)) pre ->
  foldM (scan_entry w ide) (pre ++ rest) acc s = foldM (scan_entry w ide) rest acc s.
Proof.
  induction 1 as [|entry pre Hentry _ IH]; [reflexivity|].
  simpl. rewrite bind_eq, (scan_entry_skip w ide acc entry s (stale_discover _ _ _ Hentry)).
  exact IH.
Qed.

(** X14.  A record the scan cannot use aborts the scan of its folder: a
    record file that is not XML raises the parse error before any entry is
    looked at; an entry without [key] attribute raises [AttributeError] as
    soon as it is reached, that is when only stale entries precede it,
    whatever follows it.  In both cases only the record has been read. *)
Theorem get_recent_projects_on_unusable_record
  (w : world) (ide : Ide) (folder : PurePath) (s : state) :
  let record := path_under folder ["options"; "recentProjects.xml"] in
  (forall c,
     lookup_path w (fs s) record = Some (File c) ->
     (forall tree, c <> Xml tree) ->
     get_recent_projects w ide folder s = Raises ParseError (after_read s record)) /\
  (forall tree pre bad post,
     lookup_path w (fs s) record = Some (File (Xml tree)) ->
     findall_entries tree = (pre ++ bad :: post)%list ->
     Forall (stale w (fs s)) pre ->
     element_get bad "key" = None ->
     get_recent_projects w ide folder s = Raises AttributeError (after_read s record)).
Proof.
  intros record. split.
  - intros c Hfile Hc. unfold get_recent_projects. cbv zeta. fold record.
    rewrite bind_eq. unfold gets. rewrite (is_file_of_lookup _ _ _ _ Hfile). simpl.
    rewrite bind_eq. unfold xml_parse, open_file. rewrite bind_eq, Hfile.
    destruct c as [t|j|e]; [reflexivity|reflexivity|destruct (Hc e eq_refl)].
  - intros tree pre bad post Hfile Hentries Hpre Hbad.
    unfold get_recent_projects. cbv zeta. fold record.
    rewrite bind_eq. unfold gets. rewrite (is_file_of_lookup _ _ _ _ Hfile). simpl.
    rewrite bind_eq. unfold xml_parse, open_file. rewrite bind_eq, Hfile. simpl.
    rewrite bind_eq, Hentries.
    change (State (fs s) (memo s) (reads s ++ [record]) (stdout s)) with (after_read s record).
    rewrite (scan_entries_after_stale w ide pre (bad :: post) [] (after_read s record) Hpre).
    simpl. rewrite bind_eq. unfold scan_entry. rewrite bind_eq, Hbad. reflexivity.
Qed.

(** ** The home directory in entry keys *)

Lemma prefix_app (a b : string) : String.prefix a (a ++ b) = true.
Proof.
  induction a as [|c a IH]; [destruct b; reflexivity|].
  change (String c a ++ b) with (String c (a ++ b)). cbn [String.prefix].
  destruct (ascii_dec c c) as [_|Hne]; [exact IH|contradiction].
Qed.

Lemma replace_from_skip (old new x rest : string) :
  Str.replace_from old new (String.length x) (x ++ rest) = Str.replace_from old new 0 rest.
Proof.
  induction x as [|c x IH]; [reflexivity|].
  change (String c x ++ rest) with (String c (x ++ rest)). exact IH.
Qed.

Lemma replace_at_head (old new rest : string) :
  old <> "" ->
  Str.replace (old ++ rest) old new = new ++ Str.replace rest old new.
Proof.
  intros Hold. unfold Str.replace. destruct old as [|c old]; [contradiction|].
  change (String c old ++ rest) with (String c (old ++ rest)).
  cbn [Str.replace_from].
  change (String c (old ++ rest)) with (String c old ++ rest).
  rewrite prefix_app.
  replace (String.length (String c old) - 1) with (String.length old)
    by (cbn [String.length]; lia).
  rewrite replace_from_skip. reflexivity.
Qed.

Lemma replace_without_first (old new s : string) (c : ascii) (old' : string) :
  old = String c old' ->
  Forall (fun x => x <> c) (list_ascii_of_string s) ->
  Str.replace s old new = s.
Proof.
  intros -> H. unfold Str.replace. induction s as [|a s IH]; [reflexivity|].
  simpl in H. apply Forall_cons in H as [Ha Hs].
  cbn [Str.replace_from String.prefix].
  destruct (ascii_dec c a) as [->|_]; [contradiction|]. rewrite (IH Hs). reflexivity.
Qed.

(** X15.  Home-directory substitution in an entry key: a key that starts
    with the placeholder [$USER_HOME$] resolves to the home directory
    followed by the rest of the key (substituted in turn), and a key without
    any dollar sign resolves as it is written. *)
Theorem entry_path_substitutes_the_home_directory (w : world) (rest key : string) :
  entry_path w ("$USER_HOME$" ++ rest)
  = parse_path (path_str (home w) ++ Str.replace rest "$USER_HOME$" (path_str (home w))) /\
  (Forall (fun x => x <> "$"%char) (list_ascii_of_string key) ->
   entry_path w key = parse_path key).
Proof.
  unfold entry_path. split.
  - rewrite replace_at_head by discriminate. reflexivity.
  - intros H. rewrite (replace_without_first _ _ key "$" "USER_HOME$" eq_refl H). reflexivity.
Qed.

(** ** The memo during a scan *)

Lemma only_reads_refl s : only_reads s s.
Proof. repeat split. Qed.

Lemma only_reads_trans s1 s2 s3 : only_reads s1 s2 -> only_reads s2 s3 -> only_reads s1 s3.
Proof. intros (H1 & H2 & H3) (H4 & H5 & H6). repeat split; congruence. Qed.

Lemma only_reads_open_file w p : keeps only_reads (open_file w p).
Proof.
  intros s. unfold open_file.
  destruct (lookup_path w (fs s) p) as [[c|es]|]; repeat split.
Qed.

Lemma only_reads_decoded {A} w p (decode : content -> M A) :
  (forall c, keeps only_reads (decode c)) -> keeps only_reads (open_file w p ≫= decode).
Proof.
  intros H. apply (keeps_bind _ only_reads_trans); [apply only_reads_open_file|exact H].
Qed.

Lemma only_reads_toolbox_state w ide : keeps only_reads (toolbox_state w ide).
Proof.
  unfold toolbox_state.
  apply (keeps_bind _ only_reads_trans); [apply (keeps_lift _ only_reads_refl)|]. intros p.
  apply (keeps_bind _ only_reads_trans); [apply (keeps_gets _ only_reads_refl)|].
  intros present. apply keeps_if; [apply (keeps_raise _ only_reads_refl)|].
  apply (keeps_bind _ only_reads_trans).
  { apply only_reads_decoded. intros [t|j|e];
      [apply (keeps_raise _ only_reads_refl)|apply (keeps_ret _ only_reads_refl)
      |apply (keeps_raise _ only_reads_refl)]. }
  intros st. destruct ide; [apply (keeps_ret _ only_reads_refl)|..];
    (apply (keeps_bind _ only_reads_trans); [apply (keeps_lift _ only_reads_refl)|];
     intros tools;
     apply (keeps_bind _ only_reads_trans); [apply (keeps_lift _ only_reads_refl)|];
     intros items; apply (keeps_lift _ only_reads_refl)).
Qed.

Lemma memo_step_refl ide s : memo_step ide s s.
Proof. split; reflexivity. Qed.

Lemma memo_step_trans ide s1 s2 s3 :
  memo_step ide s1 s2 -> memo_step ide s2 s3 -> memo_step ide s1 s3.
Proof.
  intros [Ho1 Hi1] [Ho2 Hi2]. split.
  - intros i Hi. rewrite (Ho2 i Hi). apply (Ho1 i Hi).
  - intros Hset. rewrite Hi2; [apply Hi1, Hset|]. rewrite (Hi1 Hset). exact Hset.
Qed.

Lemma only_reads_memo_step {A} ide (m : M A) : keeps only_reads m -> keeps (memo_step ide) m.
Proof.
  intros H s. destruct (H s) as (_ & Hm & _). split; intros; rewrite Hm; reflexivity.
Qed.

Lemma same_memo_step ide s s' : memo s' = memo s -> memo_step ide s s'.
Proof. intros H. split; intros; rewrite H; reflexivity. Qed.

Lemma memo_step_channel_id w ide : keeps (memo_step ide) (channel_id w ide).
Proof.
  intros s. destruct (is_None (memo s ide)) eqn:Hnone.
  2: { assert (Hset : memo s ide <> JNull) by (intros E; rewrite E in Hnone; discriminate).
       rewrite (channel_id_memoised w ide (memo s ide) s Hset eq_refl).
       apply memo_step_refl. }
  assert (Hmemo : memo s ide = JNull) by (destruct (memo s ide); try discriminate; reflexivity).
  unfold channel_id. rewrite bind_eq. unfold gets at 1. cbv beta. rewrite Hnone.
  rewrite !bind_eq.
  destruct (only_reads_toolbox_state w (ByKey (IdeInfo.tool_id (value ide))) s)
    as (_ & Hsame & _).
  destruct (toolbox_state w _ s) as [tool s1|e s1]; simpl in Hsame;
    [|apply same_memo_step, Hsame].
  destruct (is_None tool); [apply same_memo_step, Hsame|].
  rewrite bind_eq.
  destruct (py_get tool "channelId") as [c|e]; simpl;
    [|apply same_memo_step, Hsame].
  split.
  - intros i Hi. simpl. rewrite decide_False by exact Hi. rewrite Hsame. reflexivity.
  - intros Hset. congruence.
Qed.

Lemma memo_step_scan_entry w ide acc entry : keeps (memo_step ide) (scan_entry w ide acc entry).
Proof.
  unfold scan_entry.
  apply (keeps_bind _ (memo_step_trans ide)).
  { destruct (element_get entry "key");
      [apply (keeps_ret _ (memo_step_refl ide))|apply (keeps_raise _ (memo_step_refl ide))]. }
  intros key. cbv zeta.
  apply (keeps_bind _ (memo_step_trans ide)); [apply (keeps_gets _ (memo_step_refl ide))|].
  intros found. apply keeps_if; [apply (keeps_ret _ (memo_step_refl ide))|].
  apply (keeps_bind _ (memo_step_trans ide)); [apply (keeps_gets _ (memo_step_refl ide))|].
  intros named. apply (keeps_bind _ (memo_step_trans ide)).
  { apply keeps_if; [|apply (keeps_ret _ (memo_step_refl ide))].
    apply only_reads_memo_step, only_reads_decoded.
    intros [t|j|e];
      [apply (keeps_ret _ only_reads_refl)|apply (keeps_raise _ only_reads_refl)..]. }
  intros name.
  apply (keeps_bind _ (memo_step_trans ide)); [apply memo_step_channel_id|]. intros channel.
  apply (keeps_bind _ (memo_step_trans ide)); [apply (keeps_lift _ (memo_step_refl ide))|].
  intros project. apply (keeps_ret _ (memo_step_refl ide)).
Qed.

Lemma memo_step_get_recent_projects w ide folder :
  keeps (memo_step ide) (get_recent_projects w ide folder).
Proof.
  unfold get_recent_projects. cbv zeta.
  apply (keeps_bind _ (memo_step_trans ide)); [apply (keeps_gets _ (memo_step_refl ide))|].
  intros present. apply keeps_if; [apply (keeps_ret _ (memo_step_refl ide))|].
  apply (keeps_bind _ (memo_step_trans ide)).
  { apply only_reads_memo_step, only_reads_decoded.
    intros [t|j|e];
      [apply (keeps_raise _ only_reads_refl)..|apply (keeps_ret _ only_reads_refl)]. }
  intros tree. apply (keeps_bind _ (memo_step_trans ide)).
  { apply (keeps_foldM _ (memo_step_refl ide) (memo_step_trans ide)).
    intros b x. apply memo_step_scan_entry. }
  intros ps. apply (keeps_bind _ (memo_step_trans ide)).
  - destruct (decide (ide = RIDER)); [|apply (keeps_ret _ (memo_step_refl ide))].
    intros s. apply same_memo_step. reflexivity.
  - intros _. apply (keeps_ret _ (memo_step_refl ide)).
Qed.

Lemma memo_step_scan_ide w ide : keeps (memo_step ide) (scan_ide w ide).
Proof.
  unfold scan_ide. apply (keeps_bind _ (memo_step_trans ide)).
  { intros s. rewrite ide_data_paths_pure.
    destruct (Pure.ide_data_paths w (fs s) ide); apply memo_step_refl. }
  intros folders. apply (keeps_bind _ (memo_step_trans ide)).
  - apply (keeps_foldM _ (memo_step_refl ide) (memo_step_trans ide)). intros d folder.
    apply (keeps_bind _ (memo_step_trans ide)); [apply memo_step_get_recent_projects|].
    intros found. apply (keeps_ret _ (memo_step_refl ide)).
  - intros d. apply (keeps_ret _ (memo_step_refl ide)).
Qed.

Lemma memo_grows_refl s : memo_grows s s.
Proof. intros i _. reflexivity. Qed.

Lemma memo_grows_trans s1 s2 s3 : memo_grows s1 s2 -> memo_grows s2 s3 -> memo_grows s1 s3.
Proof.
  intros H12 H23 i Hi. rewrite (H23 i); [apply (H12 i Hi)|]. rewrite (H12 i Hi). exact Hi.
Qed.

Lemma memo_step_grows ide s s' : memo_step ide s s' -> memo_grows s s'.
Proof.
  intros [Hothers Hide] i Hi. destruct (decide (i = ide)) as [->|Hne];
    [apply Hide, Hi|apply Hothers, Hne].
Qed.

(** X16.  The memo during a scan: scanning a kind changes the memo of no
    other kind and never replaces an identifier it has memoised; so over the
    scan of all kinds an identifier, once memoised, stays the same until the
    process ends, whether the scan returns or raises. *)
Theorem memoised_identifiers_are_never_replaced (w : world) (s : state) :
  (forall ide,
     let s' := final (scan_ide w ide s) in
     (forall i, i <> ide -> memo s' i = memo s i) /\
     (memo s ide <> JNull -> memo s' ide = memo s ide)) /\
  (forall i, memo s i <> JNull -> memo (final (collect w s)) i = memo s i).
Proof.
  split; [intros ide; apply (memo_step_scan_ide w ide s)|].
  assert (H : keeps memo_grows (collect w)); [|exact (H s)].
  unfold collect. apply (keeps_foldM _ memo_grows_refl memo_grows_trans). intros projects ide.
  apply (keeps_bind _ memo_grows_trans); [|intros found; apply (keeps_ret _ memo_grows_refl)].
  intros s0. apply (memo_step_grows ide), memo_step_scan_ide.
Qed.

(** ** Files a run never modifies *)

Lemma canon_last (fs0 : node) (x : string) (segs : list string) :
  x <> ".." ->
  forall acc r, canon fs0 acc (segs ++ [x]) = Some r -> exists r0, r = (r0 ++ [x])%list.
Proof.
  intros Hx. induction segs as [|s segs IH]; intros acc r H.
  - simpl app in H. rewrite canon_step in H.
    destruct (is_Dir (get_node fs0 acc)); [|discriminate].
    rewrite (proj2 (String.eqb_neq x "..") Hx) in H. injection H as <-. eauto.
  - change ((s :: segs) ++ [x])%list with (s :: (segs ++ [x]))%list in H.
    rewrite canon_step in H. destruct (is_Dir (get_node fs0 acc)); [|discriminate].
    destruct (String.eqb s ".."); apply (IH _ _ H).
Qed.

Lemma locate_last w (q : PurePath) :
  parts q <> [] -> exists front, locate w q = (front ++ [path_name q])%list.
Proof.
  intros Hparts. pose proof (app_removelast_last "" Hparts) as Hl.
  unfold locate, path_name. destruct (String.eqb (root q) "").
  - exists (cwd w ++ removelast (parts q))%list. rewrite <- app_assoc, <- Hl. reflexivity.
  - exists (removelast (parts q)). exact Hl.
Qed.

Lemma path_name_cache w cp : cache_path w = Ok cp -> path_name cp = "intellij_projects.json".
Proof.
  unfold cache_path, toolbox_data_path.
  destruct (getenv w "LOCALAPPDATA" None) as [base|e]; simpl; [|discriminate].
  intros [= <-]. apply path_name_ends_named; [reflexivity|].
  unfold path_of, posixpath_join. simpl. unfold join_step at 1.
  change (Str.startswith "cache/intellij_projects.json" "/") with false. cbv iota.
  set (q := join_step (join_step base "JetBrains") "Toolbox").
  destruct (String.eqb_spec q "") as [->|Hq]; simpl.
  - exists ["cache"]. reflexivity.
  - destruct (Str.endswith_sep q) eqn:E.
    + destruct (endswith_sep_inv q E) as [q0 ->].
      exists (Str.split "/" (q0 ++ "/cache")).
      rewrite <- (split_snoc "intellij_projects.json" (q0 ++ "/cache") eq_refl).
      rewrite !string_app_assoc. reflexivity.
    + exists (Str.split "/" (q ++ "/cache")).
      rewrite <- (split_snoc "intellij_projects.json" (q ++ "/cache") eq_refl).
      rewrite !string_app_assoc. reflexivity.
Qed.

(** X17.  A completed run has modified no file but the one named
    [intellij_projects.json]: every other path (one with a last component
    that is not [..]) holds the file it held before.  In particular the
    launcher state file, the recent-projects records and the name markers
    are only ever read. *)
Theorem main_never_modifies_its_inputs (w : world) (s s' : state) :
  main w s = Returns tt s' ->
  (forall q x,
     parts q <> [] -> path_name q <> ".." -> path_name q <> "intellij_projects.json" ->
     (lookup_path w (fs s') q = Some (File x) <-> lookup_path w (fs s) q = Some (File x))) /\
  (forall sp x,
     state_path w = Ok sp ->
     (lookup_path w (fs s') sp = Some (File x) <-> lookup_path w (fs s) sp = Some (File x))).
Proof.
  intros H.
  destruct (main_returns_writes w s s' H) as (out & s1 & cp & s2 & _ & Hfs & Hcp & Ew & E).
  destruct (write_file_frame _ _ _ _ _ Ew) as [Hframe _]. rewrite Hfs, <- E in Hframe.
  assert (Hgen : forall q x,
     parts q <> [] -> path_name q <> ".." -> path_name q <> "intellij_projects.json" ->
     (lookup_path w (fs s') q = Some (File x) <-> lookup_path w (fs s) q = Some (File x))).
  { intros q x Hparts Hdots Hname. apply Hframe. intros Heq.
    destruct (locate_last w q Hparts) as [fq Hq].
    assert (Hcparts : parts cp <> []).
    { intros Hnil. pose proof (path_name_cache w cp Hcp) as Hn.
      unfold path_name in Hn. rewrite Hnil in Hn. discriminate. }
    destruct (locate_last w cp Hcparts) as [fc Hc].
    rewrite (path_name_cache w cp Hcp) in Hc. rewrite Hq, Hc in Heq.
    destruct (canon (fs s) [] (fq ++ [path_name q])) as [rq|] eqn:Eq.
    - destruct (canon_last (fs s) _ fq Hdots [] rq Eq) as [r0 ->].
      symmetry in Heq.
      destruct (canon_last (fs s) "intellij_projects.json" fc ltac:(discriminate) [] _ Heq)
        as [r1 Hr]. apply app_inj_tail in Hr as [_ Hr]. contradiction.
    - unfold write_file in Ew. rewrite Hfs, Hc, <- Heq in Ew. discriminate. }
  split; [exact Hgen|].
  intros sp x Hsp. pose proof (path_name_state w sp Hsp) as Hname.
  apply Hgen; [|rewrite Hname; discriminate..].
  intros Hnil. unfold path_name in Hname. rewrite Hnil in Hname. discriminate.
Qed.

(** ** Paths and their strings *)

Lemma split_fields (s : string) :
  Forall (fun x => Str.split "/" x = [x]) (Str.split "/" s).
Proof.
  induction s as [|a s IH]; [repeat constructor|]. cbn [Str.split].
  destruct (Ascii.eqb a "/") eqn:Ea; [constructor; [reflexivity|exact IH]|].
  destruct (Str.split "/" s) as [|f fields] eqn:E.
  - constructor; [|constructor]. cbn [Str.split]. rewrite Ea. reflexivity.
  - apply Forall_cons in IH as [Hf Hfields]. constructor; [|exact Hfields].
    cbn [Str.split]. rewrite Ea, Hf. reflexivity.
Qed.

Lemma field_head (x : string) : Str.split "/" x = [x] -> starts_sep x = false.
Proof.
  destruct x as [|a x]; [reflexivity|]. cbn [Str.split starts_sep].
  destruct (Ascii.eqb a "/"); [discriminate|reflexivity].
Qed.

Lemma split_field_sep (x t : string) :
  Str.split "/" x = [x] -> Str.split "/" (x ++ String "/" t) = x :: Str.split "/" t.
Proof.
  induction x as [|a x IH]; intros H.
  - change ("" ++ String "/" t) with (String "/" t). cbn [Str.split].
    rewrite Ascii.eqb_refl. reflexivity.
  - change (String a x ++ String "/" t) with (String a (x ++ String "/" t)).
    cbn [Str.split] in H |- *. destruct (Ascii.eqb a "/"); [discriminate|].
    destruct (Str.split "/" x) as [|f fields] eqn:E;
      [exfalso; apply (split_nonempty _ _ E)|].
    injection H as -> ->. rewrite (IH eq_refl). reflexivity.
Qed.

Lemma split_join (l : list string) :
  l <> [] -> Forall (fun x => Str.split "/" x = [x]) l -> Str.split "/" (Str.join_sep l) = l.
Proof.
  induction l as [|x l IH]; intros Hne H; [contradiction|].
  apply Forall_cons in H as [Hx Hl]. destruct l as [|y l]; [exact Hx|].
  change (Str.join_sep (x :: y :: l)) with (x ++ String "/" (Str.join_sep (y :: l))).
  rewrite (split_field_sep _ _ Hx), IH; [reflexivity|discriminate|exact Hl].
Qed.

Lemma starts_sep_app (x t : string) : x <> "" -> starts_sep (x ++ t) = starts_sep x.
Proof. destruct x; [contradiction|reflexivity]. Qed.

Lemma starts_sep_join (l : list string) :
  Forall (fun x => Str.split "/" x = [x] /\ keep_part x = true) l ->
  starts_sep (Str.join_sep l) = false.
Proof.
  destruct 1 as [|x l [Hx Hkeep] _]; [reflexivity|].
  assert (Hne : x <> "") by (intros ->; discriminate).
  destruct l as [|y l]; [apply field_head, Hx|].
  change (Str.join_sep (x :: y :: l)) with (x ++ String "/" (Str.join_sep (y :: l))).
  rewrite (starts_sep_app _ _ Hne). apply field_head, Hx.
Qed.

Lemma filter_kept (l : list string) :
  Forall (fun x => Str.split "/" x = [x] /\ keep_part x = true) l ->
  List.filter keep_part l = l.
Proof.
  induction 1 as [|x l [_ Hkeep] _ IH]; [reflexivity|]. simpl. rewrite Hkeep, IH. reflexivity.
Qed.

Lemma parts_of_join (l : list string) :
  Forall (fun x => Str.split "/" x = [x] /\ keep_part x = true) l ->
  List.filter keep_part (Str.split "/" (Str.join_sep l)) = l.
Proof.
  intros H. destruct l as [|x l]; [reflexivity|].
  rewrite split_join; [apply filter_kept, H|discriminate|].
  eapply Forall_impl; [exact H|]. intros y [Hy _]. exact Hy.
Qed.

Lemma parse_path_normal (s : string) : normal_path (parse_path s).
Proof.
  unfold parse_path, splitroot. split.
  - destruct (negb (starts_sep s)); [left; reflexivity|].
    destruct (_ || _)%bool; right; [left|right]; reflexivity.
  - assert (H : forall rel, Forall (fun x => Str.split "/" x = [x] /\ keep_part x = true)
                              (List.filter keep_part (Str.split "/" rel))).
    { intros rel. pose proof (split_fields rel) as Hf.
      induction Hf as [|x l Hx _ IH]; [constructor|]. simpl.
      destruct (keep_part x) eqn:E; [constructor; [split; assumption|exact IH]|exact IH]. }
    destruct (negb (starts_sep s)); [apply H|]. destruct (_ || _)%bool; apply H.
Qed.

Lemma parse_path_str (p : PurePath) : normal_path p -> parse_path (path_str p) = p.
Proof.
  destruct p as [r l]. intros [Hroot Hparts]. simpl in Hroot, Hparts.
  pose proof (starts_sep_join l Hparts) as Hhead.
  pose proof (parts_of_join l Hparts) as Hsplit.
  unfold path_str, parse_path, splitroot. simpl root. simpl parts.
  destruct Hroot as [->|[->| ->]]; simpl String.eqb; cbv iota.
  - destruct l as [|x l]; [reflexivity|]. rewrite Hhead. simpl negb. cbv iota.
    rewrite Hsplit. reflexivity.
  - change ("/" ++ Str.join_sep l) with (String "/" (Str.join_sep l)).
    cbn [starts_sep behead]. rewrite Ascii.eqb_refl, Hhead. simpl. rewrite Hsplit. reflexivity.
  - change ("//" ++ Str.join_sep l) with (String "/" (String "/" (Str.join_sep l))).
    cbn [starts_sep behead]. rewrite Ascii.eqb_refl, Hhead. simpl. rewrite Hsplit. reflexivity.
Qed.

(** X18.  A path printed and parsed again is the same path, so the string
    under which a project is recorded identifies its path object: two entry
    keys are merged by the dictionary of a kind exactly when they resolve to
    the same path. *)
Theorem path_strings_identify_paths (w : world) :
  (forall s, parse_path (path_str (parse_path s)) = parse_path s) /\
  (forall k1 k2,
     path_str (entry_path w k1) = path_str (entry_path w k2) <->
     entry_path w k1 = entry_path w k2).
Proof.
  assert (H : forall s, parse_path (path_str (parse_path s)) = parse_path s)
    by (intros s; apply parse_path_str, parse_path_normal).
  split; [exact H|]. intros k1 k2. unfold entry_path. split; [|intros ->; reflexivity].
  intros Heq. rewrite <- (H (Str.replace k1 _ _)), Heq. apply H.
Qed.

(** ** When the cache file can be written *)

Lemma canon_app (fs0 : node) (l1 l2 : list string) :
  forall acc,
    canon fs0 acc (l1 ++ l2) =
    match canon fs0 acc l1 with Some a => canon fs0 a l2 | None => None end.
Proof.
  induction l1 as [|s l1 IH]; intros acc; [reflexivity|].
  change ((s :: l1) ++ l2)%list with (s :: (l1 ++ l2))%list. rewrite !canon_step.
  destruct (is_Dir (get_node fs0 acc)); [|reflexivity].
  destruct (String.eqb s ".."); apply IH.
Qed.

Lemma locate_parent w (p : PurePath) :
  parts p <> [] -> locate w p = (locate w (parent p) ++ [path_name p])%list.
Proof.
  intros Hparts. pose proof (app_removelast_last "" Hparts) as Hl.
  unfold locate, parent, path_name. simpl root. simpl parts.
  destruct (String.eqb (root p) ""); [rewrite <- app_assoc|]; rewrite <- Hl; reflexivity.
Qed.

Lemma is_dir_is_Dir w fs0 p :
  is_dir w fs0 p =
  match canon fs0 [] (locate w p) with Some segs => is_Dir (get_node fs0 segs) | None => false end.
Proof.
  unfold is_dir, lookup_path. destruct (canon fs0 [] (locate w p)) as [segs|]; [|reflexivity].
  destruct (get_node fs0 segs) as [[c|es]|]; reflexivity.
Qed.

Lemma writable_parent (w : world) (fs0 : node) (p : PurePath) :
  parts p <> [] -> path_name p <> ".." ->
  writable w fs0 p = (is_dir w fs0 (parent p) && negb (is_dir w fs0 p))%bool.
Proof.
  intros Hparts Hdots. unfold writable. rewrite !is_dir_is_Dir.
  rewrite (locate_parent w p Hparts), canon_app.
  destruct (canon fs0 [] (locate w (parent p))) as [r0|]; [|reflexivity].
  rewrite canon_step. destruct (is_Dir (get_node fs0 r0)); [|reflexivity].
  rewrite (proj2 (String.eqb_neq _ "..") Hdots). simpl canon.
  destruct (r0 ++ [path_name p])%list eqn:E; [destruct r0; discriminate|].
  reflexivity.
Qed.

Lemma writable_cache (w : world) (fs0 : node) (cp : PurePath) :
  cache_path w = Ok cp ->
  writable w fs0 cp = (is_dir w fs0 (parent cp) && negb (is_dir w fs0 cp))%bool.
Proof.
  intros Hcp. pose proof (path_name_cache w cp Hcp) as Hname.
  apply writable_parent; [|rewrite Hname; discriminate].
  intros Hnil. unfold path_name in Hname. rewrite Hnil in Hname. discriminate.
Qed.

(** X19.  The script creates no directory.  Once the scan has returned, the
    run completes exactly when the folder that is to hold the cache file is
    an existing directory and the cache path itself is not a directory;
    otherwise the write raises [OSError], after the whole scan, and nothing
    is printed or written.  So a run that completes found the [cache] folder
    in place, and it is still there afterwards. *)
Theorem main_completes_iff_cache_directory_exists (w : world) (s : state) (cp : PurePath) :
  cache_path w = Ok cp ->
  (forall out s1,
     collect w s = Returns out s1 ->
     if (is_dir w (fs s) (parent cp) && negb (is_dir w (fs s) cp))%bool
     then exists s', main w s = Returns tt s'
     else main w s = Raises OSError s1) /\
  (forall s',
     main w s = Returns tt s' ->
     is_dir w (fs s) (parent cp) = true /\ is_dir w (fs s) cp = false /\
     is_dir w (fs s') (parent cp) = true).
Proof.
  intros Hcp. split.
  - intros out s1 Hscan.
    pose proof (same_disk_collect w s) as Hfs. unfold same_disk in Hfs.
    rewrite Hscan in Hfs. simpl in Hfs.
    rewrite <- (writable_cache w (fs s) cp Hcp), main_eq, Hscan, Hcp.
    destruct (writable w (fs s) cp) eqn:Ew.
    + destruct (write_file_writable w cp (Json (JArr (map Project.to_json out))) s1)
        as [s2 Hwrite]; [rewrite Hfs; exact Ew|].
      rewrite Hwrite. eauto.
    + rewrite (write_file_unwritable w cp _ s1); [reflexivity|rewrite Hfs; exact Ew].
  - intros s' H.
    destruct (main_returns_writes w s s' H) as (out & s1 & cp' & s2 & _ & Hfs & Hcp' & Ew & E).
    rewrite Hcp in Hcp'. injection Hcp' as <-.
    destruct (write_file_frame _ _ _ _ _ Ew) as [_ Hdirs].
    rewrite E, Hdirs, Hfs.
    destruct (writable w (fs s) cp) eqn:Hw.
    + rewrite (writable_cache w (fs s) cp Hcp) in Hw.
      destruct (is_dir w (fs s) (parent cp)); [|discriminate].
      destruct (is_dir w (fs s) cp); [discriminate|]. repeat split.
    + rewrite <- Hfs in Hw. rewrite (write_file_unwritable w cp _ s1 Hw) in Ew. discriminate.
Qed.

(** ** Where the files are *)

Lemma parse_parts (s : string) :
  parts (parse_path s) = List.filter keep_part (Str.split "/" s).
Proof.
  unfold parse_path, splitroot. destruct s as [|a s]; [reflexivity|].
  cbn [starts_sep behead]. destruct (Ascii.eqb a "/") eqn:Ea; [|reflexivity].
  cbn [negb Str.split]. rewrite Ea. cbn [List.filter keep_part String.eqb orb negb].
  destruct s as [|b s]; [reflexivity|].
  cbn [starts_sep behead]. destruct (Ascii.eqb b "/") eqn:Eb; [|reflexivity].
  cbn [negb orb]. destruct (starts_sep s); [reflexivity|].
  cbn [parts Str.split]. rewrite Eb. reflexivity.
Qed.

Lemma root_join (q x : string) :
  q <> "" ->
  (Str.endswith_sep q = true -> starts_sep x = false) ->
  fst (splitroot (q ++ x)) = fst (splitroot q).
Proof.
  intros Hq Hx. unfold splitroot. destruct q as [|c1 q1]; [contradiction|].
  change (String c1 q1 ++ x) with (String c1 (q1 ++ x)). cbn [starts_sep behead].
  destruct (Ascii.eqb c1 "/") eqn:E1; [|reflexivity]. cbn [negb].
  destruct q1 as [|c2 q2].
  - change ("" ++ x) with x. rewrite (Hx E1). reflexivity.
  - change (String c2 q2 ++ x) with (String c2 (q2 ++ x)). cbn [starts_sep behead].
    destruct (Ascii.eqb c2 "/") eqn:E2; [|reflexivity]. cbn [negb orb].
    destruct q2 as [|c3 q3].
    + change ("" ++ x) with x. rewrite (Hx E2). reflexivity.
    + change (String c3 q3 ++ x) with (String c3 (q3 ++ x)). cbn [starts_sep].
      destruct (Ascii.eqb c3 "/"); reflexivity.
Qed.

Lemma startswith_sep (x : string) : Str.startswith x "/" = starts_sep x.
Proof.
  unfold Str.startswith. destruct x as [|a x]; [reflexivity|]. cbn [String.prefix starts_sep].
  destruct (ascii_dec "/" a) as [<-|Hne]; [destruct x; reflexivity|].
  symmetry. apply Ascii.eqb_neq. congruence.
Qed.

Lemma parse_root (s : string) : root (parse_path s) = fst (splitroot s).
Proof. unfold parse_path. destruct (splitroot s). reflexivity. Qed.

Lemma path_eta (p q : PurePath) : root p = root q -> parts p = parts q -> p = q.
Proof. destruct p, q. simpl. congruence. Qed.

(** Joining one clean component and parsing gives the child. *)
Lemma parse_join_step (q name : string) :
  Str.split "/" name = [name] -> keep_part name = true ->
  parse_path (join_step q name) = make_child (parse_path q) name.
Proof.
  intros Hsplit Hkeep. pose proof (field_head name Hsplit) as Hhead.
  unfold join_step. rewrite startswith_sep, Hhead.
  apply path_eta; unfold make_child; cbn [root parts];
    [rewrite !parse_root|rewrite !parse_parts].
  - destruct (String.eqb_spec q "") as [->|Hq]; cbn [orb].
    + unfold splitroot. change ("" ++ name) with name. rewrite Hhead. reflexivity.
    + destruct (Str.endswith_sep q) eqn:E.
      * apply (root_join q name Hq). intros _. exact Hhead.
      * apply (root_join q _ Hq). intros H. congruence.
  - destruct (String.eqb_spec q "") as [->|Hq]; cbn [orb].
    + change ("" ++ name) with name. rewrite Hsplit. simpl. rewrite Hkeep. reflexivity.
    + destruct (Str.endswith_sep q) eqn:E.
      * destruct (endswith_sep_inv q E) as [q0 ->].
        rewrite string_app_assoc. change ("/" ++ name) with (String "/" name).
        change (q0 ++ "/") with (q0 ++ String "/" "").
        rewrite (split_snoc name q0 Hsplit), (split_snoc "" q0 eq_refl), !List.filter_app.
        simpl. rewrite Hkeep, app_nil_r. reflexivity.
      * change ("/" ++ name) with (String "/" name).
        rewrite (split_snoc name q Hsplit), List.filter_app. simpl. rewrite Hkeep. reflexivity.
Qed.

Lemma endswith_sep_app (q a : string) :
  a <> "" -> Str.endswith_sep (q ++ a) = Str.endswith_sep a.
Proof.
  intros Ha. induction q as [|c q IH]; [reflexivity|].
  change (String c q ++ a) with (String c (q ++ a)). cbn [Str.endswith_sep].
  destruct (q ++ a) as [|c' t] eqn:E; [|exact IH].
  destruct q; [simpl in E; contradiction|discriminate].
Qed.

Lemma app_nonempty (q a : string) : a <> "" -> q ++ a <> "".
Proof. intros Ha. destruct q; [exact Ha|discriminate]. Qed.

(** A relative name of two components is joined as its components are. *)
Lemma join_step_nested (q a b : string) :
  a <> "" -> starts_sep a = false -> Str.endswith_sep a = false -> starts_sep b = false ->
  join_step q (a ++ "/" ++ b) = join_step (join_step q a) b.
Proof.
  intros Ha Hhead Hend Hb. unfold join_step. rewrite !startswith_sep, Hhead, Hb.
  rewrite (starts_sep_app a _ Ha), Hhead.
  destruct (String.eqb q "" || Str.endswith_sep q)%bool.
  - rewrite (endswith_sep_app q a Ha), Hend, (proj2 (String.eqb_neq _ "") (app_nonempty q a Ha)).
    cbn [orb]. rewrite !string_app_assoc. reflexivity.
  - assert (Hne : "/" ++ a <> "") by discriminate.
    rewrite (endswith_sep_app q ("/" ++ a) Hne).
    change ("/" ++ a) with (String "/" a) at 2.
    assert (Hend' : Str.endswith_sep (String "/" a) = false)
      by (destruct a; [contradiction|exact Hend]).
    rewrite Hend', (proj2 (String.eqb_neq _ "") (app_nonempty q _ Hne)).
    cbn [orb]. rewrite !string_app_assoc. reflexivity.
Qed.

Lemma path_under_children (folder : PurePath) (a b : string) :
  normal_path folder ->
  Str.split "/" a = [a] -> keep_part a = true ->
  Str.split "/" b = [b] -> keep_part b = true ->
  path_under folder [a; b] = MkPath (root folder) (parts folder ++ [a; b]).
Proof.
  intros Hn Ha Hka Hb Hkb. unfold path_under, path_of, posixpath_join. cbn [fold_left].
  rewrite (parse_join_step _ b Hb Hkb), (parse_join_step _ a Ha Hka), (parse_path_str _ Hn).
  unfold make_child. cbn [root parts]. rewrite <- app_assoc. reflexivity.
Qed.

(** X20.  Where the files are, component by component and whatever the
    environment variables hold (trailing or doubled slashes included): the
    launcher state is [JetBrains/Toolbox/state.json] and the cache
    [JetBrains/Toolbox/cache/intellij_projects.json] under the path of
    [LOCALAPPDATA]; the installations of a kind are looked for in [Google]
    (Android Studio) or [JetBrains] (every other kind) under the path of
    [APPDATA]; the record of an installation folder is its
    [options/recentProjects.xml] and the name marker of a project its
    [.idea/.name]. *)
Theorem files_are_under_the_environment_folders (w : world) :
  (forall base,
     environ w !! "LOCALAPPDATA" = Some base ->
     state_path w
     = Ok (MkPath (root (parse_path base))
             (parts (parse_path base) ++ ["JetBrains"; "Toolbox"; "state.json"])) /\
     cache_path w
     = Ok (MkPath (root (parse_path base))
             (parts (parse_path base)
              ++ ["JetBrains"; "Toolbox"; "cache"; "intellij_projects.json"]))) /\
  (forall appdata ide,
     ide_folder appdata ide
     = MkPath (root (parse_path appdata))
         (parts (parse_path appdata)
          ++ [if decide (ide = ANDROID_STUDIO) then "Google" else "JetBrains"])) /\
  (forall folder,
     normal_path folder ->
     path_under folder ["options"; "recentProjects.xml"]
     = MkPath (root folder) (parts folder ++ ["options"; "recentProjects.xml"]) /\
     path_under folder [".idea"; ".name"]
     = MkPath (root folder) (parts folder ++ [".idea"; ".name"])).
Proof.
  split; [|split].
  - intros base Henv. unfold state_path, cache_path, toolbox_data_path, getenv, os_getenv.
    rewrite Henv. simpl. unfold path_of, posixpath_join. cbn [fold_left]. split; f_equal.
    + rewrite !parse_join_step by reflexivity. unfold make_child. cbn [root parts].
      rewrite <- !app_assoc. reflexivity.
    + change "cache/intellij_projects.json" with ("cache" ++ "/" ++ "intellij_projects.json").
      rewrite join_step_nested by (reflexivity || discriminate).
      rewrite !parse_join_step by reflexivity. unfold make_child. cbn [root parts].
      rewrite <- !app_assoc. reflexivity.
  - intros appdata ide. unfold ide_folder, path_of, posixpath_join.
    destruct (decide (ide = ANDROID_STUDIO)); cbn [fold_left];
      rewrite parse_join_step by reflexivity; reflexivity.
  - intros folder Hn. split; apply path_under_children; (exact Hn || reflexivity).
Qed.

(** ** The further properties on the sample machine *)

(** The complete run on the sample machine leaves every directory in place. *)
Lemma X2_witness :
  exists s',
    main Sample.machine (initial (Sample.disk true)) = Returns tt s' /\
    forall q, is_dir Sample.machine (fs s') q = is_dir Sample.machine (Sample.disk true) q.
Proof.
  destruct (main Sample.machine (initial (Sample.disk true))) as [[] s'|e s'] eqn:E;
    [|vm_compute in E; discriminate].
  exists s'. split; [reflexivity|].
  destruct (proj2 (main_touches_only_the_cache_file
                     Sample.machine (initial (Sample.disk true))) s' E) as (cp & _ & _ & H).
  exact H.
Defined.

(** A state file whose first PhpStorm record has no channel identifier. *)
Lemma X4_witness :
  exists s',
    channel_id Sample.machine PHPSTORM (initial (Cases.toolbox_disk (Json Cases.unchannelled)))
      = Returns JNull s' /\
    (forall i, memo s' i = JNull) /\
    reads s' = [Sample.state_file].
Proof.
  destruct (channel_id_without_identifier_is_not_memoised
              Sample.machine PHPSTORM (initial (Cases.toolbox_disk (Json Cases.unchannelled)))
              Sample.state_file Cases.unchannelled
              [[("toolId", JStr "PhpStorm")];
               [("toolId", JStr "PhpStorm"); ("channelId", JStr "p-1")]]
              [("toolId", JStr "PhpStorm")]
              [[("toolId", JStr "PhpStorm"); ("channelId", JStr "p-1")]]
              eq_refl eq_refl eq_refl eq_refl eq_refl eq_refl) as (s' & H & Hm & _ & Hr).
  exists s'. split; [exact H|]. split; [exact Hm|exact Hr].
Defined.

(** Scanning PhpStorm with its channel memoised. *)
Lemma X5_witness :
  let s' := final (scan_ide Sample.machine PHPSTORM Cases.warmed) in
  memo s' = memo Cases.warmed /\
  exists extra, reads s' = (reads Cases.warmed ++ extra)%list /\ Sample.state_file ∉ extra.
Proof.
  assert (Hmemo : memo Cases.warmed PHPSTORM <> JNull) by (vm_compute; discriminate).
  exact (proj2 (memoised_kind_never_reopens_state_file
                  Sample.machine PHPSTORM Cases.warmed Sample.state_file Hmemo eq_refl)).
Defined.

(** The folder of PhpStorm 2023.1 is listed for PhpStorm. *)
Lemma X8_witness :
  exists fa sa,
    ide_data_paths Sample.machine PHPSTORM (initial (Sample.disk true)) = Returns fa sa /\
    Sample.phpstorm_2023_1 ∈ fa /\ PHPSTORM = PHPSTORM.
Proof.
  destruct (ide_data_paths Sample.machine PHPSTORM (initial (Sample.disk true)))
    as [fa sa|e sa] eqn:E; [|vm_compute in E; discriminate].
  assert (Hin : Sample.phpstorm_2023_1 ∈ fa).
  { pose proof E as E'. vm_compute in E'. injection E' as <- _.
    apply list_elem_of_In. vm_compute. auto. }
  exists fa, sa. split; [reflexivity|]. split; [exact Hin|].
  exact (ide_data_paths_are_disjoint Sample.machine PHPSTORM PHPSTORM
           (initial (Sample.disk true)) fa fa sa sa Sample.phpstorm_2023_1 E E Hin Hin).
Defined.

(** In the sample state file the PhpStorm record comes after that of Rider. *)
Lemma X10_witness :
  toolbox_state Sample.machine (ByKey "PhpStorm") (initial (Sample.disk true))
  = Returns (JObj [("toolId", JStr "PhpStorm"); ("channelId", JStr "p-1")])
      (after_read (initial (Sample.disk true)) Sample.state_file).
Proof.
  assert (Hbefore : Forall (fun b => has_tool_key "PhpStorm" b = false)
                      [[("toolId", JStr "Rider"); ("channelId", JStr "r-1")]])
    by (constructor; [reflexivity|constructor]).
  destruct (toolbox_state_stops_at_first_match
              Sample.machine "PhpStorm" (initial (Sample.disk true)) Sample.state_file
              [("tools", JArr [
                 JObj [("toolId", JStr "Rider"); ("channelId", JStr "r-1")];
                 JObj [("toolId", JStr "PhpStorm"); ("channelId", JStr "p-1")]])]
              [JObj [("toolId", JStr "Rider"); ("channelId", JStr "r-1")];
               JObj [("toolId", JStr "PhpStorm"); ("channelId", JStr "p-1")]]
              [[("toolId", JStr "Rider"); ("channelId", JStr "r-1")]]
              eq_refl eq_refl eq_refl Hbefore) as (H & _ & _).
  apply (H [("toolId", JStr "PhpStorm"); ("channelId", JStr "p-1")] [] eq_refl eq_refl).
Defined.

(** No [LOCALAPPDATA]; no state file; a state file that is text, a JSON
    array, or an object without tool list. *)
Lemma X11_witness :
  toolbox_state Cases.no_local (ByKey "PhpStorm") (initial (Sample.disk true))
  = Raises (EnvironmentError "Could not get environment LOCALAPPDATA")
      (initial (Sample.disk true)) /\
  toolbox_state Sample.machine (ByKey "PhpStorm") (initial (Sample.disk false))
  = Raises (FileNotFoundError "Toolbox state file not found") (initial (Sample.disk false)) /\
  toolbox_state Sample.machine (ByKey "PhpStorm") (initial (Cases.toolbox_disk (Text "{")))
  = Raises JSONDecodeError
      (after_read (initial (Cases.toolbox_disk (Text "{"))) Sample.state_file) /\
  toolbox_state Sample.machine (ByKey "PhpStorm")
    (initial (Cases.toolbox_disk (Json (JArr []))))
  = Raises AttributeError
      (after_read (initial (Cases.toolbox_disk (Json (JArr [])))) Sample.state_file) /\
  toolbox_state Sample.machine (ByKey "PhpStorm")
    (initial (Cases.toolbox_disk (Json (JObj [("version", JNum 1)]))))
  = Raises TypeError
      (after_read (initial (Cases.toolbox_disk (Json (JObj [("version", JNum 1)]))))
         Sample.state_file).
Proof.
  split; [|split; [|split; [|split]]].
  - apply (proj1 (toolbox_state_on_malformed_state
                    Cases.no_local "PhpStorm" (initial (Sample.disk true)))).
    reflexivity.
  - destruct (proj2 (toolbox_state_on_malformed_state
                       Sample.machine "PhpStorm" (initial (Sample.disk false)))
                Sample.state_file eq_refl) as (H & _).
    apply H. reflexivity.
  - destruct (proj2 (toolbox_state_on_malformed_state
                       Sample.machine "PhpStorm" (initial (Cases.toolbox_disk (Text "{"))))
                Sample.state_file eq_refl) as (_ & H & _).
    apply (H (Text "{")); [reflexivity|discriminate].
  - destruct (proj2 (toolbox_state_on_malformed_state
                       Sample.machine "PhpStorm"
                       (initial (Cases.toolbox_disk (Json (JArr [])))))
                Sample.state_file eq_refl) as (_ & _ & H & _).
    apply (H (JArr [])); [reflexivity|discriminate].
  - destruct (proj2 (toolbox_state_on_malformed_state
                       Sample.machine "PhpStorm"
                       (initial (Cases.toolbox_disk (Json (JObj [("version", JNum 1)])))))
                Sample.state_file eq_refl) as (_ & _ & _ & H).
    apply (H [("version", JNum 1)]); reflexivity.
Defined.

(** The two PhpStorm installations of the sample machine. *)
Lemma X12_witness :
  exists ps s' folders reports,
    scan_ide Sample.machine PHPSTORM (initial (Sample.disk true)) = Returns ps s' /\
    ide_data_paths Sample.machine PHPSTORM (initial (Sample.disk true))
      = Returns folders (initial (Sample.disk true)) /\
    Project.path <$> ps = first_seen [] (Project.path <$> concat reports).
Proof.
  destruct (scan_ide Sample.machine PHPSTORM (initial (Sample.disk true)))
    as [ps s'|e s'] eqn:E; [|vm_compute in E; discriminate].
  destruct (scan_ide_keeps_first_report_order _ _ _ _ _ E)
    as (folders & reports & Hf & _ & Hps).
  exists ps, s', folders, reports. split; [reflexivity|]. split; assumption.
Defined.

(** A cache of one record. *)
Lemma X13_witness :
  [Project.Make "b" "/srv/b" (JStr "r-1") [NewOpenItem.init "Rider" (JStr "r-1")]]
  = [Project.Make "b" "/srv/b" (JStr "r-1") [NewOpenItem.init "Rider" (JStr "r-1")]].
Proof.
  apply (cache_records_determine_the_projects
           [Project.Make "b" "/srv/b" (JStr "r-1") [NewOpenItem.init "Rider" (JStr "r-1")]]
           [Project.Make "b" "/srv/b" (JStr "r-1") [NewOpenItem.init "Rider" (JStr "r-1")]]).
  reflexivity.
Defined.

(** A record file that is text, and a record with an entry without key. *)
Lemma X14_witness :
  get_recent_projects Sample.machine PHPSTORM Sample.phpstorm_2023_1
    (initial (Cases.record_disk (Text "<application>")))
  = Raises ParseError
      (after_read (initial (Cases.record_disk (Text "<application>")))
         (path_under Sample.phpstorm_2023_1 ["options"; "recentProjects.xml"])) /\
  get_recent_projects Sample.machine PHPSTORM Sample.phpstorm_2023_1
    (initial (Cases.record_disk (Xml Cases.keyless)))
  = Raises AttributeError
      (after_read (initial (Cases.record_disk (Xml Cases.keyless)))
         (path_under Sample.phpstorm_2023_1 ["options"; "recentProjects.xml"])).
Proof.
  split.
  - pose proof (get_recent_projects_on_unusable_record
                  Sample.machine PHPSTORM Sample.phpstorm_2023_1
                  (initial (Cases.record_disk (Text "<application>")))) as H.
    cbv zeta in H. destruct H as [H _].
    apply (H (Text "<application>")); [reflexivity|discriminate].
  - pose proof (get_recent_projects_on_unusable_record
                  Sample.machine PHPSTORM Sample.phpstorm_2023_1
                  (initial (Cases.record_disk (Xml Cases.keyless)))) as H.
    cbv zeta in H. destruct H as [_ H].
    apply (H Cases.keyless [Element "entry" [("key", "/nowhere")] []]
             (Element "entry" [] []) [Element "entry" [("key", "/home/u")] []]);
      [reflexivity|reflexivity| |reflexivity].
    constructor; [|constructor]. exists "/nowhere". split; reflexivity.
Defined.

(** A key without dollar sign. *)
Lemma X15_witness : entry_path Sample.machine "/srv/b" = parse_path "/srv/b".
Proof.
  apply (proj2 (entry_path_substitutes_the_home_directory Sample.machine "" "/srv/b")).
  simpl. repeat (constructor; [discriminate|]). constructor.
Defined.

(** Scanning PhpStorm with its channel memoised keeps every memo. *)
Lemma X16_witness :
  memo (final (scan_ide Sample.machine PHPSTORM Cases.warmed)) RIDER = memo Cases.warmed RIDER /\
  memo (final (scan_ide Sample.machine PHPSTORM Cases.warmed)) PHPSTORM
  = memo Cases.warmed PHPSTORM /\
  memo (final (collect Sample.machine Cases.warmed)) PHPSTORM = memo Cases.warmed PHPSTORM.
Proof.
  assert (Hmemo : memo Cases.warmed PHPSTORM <> JNull) by (vm_compute; discriminate).
  destruct (memoised_identifiers_are_never_replaced Sample.machine Cases.warmed)
    as [Hscan Hall].
  destruct (Hscan PHPSTORM) as [Hothers Hsame].
  split; [apply Hothers; discriminate|]. split; [apply Hsame, Hmemo|apply Hall, Hmemo].
Defined.

(** The complete run on the sample machine leaves the launcher state as it was. *)
Lemma X17_witness :
  exists s',
    main Sample.machine (initial (Sample.disk true)) = Returns tt s' /\
    lookup_path Sample.machine (fs s') Sample.state_file
    = Some (File (Json Sample.launcher_state)).
Proof.
  destruct (main Sample.machine (initial (Sample.disk true))) as [[] s'|e s'] eqn:E;
    [|vm_compute in E; discriminate].
  exists s'. split; [reflexivity|].
  destruct (main_never_modifies_its_inputs _ _ _ E) as [_ H].
  apply (H Sample.state_file (Json Sample.launcher_state) eq_refl). reflexivity.
Defined.

(** Two spellings of one path. *)
Lemma X18_witness : entry_path Sample.machine "/srv/b/" = entry_path Sample.machine "/srv//b".
Proof.
  apply (proj2 (path_strings_identify_paths Sample.machine) "/srv/b/" "/srv//b").
  reflexivity.
Defined.

(** The sample machine has a [cache] folder; the bare launcher folder has
    none, and the run fails there after a scan that finds nothing. *)
Lemma X19_witness :
  is_dir Sample.machine (Sample.disk true) (parent Sample.cache_file) = true /\
  main Sample.machine (initial (Cases.toolbox_disk (Json Sample.launcher_state)))
  = Raises OSError (initial (Cases.toolbox_disk (Json Sample.launcher_state))).
Proof.
  split.
  - destruct (main Sample.machine (initial (Sample.disk true))) as [[] s'|e s'] eqn:E;
      [|vm_compute in E; discriminate].
    apply (proj2 (main_completes_iff_cache_directory_exists
                    Sample.machine (initial (Sample.disk true)) Sample.cache_file eq_refl)
             s' E).
  - exact (proj1 (main_completes_iff_cache_directory_exists
                    Sample.machine (initial (Cases.toolbox_disk (Json Sample.launcher_state)))
                    Sample.cache_file eq_refl)
             [] (initial (Cases.toolbox_disk (Json Sample.launcher_state))) eq_refl).
Defined.

(** The files of the sample machine. *)
Lemma X20_witness :
  state_path Sample.machine = Ok Sample.state_file /\
  cache_path Sample.machine = Ok Sample.cache_file /\
  path_under Sample.phpstorm_2023_1 ["options"; "recentProjects.xml"]
  = MkPath "/" ["home"; "u"; "Roaming"; "JetBrains"; "PhpStorm2023.1";
                "options"; "recentProjects.xml"].
Proof.
  destruct (files_are_under_the_environment_folders Sample.machine) as (Hlocal & _ & Hunder).
  destruct (Hlocal "/home/u/Local" eq_refl) as [Hstate Hcache].
  split; [exact Hstate|]. split; [exact Hcache|].
  apply (Hunder Sample.phpstorm_2023_1).
  split; [right; left; reflexivity|repeat (constructor; [split; reflexivity|])]. constructor.
Defined.
